(** * Session tokens, credentials and the authentication service

    A shallow embedding of the authentication core of the repository
    (token-service.ts, password-service.ts, auth-service.ts, the in-memory
    user repository and the authentication middleware), with the properties
    of its specification stated and proved over it.

    Modelling conventions.
    - A JavaScript string is a [string]: its characters are 8-bit code units.
      This covers the ASCII alphabets the protocol itself uses (base64url,
      hexadecimal, the separators '.' and ':').
    - A JavaScript number that holds an integer (epoch milliseconds, a status
      code) is a [Z]; a [Date] is its epoch milliseconds. A number read from
      a parsed token is any double but NaN: a rational or an infinity.
    - A thrown exception is a value of [JsError] carried on the left of a sum.
    - Each operation is modelled as running to its end before the next one
      starts. What is proved of states is an invariant of every single step
      of the repository, or is stated of the state that one completed
      operation leaves.
    - [Date.now()], [new Date()] and [randomBytes] read from oracles indexed
      by the number of reads made so far, which is part of the state.
    - The Node.js built-ins the code calls (HMAC-SHA256, SHA-256, base64url,
      JSON) are the fields of a [Platform]; the facts about them that a proof
      needs are the fields of [PlatformLaws]. *)

From Stdlib Require Import ZArith QArith Lia Ascii String List Bool.
From stdpp Require Import base option list strings gmap pretty.

Local Open Scope string_scope.
Local Open Scope Z_scope.

(** ** Strings *)

Module Str.

Definition dot : ascii := "."%char.
Definition colon : ascii := ":"%char.

(** The one-character string made of a double quote. *)
Definition dquote : string := String "034"%char EmptyString.

(** [s.split(sep)] for a one-character separator: the pieces between
    occurrences of [sep], in order; never the empty list. *)
Fixpoint split (sep : ascii) (s : string) : list string :=
  match s with
  | EmptyString => [EmptyString]
  | String c r =>
      if Ascii.eqb c sep then EmptyString :: split sep r
      else match split sep r with
           | x :: xs => String c x :: xs
           | [] => [String c EmptyString]
           end
  end.

(** [c] does not occur in [s]. *)
Fixpoint free_of (c : ascii) (s : string) : bool :=
  match s with
  | EmptyString => true
  | String a r => negb (Ascii.eqb a c) && free_of c r
  end.

(** [s.includes(sub)] *)
Fixpoint includes (s sub : string) : bool :=
  String.prefix sub s
  || match s with
     | EmptyString => false
     | String _ r => includes r sub
     end.

Fixpoint existsb (p : ascii -> bool) (s : string) : bool :=
  match s with
  | EmptyString => false
  | String a r => p a || existsb p r
  end.

Fixpoint map (f : ascii -> ascii) (s : string) : string :=
  match s with
  | EmptyString => EmptyString
  | String a r => String (f a) (map f r)
  end.

(** [parts.join(sep)] *)
Fixpoint join (sep : string) (parts : list string) : string :=
  match parts with
  | [] => EmptyString
  | [x] => x
  | x :: rest => x ++ sep ++ join sep rest
  end.

(** Replace the character at index [i] (no change out of range). *)
Fixpoint set_char (i : nat) (c : ascii) (s : string) : string :=
  match s, i with
  | EmptyString, _ => EmptyString
  | String _ r, O => String c r
  | String a r, S j => String a (set_char j c r)
  end.

End Str.

(** ** Hexadecimal, as [Buffer.toString('hex')] and [Buffer.from(_, 'hex')] *)

Module Hex.

Definition digit (n : N) : ascii :=
  ascii_of_N (if (n <? 10)%N then 48 + n else 87 + n)%N.

Definition value (c : ascii) : option N :=
  let n := N_of_ascii c in
  if ((48 <=? n) && (n <=? 57))%N then Some (n - 48)%N
  else if ((97 <=? n) && (n <=? 102))%N then Some (n - 87)%N
  else if ((65 <=? n) && (n <=? 70))%N then Some (n - 55)%N
  else None.

(** Two lower-case digits per byte. *)
Fixpoint encode (bytes : string) : string :=
  match bytes with
  | EmptyString => EmptyString
  | String b r =>
      let n := N_of_ascii b in
      String (digit (n / 16)) (String (digit (n mod 16)) (encode r))
  end.

(** Decoding stops at the first pair that is not two hexadecimal digits; a
    trailing single digit is dropped. *)
Fixpoint decode (s : string) : string :=
  match s with
  | String a (String b r) =>
      match value a, value b with
      | Some x, Some y => String (ascii_of_N (16 * x + y)) (decode r)
      | _, _ => EmptyString
      end
  | _ => EmptyString
  end.

End Hex.

(** ** Errors

    A thrown [Error] object, as far as a caller can observe it: the [name] of
    its class and its [message]. *)

Record JsError := mkError { name : string; message : string }.

(** [new Error(msg)] *)
Definition Error_new (msg : string) : JsError := mkError "Error" msg.

(** The error classes of types/user.ts. *)
Definition UserNotFoundError_new (identifier : string) : JsError :=
  mkError "UserNotFoundError" ("User not found: " ++ identifier).

Definition InvalidCredentialsError_new : JsError :=
  mkError "InvalidCredentialsError" "Invalid email or password".

Definition UserAlreadyExistsError_new (field value : string) : JsError :=
  mkError "UserAlreadyExistsError"
          ("User with " ++ field ++ " '" ++ value ++ "' already exists").

(** The error kinds of the specification, as the errors the token service
    throws for them. *)
Definition RevokedError : JsError := Error_new "Token has been revoked".
Definition MalformedTokenError_format : JsError := Error_new "Invalid token format".
Definition InvalidSignatureError : JsError := Error_new "Invalid token signature".
Definition MalformedTokenError_payload : JsError := Error_new "Invalid token payload".
Definition ExpiredError : JsError := Error_new "Token has expired".
Definition AccountDisabledError : JsError := Error_new "User account is deactivated".

(** ** Data model (types/user.ts, token-service.ts) *)

Record Permission := mkPermission {
  permission_id : string;
  resource : string;
  action : string;
  permission_description : string }.

Record Role := mkRole {
  role_id : string;
  role_name : string;
  role_description : string;
  permissions : list Permission;
  role_createdAt : Z }.

Record UserProfile := mkUserProfile {
  firstName : string;
  lastName : string;
  phone : option string;
  avatar : option string;
  lastLoginAt : option Z }.

Record User := mkUser {
  id : string;
  email : string;
  username : string;
  hashedPassword : string;
  roles : list Role;
  profile : UserProfile;
  createdAt : Z;
  updatedAt : Z;
  isActive : bool }.

Record UserRegistrationData := mkUserRegistrationData {
  reg_email : string;
  reg_username : string;
  reg_password : string;
  reg_firstName : string;
  reg_lastName : string;
  reg_phone : option string }.

Record UserLoginData := mkUserLoginData {
  login_email : string;
  login_password : string }.

(** Response DTO: a [User] without its [hashedPassword] and [updatedAt]. *)
Record UserResponse := mkUserResponse {
  resp_id : string;
  resp_email : string;
  resp_username : string;
  resp_roles : list Role;
  resp_profile : UserProfile;
  resp_createdAt : Z;
  resp_isActive : bool }.

(** [expiresAt] is a [Date]; it is modelled by its epoch milliseconds. *)
Record AuthenticationResult := mkAuthenticationResult {
  user : UserResponse;
  token : string;
  expiresAt : Z }.

Record TokenPayload := mkTokenPayload {
  userId : string;
  issuedAt : Z;
  payload_expiresAt : Z }.

(** ** JSON values

    What [JSON.parse] returns: [null], a boolean, a number, a string, an
    array, or an object with its own properties in order, each key once. A
    number is a double that is not NaN: a rational, or an infinity (which
    [JSON.parse] gives for a numeral that is too large). *)

Inductive JsNum :=
| Finite (q : Q)
| Infinity (negative : bool).

#[warnings="-register-all"]
Inductive Json :=
| Json_null
| Json_boolean (b : bool)
| Json_number (n : JsNum)
| Json_string (s : string)
| Json_array (items : list Json)
| Json_object (members : list (string * Json)).

(** A value read from a property is a JSON value or [undefined], which is
    [None]. [subject uid] is the user id [uid] as such a value. *)
Definition subject (uid : string) : option Json := Some (Json_string uid).

Fixpoint members_get (key : string) (members : list (string * Json)) : option Json :=
  match members with
  | [] => None
  | (k, v) :: rest => if String.eqb key k then Some v else members_get key rest
  end.

(** [v.key], for a key that no prototype defines (here [expiresAt] and
    [userId]): a [TypeError] when [v] is [null], the own property when [v] is
    an object, and [undefined] otherwise. *)
Definition Get (v : Json) (key : string) : JsError + option Json :=
  match v with
  | Json_null =>
      inl (mkError "TypeError"
                   ("Cannot read properties of null (reading '" ++ key ++ "')"))
  | Json_object members => inr (members_get key members)
  | _ => inr None
  end.

(** The value that [JSON.parse] gives back for a stringified payload. *)
Definition payload_json (p : TokenPayload) : Json :=
  Json_object
    [("userId", Json_string (userId p));
     ("issuedAt", Json_number (Finite (inject_Z (issuedAt p))));
     ("expiresAt", Json_number (Finite (inject_Z (payload_expiresAt p))))].

(** ** The platform

    The Node.js built-ins used by the services. [hmac_sha256 key data] and
    [sha256 data] are [createHmac('sha256', key).update(data).digest()] and
    [createHash('sha256').update(data).digest()], as raw bytes.
    [Buffer_from_utf8] and [Buffer_toString_utf8] turn a text into the bytes
    of a [Buffer] and back; [Buffer_toString_base64url] and
    [Buffer_from_base64url] are the two directions of its base64url encoding.
    [JSON_parse] is [JSON.parse]: it returns whatever value the text denotes,
    and [None] stands for a thrown [SyntaxError]. The last three fields are
    the conversions the language applies by itself: [StringToNumber] reads a
    string as a number ([None] is NaN), [NumberToString] writes a number, and
    [ToPrimitive] turns an array or an object into a string through its
    [valueOf] and [toString]; [None] stands for the [TypeError] thrown when
    neither gives a primitive value. *)

Record Platform := mkPlatform {
  hmac_sha256 : string -> string -> string;
  sha256 : string -> string;
  Buffer_from_utf8 : string -> string;
  Buffer_toString_utf8 : string -> string;
  Buffer_toString_base64url : string -> string;
  Buffer_from_base64url : string -> string;
  JSON_stringify_payload : TokenPayload -> string;
  JSON_parse : string -> option Json;
  StringToNumber : string -> option JsNum;
  NumberToString : JsNum -> string;
  ToPrimitive : Json -> option string }.

Definition TypeError_primitive : JsError :=
  mkError "TypeError" "Cannot convert object to primitive value".

(** What the language converts a value to where a number is needed, as in
    [Date.now() > payload.expiresAt] ([None] is NaN), and where a string is
    needed, as in a template literal. *)
Definition ToNumber (P : Platform) (v : option Json) : JsError + option JsNum :=
  match v with
  | None => inr None
  | Some Json_null => inr (Some (Finite 0))
  | Some (Json_boolean b) => inr (Some (Finite (if b then 1 else 0)))
  | Some (Json_number n) => inr (Some n)
  | Some (Json_string s) => inr (StringToNumber P s)
  | Some o =>
      match ToPrimitive P o with
      | None => inl TypeError_primitive
      | Some s => inr (StringToNumber P s)
      end
  end.

Definition ToString (P : Platform) (v : option Json) : JsError + string :=
  match v with
  | None => inr "undefined"
  | Some Json_null => inr "null"
  | Some (Json_boolean b) => inr (if b then "true" else "false")
  | Some (Json_number n) => inr (NumberToString P n)
  | Some (Json_string s) => inr s
  | Some o =>
      match ToPrimitive P o with
      | None => inl TypeError_primitive
      | Some s => inr s
      end
  end.

(** [now > v] for an integer [now]: false against NaN. *)
Definition GreaterThan (P : Platform) (now : Z) (v : option Json) : JsError + bool :=
  match ToNumber P v with
  | inl e => inl e
  | inr None => inr false
  | inr (Some (Infinity negative)) => inr negative
  | inr (Some (Finite q)) => inr (negb (Qle_bool (inject_Z now) q))
  end.

(** What [validateToken] makes of a decoded payload when the clock reads
    [now], in closed form: the error thrown or the value returned. *)
Definition payload_outcome (P : Platform) (payload : Json) (now : Z)
  : JsError + option Json :=
  match Get payload "expiresAt" with
  | inl e => inl e
  | inr expiresAt' =>
      match GreaterThan P now expiresAt' with
      | inl e => inl e
      | inr true => inl ExpiredError
      | inr false => Get payload "userId"
      end
  end.

(** [new UserNotFoundError(identifier)]: the message is built with a template
    literal, whose conversion of [identifier] to a string can throw. *)
Definition UserNotFoundError_of (P : Platform) (identifier : option Json) : JsError :=
  match ToString P identifier with
  | inr text => UserNotFoundError_new text
  | inl e => e
  end.

Record PlatformLaws (P : Platform) : Prop := mkPlatformLaws {
  utf8_decode_encode :
    forall text, Buffer_toString_utf8 P (Buffer_from_utf8 P text) = text;
  base64url_alphabet :
    forall bytes, Str.free_of Str.dot (Buffer_toString_base64url P bytes) = true;
  base64url_decode_encode :
    forall bytes, Buffer_from_base64url P (Buffer_toString_base64url P bytes) = bytes;
  JSON_parse_stringify :
    forall p, JSON_parse P (JSON_stringify_payload P p) = Some (payload_json p);
  sha256_length :
    forall m, String.length (sha256 P m) = 32%nat }.

(** ** State and effects *)

(** The mutable state of one process: the in-memory user [Map] (in insertion
    order) with its id counter, the token service's set of revoked tokens, and
    how many times the clock and the random generator have been read. *)
Record World := mkWorld {
  clock_reads : nat;
  entropy_reads : nat;
  users : list (string * User);
  nextId : N;
  revokedTokens : gset string }.

(** A computation may change the state and either returns or throws. *)
Definition M (A : Type) : Type := World -> (JsError + A) * World.

#[global] Instance M_ret : MRet M := fun A (a : A) w => (inr a, w).

#[global] Instance M_bind : MBind M := fun A B (k : A -> M B) (m : M A) w =>
  match m w with
  | (inr a, w') => k a w'
  | (inl e, w') => (inl e, w')
  end.

Definition throw {A : Type} (e : JsError) : M A := fun w => (inl e, w).

Definition get_world : M World := fun w => (inr w, w).

Definition set_clock_reads (n : nat) (w : World) : World :=
  mkWorld n (entropy_reads w) (users w) (nextId w) (revokedTokens w).

Definition set_entropy_reads (n : nat) (w : World) : World :=
  mkWorld (clock_reads w) n (users w) (nextId w) (revokedTokens w).

Definition set_users (us : list (string * User)) (w : World) : World :=
  mkWorld (clock_reads w) (entropy_reads w) us (nextId w) (revokedTokens w).

Definition set_nextId (n : N) (w : World) : World :=
  mkWorld (clock_reads w) (entropy_reads w) (users w) n (revokedTokens w).

Definition set_revokedTokens (s : gset string) (w : World) : World :=
  mkWorld (clock_reads w) (entropy_reads w) (users w) (nextId w) s.

Definition lift {A : Type} (r : JsError + A) : M A := fun w => (r, w).

(** [try { body } catch { handler }]: the state changes made by [body] before
    it threw are kept. *)
Definition try_catch {A : Type} (body : M A) (handler : JsError -> M A) : M A :=
  fun w =>
    match body w with
    | (inr a, w') => (inr a, w')
    | (inl e, w') => handler e w'
    end.

(** What a running process is given: the platform, the secret of its token
    service, and the values that the successive reads of the clock (in epoch
    milliseconds) and of the random generator (one byte per read) return. *)
Record Env := mkEnv {
  platform : Platform;
  secret : string;
  clock : nat -> Z;
  entropy : nat -> ascii }.

Section Oracles.

Context (E : Env).

(** [Date.now()], and [new Date()] as its epoch milliseconds. *)
Definition Date_now : M Z := fun w =>
  (inr (clock E (clock_reads w)), set_clock_reads (S (clock_reads w)) w).

Fixpoint read_entropy (from n : nat) : string :=
  match n with
  | O => EmptyString
  | S k => String (entropy E from) (read_entropy (S from) k)
  end.

(** [randomBytes(n)] *)
Definition randomBytes (n : nat) : M string := fun w =>
  (inr (read_entropy (entropy_reads w) n),
   set_entropy_reads (entropy_reads w + n)%nat w).

End Oracles.

(** ** Token service (services/token-service.ts) *)

Module JWTTokenService.

Definition expirationHours : Z := 24.

(** [JSON.stringify({ alg: 'HS256', typ: 'JWT' })] *)
Definition header_json : string :=
  "{" ++ Str.dquote ++ "alg" ++ Str.dquote ++ ":" ++ Str.dquote ++ "HS256"
      ++ Str.dquote ++ "," ++ Str.dquote ++ "typ" ++ Str.dquote ++ ":"
      ++ Str.dquote ++ "JWT" ++ Str.dquote ++ "}".

Section WithEnv.

Context (E : Env).

Definition createSignature (data : string) : string :=
  Buffer_toString_base64url (platform E) (hmac_sha256 (platform E) (secret E) data).

Definition base64UrlEncode (data : string) : string :=
  Buffer_toString_base64url (platform E) (Buffer_from_utf8 (platform E) data).

Definition base64UrlDecode (data : string) : string :=
  Buffer_toString_utf8 (platform E) (Buffer_from_base64url (platform E) data).

Definition createToken (payload : TokenPayload) : string :=
  let encodedHeader := base64UrlEncode header_json in
  let encodedPayload :=
    base64UrlEncode (JSON_stringify_payload (platform E) payload) in
  let signature := createSignature (encodedHeader ++ "." ++ encodedPayload) in
  encodedHeader ++ "." ++ encodedPayload ++ "." ++ signature.

(** The value returned is whatever [JSON.parse] gives: nothing checks that it
    has the shape of a [TokenPayload]. *)
Definition decodeToken (token : string) : JsError + Json :=
  match Str.split Str.dot token with
  | [encodedHeader; encodedPayload; signature] =>
      let expectedSignature :=
        createSignature (encodedHeader ++ "." ++ encodedPayload) in
      if negb (String.eqb signature expectedSignature)
      then inl InvalidSignatureError
      else
        match JSON_parse (platform E) (base64UrlDecode encodedPayload) with
        | Some payload => inr payload
        | None => inl MalformedTokenError_payload
        end
  | _ => inl MalformedTokenError_format
  end.

Definition generateToken (userId : string) : M string :=
  now ← Date_now E;
  let expiresAt := now + expirationHours * 60 * 60 * 1000 in
  mret (createToken (mkTokenPayload userId now expiresAt)).

(** [Date.now()] is called before [payload.expiresAt] is read. The value
    returned is [payload.userId], whatever it is. *)
Definition validateToken (token : string) : M (option Json) :=
  w ← get_world;
  if decide (token ∈ revokedTokens w) then throw RevokedError
  else
    payload ← lift (decodeToken token);
    now ← Date_now E;
    expiresAt' ← lift (Get payload "expiresAt");
    expired ← lift (GreaterThan (platform E) now expiresAt');
    if expired : bool then throw ExpiredError
    else lift (Get payload "userId").

Definition revokeToken (token : string) : M unit := fun w =>
  (inr tt, set_revokedTokens ({[ token ]} ∪ revokedTokens w) w).

Definition getTokenExpiration : M Z :=
  now ← Date_now E;
  mret (now + expirationHours * 60 * 60 * 1000).

End WithEnv.

End JWTTokenService.

(** ** In-memory user repository (repositories/user-repository.ts) *)

Module InMemoryUserRepository.

(** The [Map<string, User>]: [get], and [set], which keeps the position of a
    key that is already present and appends a new one. *)
Fixpoint Map_get (k : string) (m : list (string * User)) : option User :=
  match m with
  | [] => None
  | (k', v) :: r => if String.eqb k k' then Some v else Map_get k r
  end.

Fixpoint Map_set (k : string) (v : User) (m : list (string * User))
  : list (string * User) :=
  match m with
  | [] => [(k, v)]
  | (k', v') :: r =>
      if String.eqb k k' then (k, v) :: r else (k', v') :: Map_set k v r
  end.

Fixpoint Map_find (p : User -> bool) (m : list (string * User)) : option User :=
  match m with
  | [] => None
  | (_, v) :: r => if p v then Some v else Map_find p r
  end.

Section WithEnv.

Context (E : Env).

Definition generateId : M string := fun w =>
  (inr (pretty (nextId w)), set_nextId (nextId w + 1)%N w).

Definition findById (id' : string) : M (option User) :=
  w ← get_world; mret (Map_get id' (users w)).

(** [findById] as the callers of the token service use it, on an [id] that
    need not be a string: the keys of the [Map] are strings, and
    [this.users.get(id)] finds nothing under any other value. *)
Definition Map_get_any (k : option Json) (m : list (string * User)) : option User :=
  match k with
  | Some (Json_string s) => Map_get s m
  | _ => None
  end.

Definition findById_any (id' : option Json) : M (option User) :=
  w ← get_world; mret (Map_get_any id' (users w)).

Definition findByEmail (email' : string) : M (option User) :=
  w ← get_world;
  mret (Map_find (fun u => String.eqb (email u) email') (users w)).

Definition findByUsername (username' : string) : M (option User) :=
  w ← get_world;
  mret (Map_find (fun u => String.eqb (username u) username') (users w)).

Definition Map_set_user (k : string) (v : User) : M unit := fun w =>
  (inr tt, set_users (Map_set k v (users w)) w).

Definition create (userData : UserRegistrationData) (hashedPassword' : string)
  : M User :=
  id' ← generateId;
  now ← Date_now E;
  let u :=
    mkUser id' (reg_email userData) (reg_username userData) hashedPassword' []
           (mkUserProfile (reg_firstName userData) (reg_lastName userData)
                          (reg_phone userData) None None)
           now now true in
  _ ← Map_set_user id' u;
  mret u.

Definition updateLastLogin (userId' : string) : M unit :=
  w ← get_world;
  match Map_get userId' (users w) with
  | None => throw (Error_new "User not found")
  | Some u =>
      loginAt ← Date_now E;
      updated ← Date_now E;
      let p := profile u in
      Map_set_user userId'
        (mkUser (id u) (email u) (username u) (hashedPassword u) (roles u)
                (mkUserProfile (firstName p) (lastName p) (phone p) (avatar p)
                               (Some loginAt))
                (createdAt u) updated (isActive u))
  end.

Definition setActive (userId' : string) (isActive' : bool) : M unit :=
  w ← get_world;
  match Map_get userId' (users w) with
  | None => throw (Error_new "User not found")
  | Some u =>
      updated ← Date_now E;
      Map_set_user userId'
        (mkUser (id u) (email u) (username u) (hashedPassword u) (roles u)
                (profile u) (createdAt u) updated isActive')
  end.

End WithEnv.

End InMemoryUserRepository.

(** ** Password service (services/password-service.ts) *)

Record PasswordValidationResult := mkPasswordValidationResult {
  isValid : bool;
  errors : list string }.

Module BcryptPasswordService.

Definition MIN_PASSWORD_LENGTH : nat := 8.
Definition MAX_PASSWORD_LENGTH : nat := 128.

Definition in_range (lo hi : N) (c : ascii) : bool :=
  ((lo <=? N_of_ascii c) && (N_of_ascii c <=? hi))%N.

(** The character classes of the regular expressions. *)
Definition is_uppercase : ascii -> bool := in_range 65 90.
Definition is_lowercase : ascii -> bool := in_range 97 122.
Definition is_digit : ascii -> bool := in_range 48 57.

Definition special_characters : string :=
  "!@#$%^&*()_+-=[]{};':" ++ Str.dquote ++ "\|,.<>/?".

Definition is_special (c : ascii) : bool :=
  Str.existsb (Ascii.eqb c) special_characters.

(** What [.] does not match: line feed and carriage return (the other two
    line terminators, U+2028 and U+2029, are not 8-bit code units). *)
Definition is_line_terminator (c : ascii) : bool :=
  Ascii.eqb c "010"%char || Ascii.eqb c "013"%char.

(** [/(.)\1{2,}/.test(s)] *)
Fixpoint has_repeated_run (s : string) : bool :=
  match s with
  | EmptyString => false
  | String a r =>
      match r with
      | String b (String c _) =>
          negb (is_line_terminator a) && Ascii.eqb a b && Ascii.eqb a c
      | _ => false
      end
      || has_repeated_run r
  end.

(** [toLowerCase] on one 8-bit code unit: the ASCII capitals and the
    capitals of the Latin-1 supplement (all of U+00C0..U+00DE but the
    multiplication sign U+00D7) move up by 32. *)
Definition toLowerCase_char (c : ascii) : ascii :=
  let n := N_of_ascii c in
  if in_range 65 90 c || (in_range 192 222 c && negb (n =? 215)%N)
  then ascii_of_N (n + 32) else c.

Definition toLowerCase (s : string) : string := Str.map toLowerCase_char s.

Definition commonPasswords : list string :=
  ["password"; "123456"; "qwerty"; "admin"; "letmein"].

(** [errors.push(msg)] when [cond] holds. *)
Definition push_if (cond : bool) (msg : string) (errors : list string)
  : list string :=
  if cond then errors ++ [msg] else errors.

Definition validatePasswordStrength (password : string)
  : PasswordValidationResult :=
  let errors := [] in
  let errors :=
    push_if (String.length password <? MIN_PASSWORD_LENGTH)%nat
      ("Password must be at least " ++ pretty MIN_PASSWORD_LENGTH
         ++ " characters long") errors in
  let errors :=
    push_if (MAX_PASSWORD_LENGTH <? String.length password)%nat
      ("Password must be no more than " ++ pretty MAX_PASSWORD_LENGTH
         ++ " characters long") errors in
  let errors :=
    push_if (negb (Str.existsb is_uppercase password))
      "Password must contain at least one uppercase letter" errors in
  let errors :=
    push_if (negb (Str.existsb is_lowercase password))
      "Password must contain at least one lowercase letter" errors in
  let errors :=
    push_if (negb (Str.existsb is_digit password))
      "Password must contain at least one number" errors in
  let errors :=
    push_if (negb (Str.existsb is_special password))
      "Password must contain at least one special character" errors in
  let errors :=
    push_if (has_repeated_run password)
      "Password cannot contain more than 2 consecutive identical characters"
      errors in
  let errors :=
    push_if (List.existsb (fun common => Str.includes (toLowerCase password) common)
                          commonPasswords)
      "Password cannot contain common words or patterns" errors in
  mkPasswordValidationResult (Nat.eqb (List.length errors) 0) errors.

(** [validatePasswordInput]: the [typeof] test cannot fail on a [string]. *)
Definition validatePasswordInput (password : string) : M unit :=
  if Nat.eqb (String.length password) 0
  then throw (Error_new "Password cannot be empty")
  else mret tt.

(** [crypto.timingSafeEqual(a, b)] on two byte buffers: a [RangeError] when
    their lengths differ, else whether they are equal. *)
Definition timingSafeEqual (a b : string) : JsError + bool :=
  if Nat.eqb (String.length a) (String.length b)
  then inr (String.eqb a b)
  else inl (mkError "RangeError" "Input buffers must have the same byte length").

Section WithEnv.

Context (E : Env).

(** [createHash('sha256').update(data).digest('hex')] *)
Definition sha256_hex (data : string) : string :=
  Hex.encode (sha256 (platform E) data).

Definition hashPassword (password : string) : M string :=
  _ ← validatePasswordInput password;
  bytes ← randomBytes E 16;
  let salt := Hex.encode bytes in
  let hash := sha256_hex (password ++ salt) in
  mret (salt ++ ":" ++ hash).

(** The destructuring [[salt, hash] = hashedPassword.split(':')] takes the
    first two pieces; a missing or empty one makes the result [false], and
    so does anything thrown inside the [try]. *)
Definition verifyPassword (password hashedPassword' : string) : bool :=
  match Str.split Str.colon hashedPassword' with
  | salt :: hash :: _ =>
      if Nat.eqb (String.length salt) 0 || Nat.eqb (String.length hash) 0
      then false
      else
        let newHash := sha256_hex (password ++ salt) in
        match timingSafeEqual (Hex.decode hash) (Hex.decode newHash) with
        | inr b => b
        | inl _ => false
        end
  | _ => false
  end.

End WithEnv.

End BcryptPasswordService.

(** ** Authentication service (services/auth-service.ts) *)

Module DefaultAuthService.

Definition toUserResponse (u : User) : UserResponse :=
  mkUserResponse (id u) (email u) (username u) (roles u) (profile u)
                 (createdAt u) (isActive u).

Section WithEnv.

Context (E : Env).

Definition register (userData : UserRegistrationData)
  : M AuthenticationResult :=
  let passwordValidation :=
    BcryptPasswordService.validatePasswordStrength (reg_password userData) in
  if negb (isValid passwordValidation)
  then throw (Error_new ("Password validation failed: "
                           ++ Str.join ", " (errors passwordValidation)))
  else
    existingUserByEmail ← InMemoryUserRepository.findByEmail (reg_email userData);
    match existingUserByEmail with
    | Some _ => throw (UserAlreadyExistsError_new "email" (reg_email userData))
    | None =>
        existingUserByUsername ←
          InMemoryUserRepository.findByUsername (reg_username userData);
        match existingUserByUsername with
        | Some _ =>
            throw (UserAlreadyExistsError_new "username" (reg_username userData))
        | None =>
            hashed ← BcryptPasswordService.hashPassword E (reg_password userData);
            u ← InMemoryUserRepository.create E userData hashed;
            tok ← JWTTokenService.generateToken E (id u);
            expires ← JWTTokenService.getTokenExpiration E;
            mret (mkAuthenticationResult (toUserResponse u) tok expires)
        end
    end.

Definition login (loginData : UserLoginData) : M AuthenticationResult :=
  found ← InMemoryUserRepository.findByEmail (login_email loginData);
  match found with
  | None => throw InvalidCredentialsError_new
  | Some u =>
      let isPasswordValid :=
        BcryptPasswordService.verifyPassword E (login_password loginData)
                                             (hashedPassword u) in
      if negb isPasswordValid then throw InvalidCredentialsError_new
      else if negb (isActive u) then throw AccountDisabledError
      else
        _ ← InMemoryUserRepository.updateLastLogin E (id u);
        tok ← JWTTokenService.generateToken E (id u);
        expires ← JWTTokenService.getTokenExpiration E;
        mret (mkAuthenticationResult (toUserResponse u) tok expires)
  end.

Definition validateToken (token' : string) : M UserResponse :=
  userId' ← JWTTokenService.validateToken E token';
  found ← InMemoryUserRepository.findById_any userId';
  match found with
  | None => throw (UserNotFoundError_of (platform E) userId')
  | Some u =>
      if negb (isActive u) then throw AccountDisabledError
      else mret (toUserResponse u)
  end.

Definition refreshToken (token' : string) : M AuthenticationResult :=
  userId' ← JWTTokenService.validateToken E token';
  found ← InMemoryUserRepository.findById_any userId';
  match found with
  | None => throw (UserNotFoundError_of (platform E) userId')
  | Some u =>
      if negb (isActive u) then throw AccountDisabledError
      else
        newToken ← JWTTokenService.generateToken E (id u);
        expires ← JWTTokenService.getTokenExpiration E;
        mret (mkAuthenticationResult (toUserResponse u) newToken expires)
  end.

Definition logout (token' : string) : M unit :=
  JWTTokenService.revokeToken token'.

End WithEnv.

End DefaultAuthService.

(** ** Authentication middleware (middleware/auth.ts) *)

(** How a middleware call ends: [next()] after [req.user] was set, or a
    response [res.status(status).json({ error })]. *)
Inductive Outcome :=
| Next (req_user : UserResponse)
| Respond (status : Z) (error : string).

Module DefaultAuthMiddleware.

(** [extractToken], on the value of the [Authorization] header; a missing or
    empty header gives [null], and so does anything but [Bearer <token>]. The
    caller then also rejects an empty token (which is falsy). *)
Definition extractToken (authorization : option string) : option string :=
  match authorization with
  | None => None
  | Some authHeader =>
      if Nat.eqb (String.length authHeader) 0 then None
      else
        match Str.split " "%char authHeader with
        | [scheme; credentials] =>
            if String.eqb scheme "Bearer" then Some credentials else None
        | _ => None
        end
  end.

(** The tests behind [requireRole] and [requirePermission]. *)
Definition hasRole (u : UserResponse) (roleName : string) : bool :=
  List.existsb (fun r => String.eqb (role_name r) roleName) (resp_roles u).

Definition userHasPermission (u : UserResponse) (resource' action' : string)
  : bool :=
  List.existsb
    (fun r =>
       List.existsb
         (fun p => String.eqb (resource p) resource' && String.eqb (action p) action')
         (permissions r))
    (resp_roles u).

Section WithEnv.

Context (E : Env).

Definition authenticate_body (authorization : option string) : M Outcome :=
  match extractToken authorization with
  | None => mret (Respond 401 "Authentication token required")
  | Some t =>
      if Nat.eqb (String.length t) 0
      then mret (Respond 401 "Authentication token required")
      else
        userId' ← JWTTokenService.validateToken E t;
        found ← InMemoryUserRepository.findById_any userId';
        match found with
        | None => mret (Respond 401 "Invalid authentication token")
        | Some u =>
            if negb (isActive u)
            then mret (Respond 403 "User account is deactivated")
            else mret (Next (DefaultAuthService.toUserResponse u))
        end
  end.

(** The whole body is inside [try]; a caught error is answered with 401
    and its message. *)
Definition authenticate (authorization : option string) : M Outcome :=
  try_catch (authenticate_body authorization)
            (fun e => mret (Respond 401 (message e))).

End WithEnv.

End DefaultAuthMiddleware.

(** ** A sample platform

    Small stand-ins for the built-ins, which satisfy [PlatformLaws]: they make
    the model run on concrete inputs. They are not the real algorithms: the
    text is its own byte string, base64url is replaced by hexadecimal, the
    payload codec is a self-delimiting binary notation, the MAC is the key
    followed by the message, and the hash is the first 32 bytes of the
    zero-padded message. Of the texts that are not a stringified payload, the
    parser knows [null] and the empty object; it reads no string as a number
    and writes every array and object as [[object Object]]. *)

Module Sample.

Fixpoint encode_positive (p : positive) (rest : string) : string :=
  match p with
  | xH => String "H" rest
  | xO q => String "O" (encode_positive q rest)
  | xI q => String "I" (encode_positive q rest)
  end.

Definition encode_Z (z : Z) (rest : string) : string :=
  match z with
  | Z0 => String "0" rest
  | Zpos p => String "+" (encode_positive p rest)
  | Zneg p => String "-" (encode_positive p rest)
  end.

Fixpoint decode_positive (s : string) : option (positive * string) :=
  match s with
  | EmptyString => None
  | String c r =>
      if Ascii.eqb c "H" then Some (xH, r)
      else if Ascii.eqb c "O"
           then match decode_positive r with
                | Some (q, r') => Some (xO q, r')
                | None => None
                end
      else if Ascii.eqb c "I"
           then match decode_positive r with
                | Some (q, r') => Some (xI q, r')
                | None => None
                end
      else None
  end.

Definition decode_Z (s : string) : option (Z * string) :=
  match s with
  | EmptyString => None
  | String c r =>
      if Ascii.eqb c "0" then Some (Z0, r)
      else if Ascii.eqb c "+"
           then match decode_positive r with
                | Some (p, r') => Some (Zpos p, r')
                | None => None
                end
      else if Ascii.eqb c "-"
           then match decode_positive r with
                | Some (p, r') => Some (Zneg p, r')
                | None => None
                end
      else None
  end.

Definition stringify (p : TokenPayload) : string :=
  encode_Z (issuedAt p) (encode_Z (payload_expiresAt p) (userId p)).

Definition parse (s : string) : option Json :=
  if String.eqb s "null" then Some Json_null
  else if String.eqb s "{}" then Some (Json_object [])
  else
    match decode_Z s with
    | Some (issued, r) =>
        match decode_Z r with
        | Some (expires, uid) => Some (payload_json (mkTokenPayload uid issued expires))
        | None => None
        end
    | None => None
    end.

Fixpoint pad_to (n : nat) (s : string) : string :=
  match n with
  | O => EmptyString
  | S k =>
      match s with
      | EmptyString => String zero (pad_to k EmptyString)
      | String c r => String c (pad_to k r)
      end
  end.

Definition sample_platform : Platform :=
  mkPlatform (fun key data => key ++ data) (pad_to 32) (fun text => text)
             (fun bytes => bytes)
             Hex.encode Hex.decode stringify parse
             (fun _ => None) (fun _ => "0") (fun _ => Some "[object Object]").

End Sample.

(** ** Cost of the comparisons

    The two comparisons that involve a secret, instrumented with the number of
    character positions they examine. The source calls two different
    primitives:
    - [crypto.timingSafeEqual], documented by Node.js as a constant-time
      algorithm: on buffers of equal length it examines every byte;
    - the operator [!==] on strings, for which the language defines only the
      result; it is taken here as engines implement it: unequal lengths are
      settled without looking at a character, and equal lengths by a scan that
      stops at the first character that differs.
    Erasing the count gives back [decodeToken] and [verifyPassword]. *)

Module Cost.

Fixpoint scan_steps (a b : string) : nat :=
  match a, b with
  | String x a', String y b' =>
      if Ascii.eqb x y then S (scan_steps a' b') else 1%nat
  | _, _ => 0%nat
  end.

(** [a !== b] *)
Definition strict_not_equal (a b : string) : bool * nat :=
  (negb (String.eqb a b),
   if Nat.eqb (String.length a) (String.length b) then scan_steps a b else 0%nat).

Definition timingSafeEqual (a b : string) : (JsError + bool) * nat :=
  (BcryptPasswordService.timingSafeEqual a b,
   if Nat.eqb (String.length a) (String.length b) then String.length a else 0%nat).

Section WithEnv.

Context (E : Env).

Definition decodeToken (token : string) : (JsError + Json) * nat :=
  match Str.split Str.dot token with
  | [encodedHeader; encodedPayload; signature] =>
      let expectedSignature :=
        JWTTokenService.createSignature E (encodedHeader ++ "." ++ encodedPayload) in
      let (differs, steps) := strict_not_equal signature expectedSignature in
      if differs then (inl InvalidSignatureError, steps)
      else
        match JSON_parse (platform E)
                (JWTTokenService.base64UrlDecode E encodedPayload) with
        | Some payload => (inr payload, steps)
        | None => (inl MalformedTokenError_payload, steps)
        end
  | _ => (inl MalformedTokenError_format, 0%nat)
  end.

Definition verifyPassword (password hashedPassword' : string) : bool * nat :=
  match Str.split Str.colon hashedPassword' with
  | salt :: hash :: _ =>
      if Nat.eqb (String.length salt) 0 || Nat.eqb (String.length hash) 0
      then (false, 0%nat)
      else
        let newHash := BcryptPasswordService.sha256_hex E (password ++ salt) in
        match timingSafeEqual (Hex.decode hash) (Hex.decode newHash) with
        | (inr b, steps) => (b, steps)
        | (inl _, steps) => (false, steps)
        end
  | _ => (false, 0%nat)
  end.

End WithEnv.

End Cost.

(** ** Effect of a computation on the revocation set

    [revoked_rel R m]: running [m] relates the revocation set before to the
    one after by [R], whether [m] returns or throws. With [R] equality, [m]
    leaves the set alone; with [R] inclusion, [m] may only add to it. *)

Definition revoked_rel (R : relation (gset string)) {A : Type} (m : M A) : Prop :=
  forall w, R (revokedTokens w) (revokedTokens (snd (m w))).

(** ** Operations of a running process

    What a caller can ask of the services; [perform] is the state a call
    leaves behind, whether it returned or threw. *)

Inductive Operation :=
| Op_generateToken (userId' : string)
| Op_validateToken (token' : string)
| Op_revokeToken (token' : string)
| Op_getTokenExpiration
| Op_register (userData : UserRegistrationData)
| Op_login (loginData : UserLoginData)
| Op_auth_validateToken (token' : string)
| Op_refreshToken (token' : string)
| Op_logout (token' : string)
| Op_authenticate (authorization : option string)
| Op_setActive (userId' : string) (isActive' : bool).

Definition perform (E : Env) (op : Operation) (w : World) : World :=
  match op with
  | Op_generateToken u => snd (JWTTokenService.generateToken E u w)
  | Op_validateToken t => snd (JWTTokenService.validateToken E t w)
  | Op_revokeToken t => snd (JWTTokenService.revokeToken t w)
  | Op_getTokenExpiration => snd (JWTTokenService.getTokenExpiration E w)
  | Op_register d => snd (DefaultAuthService.register E d w)
  | Op_login d => snd (DefaultAuthService.login E d w)
  | Op_auth_validateToken t => snd (DefaultAuthService.validateToken E t w)
  | Op_refreshToken t => snd (DefaultAuthService.refreshToken E t w)
  | Op_logout t => snd (DefaultAuthService.logout t w)
  | Op_authenticate a => snd (DefaultAuthMiddleware.authenticate E a w)
  | Op_setActive u b => snd (InMemoryUserRepository.setActive E u b w)
  end.

Definition perform_all (E : Env) (ops : list Operation) (w : World) : World :=
  fold_left (fun w' op => perform E op w') ops w.

(** [r] carries a token issued for its user at the clock read number [k] and
    reports as expiry the next clock read plus the time to live. *)
Definition issued_then_reported (E : Env) (k : nat) (r : AuthenticationResult)
  : Prop :=
  token r
  = JWTTokenService.createToken E
      (mkTokenPayload (resp_id (user r)) (clock E k) (clock E k + 86400000))
  /\ expiresAt r = clock E (S k) + 86400000.

(** ** Sample runs *)

Module Run.

(** A process on the sample platform whose clock reads are given by [ticks]
    (and stay at [0] once they are used up). *)
Definition env (ticks : list Z) : Env :=
  mkEnv Sample.sample_platform "test-secret" (fun n => nth n ticks 0)
        (fun n => ascii_of_nat (n + 1)).

Definition initial : World := mkWorld 0 0 [] 1 ∅.

(** One user registers when the clock reads 5, 6 and 7; later reads give
    8, 9, ... *)
Definition E1 : Env := env [5; 6; 7; 8; 9; 10; 11; 12].

Definition data : UserRegistrationData :=
  mkUserRegistrationData "test@example.com" "testuser" "Test.Passw0rd!"
                         "John" "Doe" None.

Definition registration : (JsError + AuthenticationResult) * World :=
  DefaultAuthService.register E1 data initial.

Definition registered : World := Eval vm_compute in snd registration.

Definition tok1 : string :=
  Eval vm_compute in
    match fst registration with
    | inr r => token r
    | inl _ => EmptyString
    end.



(** The three segments of the registration token. *)
Definition tok1_header : string :=
  Eval vm_compute in nth 0 (Str.split Str.dot tok1) EmptyString.

Definition tok1_payload : string :=
  Eval vm_compute in nth 1 (Str.split Str.dot tok1) EmptyString.

Definition tok1_signature : string :=
  Eval vm_compute in nth 2 (Str.split Str.dot tok1) EmptyString.

(** The registration token with character [i] of its signature replaced
    by [z]. *)
Definition tampered (i : nat) : string :=
  tok1_header ++ "." ++ tok1_payload ++ "." ++ Str.set_char i "z" tok1_signature.

(** The registration token with character [i] of its payload segment
    replaced by [z]. *)
Definition tampered_payload (i : nat) : string :=
  tok1_header ++ "." ++ Str.set_char i "z" tok1_payload ++ "." ++ tok1_signature.

(** A correctly signed token whose payload is the given text, and the two such
    tokens whose payloads are [null] and the empty object. Only the holder of
    the secret can make them; the service itself never does. *)
Definition signed (text : string) : string :=
  let h := JWTTokenService.base64UrlEncode E1 JWTTokenService.header_json in
  let p := JWTTokenService.base64UrlEncode E1 text in
  h ++ "." ++ p ++ "." ++ JWTTokenService.createSignature E1 (h ++ "." ++ p).

Definition signed_null : string := Eval vm_compute in signed "null".

Definition signed_empty_object : string := Eval vm_compute in signed "{}".

(** The same state after the user has been deactivated. *)
Definition deactivated : World :=
  Eval vm_compute in snd (InMemoryUserRepository.setActive E1 "1" false registered).

End Run.

(** * The rest of the services' code *)

(** ** The rest of the in-memory repository (repositories/user-repository.ts) *)

(** [array.slice(start, end)] on integer arguments: a negative index counts
    from the end, every index is clamped to the array, and a missing [end]
    is the length. *)
Definition Array_slice {A : Type} (l : list A) (start : Z) (stop : option Z)
  : list A :=
  let len := Z.of_nat (List.length l) in
  let clamp (i : Z) := if i <? 0 then Z.max (len + i) 0 else Z.min i len in
  let k := clamp start in
  let final :=
    match stop with
    | None => len
    | Some e => clamp e
    end in
  firstn (Z.to_nat (final - k)) (skipn (Z.to_nat k) l).

Module UserRepository.

(** [Map.delete(k)] *)
Fixpoint Map_delete (k : string) (m : list (string * User)) : list (string * User) :=
  match m with
  | [] => []
  | (k', v) :: r => if String.eqb k k' then r else (k', v) :: Map_delete k r
  end.

Section WithEnv.

Context (E : Env).

Definition updatePassword (userId' hashedPassword' : string) : M unit :=
  w ← get_world;
  match InMemoryUserRepository.Map_get userId' (users w) with
  | None => throw (Error_new "User not found")
  | Some u =>
      updated ← Date_now E;
      InMemoryUserRepository.Map_set_user userId'
        (mkUser (id u) (email u) (username u) hashedPassword' (roles u)
                (profile u) (createdAt u) updated (isActive u))
  end.

(** [assignRole] and [removeRole] only check that the user exists. *)
Definition assignRole (userId' roleId' : string) : M unit :=
  w ← get_world;
  match InMemoryUserRepository.Map_get userId' (users w) with
  | None => throw (Error_new "User not found")
  | Some _ => mret tt
  end.

Definition removeRole (userId' roleId' : string) : M unit :=
  w ← get_world;
  match InMemoryUserRepository.Map_get userId' (users w) with
  | None => throw (Error_new "User not found")
  | Some _ => mret tt
  end.

(** [offset || 0] and [limit ? start + limit : undefined]: an offset or a
    limit of [0] counts as missing. *)
Definition findAll (limit offset : option Z) : M (list User) :=
  w ← get_world;
  let allUsers := List.map snd (users w) in
  let start :=
    match offset with
    | Some o => if o =? 0 then 0 else o
    | None => 0
    end in
  let stop :=
    match limit with
    | Some l => if l =? 0 then None else Some (start + l)
    | None => None
    end in
  mret (Array_slice allUsers start stop).

Definition delete (userId' : string) : M unit := fun w =>
  (inr tt, set_users (Map_delete userId' (users w)) w).

End WithEnv.

End UserRepository.

(** ** Calls of the services and of the repository

    The operations above and the remaining methods of the repository and of
    the password service, all but the repository's [updateProfile];
    [reachable E w] holds of the states that these calls lead to, starting
    with an empty store and no revoked token. *)

Inductive Call :=
| Call_operation (op : Operation)
| Call_create (userData : UserRegistrationData) (hashedPassword' : string)
| Call_updateLastLogin (userId' : string)
| Call_updatePassword (userId' hashedPassword' : string)
| Call_assignRole (userId' roleId' : string)
| Call_removeRole (userId' roleId' : string)
| Call_findAll (limit offset : option Z)
| Call_delete (userId' : string)
| Call_hashPassword (password : string).

Definition call (E : Env) (c : Call) (w : World) : World :=
  match c with
  | Call_operation op => perform E op w
  | Call_create d h => snd (InMemoryUserRepository.create E d h w)
  | Call_updateLastLogin u => snd (InMemoryUserRepository.updateLastLogin E u w)
  | Call_updatePassword u h => snd (UserRepository.updatePassword E u h w)
  | Call_assignRole u r => snd (UserRepository.assignRole u r w)
  | Call_removeRole u r => snd (UserRepository.removeRole u r w)
  | Call_findAll l o => snd (UserRepository.findAll l o w)
  | Call_delete u => snd (UserRepository.delete u w)
  | Call_hashPassword p => snd (BcryptPasswordService.hashPassword E p w)
  end.

Definition call_all (E : Env) (cs : list Call) (w : World) : World :=
  fold_left (fun w' c => call E c w') cs w.

Definition fresh (w : World) : Prop :=
  users w = [] /\ nextId w = 1%N /\ revokedTokens w = ∅.

Definition reachable (E : Env) (w : World) : Prop :=
  exists w0 cs, fresh w0 /\ w = call_all E cs w0.

(** The shape of the store: no key occurs twice, every user sits under its
    own id, every id is the decimal form of a number below the id counter,
    and no user has a role. *)
Definition store_ok (w : World) : Prop :=
  NoDup (List.map fst (users w))
  /\ Forall (fun kv => id (snd kv) = fst kv
                       /\ (exists n, (n < nextId w)%N /\ fst kv = pretty n)
                       /\ roles (snd kv) = [])
            (users w).

(** [preserves I m]: if [I] holds before [m] runs, it holds after, whether [m]
    returns or throws. *)
Definition preserves (I : World -> Prop) {A : Type} (m : M A) : Prop :=
  forall w, I w -> I (snd (m w)).

(** ** Role and permission guards (middleware/auth.ts) *)

Definition InsufficientPermissionsError_new (requiredPermission : string) : JsError :=
  mkError "InsufficientPermissionsError"
          ("Insufficient permissions: " ++ requiredPermission ++ " required").

Module Guards.

(** [requireRole(roleName)] as a function of [req.user]; the error thrown
    inside its [try] is answered with 403 and its message. *)
Definition requireRole (roleName : string) (req_user : option UserResponse)
  : Outcome :=
  match req_user with
  | None => Respond 401 "Authentication required"
  | Some u =>
      if DefaultAuthMiddleware.hasRole u roleName then Next u
      else Respond 403 (message (InsufficientPermissionsError_new
                                   ("Role '" ++ roleName ++ "' required")))
  end.

Definition requirePermission (resource' action' : string)
  (req_user : option UserResponse) : Outcome :=
  match req_user with
  | None => Respond 401 "Authentication required"
  | Some u =>
      if DefaultAuthMiddleware.userHasPermission u resource' action' then Next u
      else Respond 403 (message (InsufficientPermissionsError_new
                                   ("Permission '" ++ resource' ++ ":" ++ action'
                                      ++ "' required")))
  end.

Definition requireAdmin : option UserResponse -> Outcome := requireRole "admin".

(** Two middlewares in a row, as [app.ts] chains them: the second runs only
    if the first called [next()], and sees the [req.user] it set. *)
Definition chain (first : M Outcome) (second : option UserResponse -> Outcome)
  : M Outcome :=
  o ← first;
  match o with
  | Next u => mret (second (Some u))
  | Respond s e => mret (Respond s e)
  end.

(** The guard in front of every [/admin] route. *)
Definition admin_guard (E : Env) (authorization : option string) : M Outcome :=
  chain (DefaultAuthMiddleware.authenticate E authorization) requireAdmin.

End Guards.

(** ** Regular expressions

    The fragment the email pattern needs, matched against a whole string (the
    pattern is anchored by [^] and [$]) with Brzozowski derivatives. *)

Module Regex.

Inductive regex :=
| Never
| Eps
| Class (p : ascii -> bool)
| Seq (r1 r2 : regex)
| Alt (r1 r2 : regex)
| Star (r : regex).

(** [r+] *)
Definition Plus (r : regex) : regex := Seq r (Star r).

Definition Chr (c : ascii) : regex := Class (Ascii.eqb c).

Fixpoint nullable (r : regex) : bool :=
  match r with
  | Never => false
  | Eps => true
  | Class _ => false
  | Seq r1 r2 => nullable r1 && nullable r2
  | Alt r1 r2 => nullable r1 || nullable r2
  | Star _ => true
  end.

Fixpoint deriv (c : ascii) (r : regex) : regex :=
  match r with
  | Never => Never
  | Eps => Never
  | Class p => if p c then Eps else Never
  | Seq r1 r2 =>
      if nullable r1 then Alt (Seq (deriv c r1) r2) (deriv c r2)
      else Seq (deriv c r1) r2
  | Alt r1 r2 => Alt (deriv c r1) (deriv c r2)
  | Star r1 => Seq (deriv c r1) (Star r1)
  end.

(** [/^r$/.test(s)] *)
Fixpoint test (r : regex) (s : string) : bool :=
  match s with
  | EmptyString => nullable r
  | String c rest => test (deriv c r) rest
  end.

(** The strings a regular expression denotes. *)
Inductive denotes : regex -> string -> Prop :=
| denotes_Eps : denotes Eps EmptyString
| denotes_Class p c : p c = true -> denotes (Class p) (String c EmptyString)
| denotes_Seq r1 r2 s1 s2 :
    denotes r1 s1 -> denotes r2 s2 -> denotes (Seq r1 r2) (s1 ++ s2)
| denotes_Alt_l r1 r2 s : denotes r1 s -> denotes (Alt r1 r2) s
| denotes_Alt_r r1 r2 s : denotes r2 s -> denotes (Alt r1 r2) s
| denotes_Star_nil r : denotes (Star r) EmptyString
| denotes_Star_cons r s1 s2 :
    denotes r s1 -> denotes (Star r) s2 -> denotes (Star r) (s1 ++ s2).

End Regex.

(** ** User controller (controllers/user-controller.ts) *)

(** A value found in a parsed JSON request body. [JsNumber] holds the integer
    numbers; [JsObject] stands for any object or array. *)
Inductive JsValue :=
| JsUndefined
| JsNull
| JsBoolean (b : bool)
| JsNumber (z : Z)
| JsString (s : string)
| JsObject.

(** What [res.status(_).json(_)] sends. *)
Inductive ResponseBody :=
| Body_auth (data : AuthenticationResult)
| Body_user (data : UserResponse)
| Body_message (msg : string)
| Body_error (error : string)
| Body_error_details (error : string) (details : list string).

Record HttpResponse := mkHttpResponse {
  res_status : Z;
  res_body : ResponseBody }.

Record LoginBody := mkLoginBody {
  body_email : JsValue;
  body_password : JsValue }.

Record PasswordUpdateBody := mkPasswordUpdateBody {
  body_currentPassword : JsValue;
  body_newPassword : JsValue }.

Module UserController.

(** [!v || typeof v !== 'string'] fails exactly on a non-empty string. *)
Definition required_string (v : JsValue) : option string :=
  match v with
  | JsString s => if Nat.eqb (String.length s) 0 then None else Some s
  | _ => None
  end.

(** [\s] among the 8-bit code units: tab, line feed, vertical tab, form feed,
    carriage return, space and no-break space. *)
Definition is_whitespace (c : ascii) : bool :=
  let n := N_of_ascii c in
  ((9 <=? n) && (n <=? 13) || (n =? 32) || (n =? 160))%N.

(** [[^\s@]] *)
Definition email_char (c : ascii) : bool :=
  negb (is_whitespace c || Ascii.eqb c "@").

(** [/^[^\s@]+@[^\s@]+\.[^\s@]+$/] *)
Definition emailRegex : Regex.regex :=
  Regex.Seq (Regex.Plus (Regex.Class email_char))
    (Regex.Seq (Regex.Chr "@")
       (Regex.Seq (Regex.Plus (Regex.Class email_char))
          (Regex.Seq (Regex.Chr ".") (Regex.Plus (Regex.Class email_char))))).

Definition validateLoginData (body : LoginBody) : JsError + UserLoginData :=
  match required_string (body_email body) with
  | None => inl (Error_new "Valid email is required")
  | Some email' =>
      match required_string (body_password body) with
      | None => inl (Error_new "Valid password is required")
      | Some password' => inr (mkUserLoginData email' password')
      end
  end.

Definition validatePasswordUpdateData (body : PasswordUpdateBody)
  : JsError + (string * string) :=
  match required_string (body_currentPassword body) with
  | None => inl (Error_new "Current password is required")
  | Some current =>
      match required_string (body_newPassword body) with
      | None => inl (Error_new "New password is required")
      | Some new => inr (current, new)
      end
  end.

(** [handleError]: the class of the error picks the status. Every [JsError]
    is an [Error], so the last branch of the source (500 for a thrown value
    that is not an [Error]) has no counterpart. *)
Definition handleError (e : JsError) : HttpResponse :=
  if String.eqb (name e) "UserAlreadyExistsError"
  then mkHttpResponse 409 (Body_error (message e))
  else if String.eqb (name e) "InvalidCredentialsError"
  then mkHttpResponse 401 (Body_error (message e))
  else if String.eqb (name e) "UserNotFoundError"
  then mkHttpResponse 404 (Body_error (message e))
  else mkHttpResponse 400 (Body_error (message e)).

Section WithEnv.

Context (E : Env).

(** POST /auth/login *)
Definition login (body : LoginBody) : M HttpResponse :=
  try_catch
    (loginData ← lift (validateLoginData body);
     result ← DefaultAuthService.login E loginData;
     mret (mkHttpResponse 200 (Body_auth result)))
    (fun e => mret (handleError e)).

(** POST /auth/refresh, on the [token] field of the body *)
Definition refreshToken (token' : JsValue) : M HttpResponse :=
  try_catch
    (match required_string token' with
     | None => mret (mkHttpResponse 400 (Body_error "Token is required"))
     | Some t =>
         result ← DefaultAuthService.refreshToken E t;
         mret (mkHttpResponse 200 (Body_auth result))
     end)
    (fun e => mret (handleError e)).

(** POST /auth/logout, on the [token] field of the body *)
Definition logout (token' : JsValue) : M HttpResponse :=
  try_catch
    (match required_string token' with
     | None => mret (mkHttpResponse 400 (Body_error "Token is required"))
     | Some t =>
         _ ← DefaultAuthService.logout t;
         mret (mkHttpResponse 200 (Body_message "Logged out successfully"))
     end)
    (fun e => mret (handleError e)).

(** GET /users/profile *)
Definition getProfile (req_user : option UserResponse) : M HttpResponse :=
  match req_user with
  | None => mret (mkHttpResponse 401 (Body_error "Authentication required"))
  | Some u => mret (mkHttpResponse 200 (Body_user u))
  end.

(** PUT /users/password *)
Definition updatePassword (req_user : option UserResponse)
  (body : PasswordUpdateBody) : M HttpResponse :=
  try_catch
    (match req_user with
     | None => mret (mkHttpResponse 401 (Body_error "Authentication required"))
     | Some u =>
         passwordData ← lift (validatePasswordUpdateData body);
         currentUser ← InMemoryUserRepository.findById (resp_id u);
         match currentUser with
         | None => throw (UserNotFoundError_new (resp_id u))
         | Some cu =>
             if negb (BcryptPasswordService.verifyPassword E (fst passwordData)
                        (hashedPassword cu))
             then mret (mkHttpResponse 400 (Body_error "Current password is incorrect"))
             else
               let passwordValidation :=
                 BcryptPasswordService.validatePasswordStrength (snd passwordData) in
               if negb (isValid passwordValidation)
               then mret (mkHttpResponse 400
                            (Body_error_details "Password validation failed"
                               (errors passwordValidation)))
               else
                 hashedNewPassword ←
                   BcryptPasswordService.hashPassword E (snd passwordData);
                 _ ← UserRepository.updatePassword E (resp_id u) hashedNewPassword;
                 mret (mkHttpResponse 200
                         (Body_message "Password updated successfully"))
         end
     end)
    (fun e => mret (handleError e)).

End WithEnv.

End UserController.

(** ** Registration form (components/RegisterForm.tsx) *)

Module RegisterForm.

Definition MIN_PASSWORD_LENGTH : nat := 8.

(** The form's own [validatePasswordStrength]. *)
Definition validatePasswordStrength (password : string) : list string :=
  let errors := [] in
  let errors :=
    BcryptPasswordService.push_if
      (String.length password <? MIN_PASSWORD_LENGTH)%nat
      ("Must be at least " ++ pretty MIN_PASSWORD_LENGTH ++ " characters long")
      errors in
  let errors :=
    BcryptPasswordService.push_if
      (negb (Str.existsb BcryptPasswordService.is_uppercase password))
      "Must contain at least one uppercase letter" errors in
  let errors :=
    BcryptPasswordService.push_if
      (negb (Str.existsb BcryptPasswordService.is_lowercase password))
      "Must contain at least one lowercase letter" errors in
  let errors :=
    BcryptPasswordService.push_if
      (negb (Str.existsb BcryptPasswordService.is_digit password))
      "Must contain at least one number" errors in
  let errors :=
    BcryptPasswordService.push_if
      (negb (Str.existsb BcryptPasswordService.is_special password))
      "Must contain at least one special character" errors in
  errors.

End RegisterForm.

(** ** More sample runs *)

Module Scenario.

(** What the sample registration answered. *)
Definition registration_result : AuthenticationResult :=
  Eval vm_compute in
    match fst Run.registration with
    | inr r => r
    | inl _ =>
        mkAuthenticationResult
          (mkUserResponse "" "" "" [] (mkUserProfile "" "" None None None) 0 false)
          "" 0
    end.

(** The sample user's credentials, and the header that carries the
    registration token. *)
Definition credentials : UserLoginData :=
  mkUserLoginData (reg_email Run.data) (reg_password Run.data).

Definition bearer : option string := Some ("Bearer " ++ Run.tok1).

(** The user as stored by the sample registration. *)
Definition stored_user : User :=
  Eval vm_compute in
    match InMemoryUserRepository.Map_get "1" (users Run.registered) with
    | Some u => u
    | None =>
        mkUser "" "" "" "" [] (mkUserProfile "" "" None None None) 0 0 false
    end.

(** The sample state after the user has logged out, and after the user has
    been deleted. *)
Definition logged_out : World :=
  Eval vm_compute in snd (DefaultAuthService.logout Run.tok1 Run.registered).

Definition deleted : World :=
  Eval vm_compute in snd (UserRepository.delete "1" Run.registered).

End Scenario.

(** ** Retired ids *)

(** [retired uid w]: the store is well shaped, the id [uid] has been handed
    out, and no user is stored under it. *)
Definition retired (uid : string) (w : World) : Prop :=
  store_ok w
  /\ (exists n, (n < nextId w)%N /\ uid = pretty n)
  /\ InMemoryUserRepository.Map_get uid (users w) = None.

(** ** Registration input (controllers/user-controller.ts) *)

Record RegistrationBody := mkRegistrationBody {
  body_reg_email : JsValue;
  body_reg_username : JsValue;
  body_reg_password : JsValue;
  body_reg_firstName : JsValue;
  body_reg_lastName : JsValue;
  body_reg_phone : JsValue }.

(** What [validateRegistrationData] returns: the five required fields are
    strings by then; [phone] is returned as it came, a string or any falsy
    value. *)
Record ValidatedRegistration := mkValidatedRegistration {
  valid_email : string;
  valid_username : string;
  valid_password : string;
  valid_firstName : string;
  valid_lastName : string;
  valid_phone : JsValue }.

Module RegistrationInput.

(** [!!v] *)
Definition truthy (v : JsValue) : bool :=
  match v with
  | JsUndefined | JsNull => false
  | JsBoolean b => b
  | JsNumber z => negb (z =? 0)
  | JsString s => negb (Nat.eqb (String.length s) 0)
  | JsObject => true
  end.

(** [typeof v === 'string'] *)
Definition is_string (v : JsValue) : bool :=
  match v with
  | JsString _ => true
  | _ => false
  end.

Definition validateRegistrationData (body : RegistrationBody)
  : JsError + ValidatedRegistration :=
  match UserController.required_string (body_reg_email body) with
  | None => inl (Error_new "Valid email is required")
  | Some email' =>
  match UserController.required_string (body_reg_username body) with
  | None => inl (Error_new "Valid username is required")
  | Some username' =>
  match UserController.required_string (body_reg_password body) with
  | None => inl (Error_new "Valid password is required")
  | Some password' =>
  match UserController.required_string (body_reg_firstName body) with
  | None => inl (Error_new "Valid first name is required")
  | Some firstName' =>
  match UserController.required_string (body_reg_lastName body) with
  | None => inl (Error_new "Valid last name is required")
  | Some lastName' =>
      if truthy (body_reg_phone body) && negb (is_string (body_reg_phone body))
      then inl (Error_new "Phone must be a string")
      else if negb (Regex.test UserController.emailRegex email')
      then inl (Error_new "Invalid email format")
      else inr (mkValidatedRegistration email' username' password' firstName'
                                        lastName' (body_reg_phone body))
  end end end end end.

(** A non-empty string made of characters that are neither white space
    nor [@]. *)
Fixpoint every_char (p : ascii -> bool) (s : string) : bool :=
  match s with
  | EmptyString => true
  | String c r => p c && every_char p r
  end.

Definition email_part (s : string) : bool :=
  negb (Nat.eqb (String.length s) 0) && every_char UserController.email_char s.

End RegistrationInput.

(** * Properties *)

(** ** Splitting and joining *)

Lemma split_not_nil (sep : ascii) (s : string) : Str.split sep s <> [].
Proof.
  destruct s as [|c r]; simpl; [discriminate|].
  destruct (Ascii.eqb c sep); [discriminate|].
  destruct (Str.split sep r); discriminate.
Qed.

Lemma split_free_of (sep : ascii) (s : string) :
  Str.free_of sep s = true -> Str.split sep s = [s].
Proof.
  induction s as [|c r IH]; simpl; [reflexivity|].
  intros H. apply andb_prop in H as [Hc Hr].
  apply negb_true_iff in Hc. rewrite Hc, (IH Hr). reflexivity.
Qed.

Lemma split_app_sep (sep : ascii) (a b : string) :
  Str.free_of sep a = true ->
  Str.split sep (a ++ String sep b) = a :: Str.split sep b.
Proof.
  induction a as [|c r IH]; simpl.
  - intros _. rewrite Ascii.eqb_refl. reflexivity.
  - intros H. apply andb_prop in H as [Hc Hr].
    apply negb_true_iff in Hc. rewrite Hc, (IH Hr). reflexivity.
Qed.

Lemma split_three (sep : ascii) (a b c : string) :
  Str.free_of sep a = true -> Str.free_of sep b = true -> Str.free_of sep c = true ->
  Str.split sep (a ++ String sep (b ++ String sep c)) = [a; b; c].
Proof.
  intros Ha Hb Hc.
  rewrite (split_app_sep _ _ _ Ha), (split_app_sep _ _ _ Hb), (split_free_of _ _ Hc).
  reflexivity.
Qed.

(** A piece cut off by [split] does not contain the separator, so a string
    with a separator in one of three joined pieces has more than three. *)
Lemma split_length_app_sep (sep : ascii) (a b : string) :
  List.length (Str.split sep (a ++ String sep b))
  = (List.length (Str.split sep a) + List.length (Str.split sep b))%nat.
Proof.
  induction a as [|c r IH]; simpl.
  - rewrite Ascii.eqb_refl. reflexivity.
  - destruct (Ascii.eqb c sep); simpl; [rewrite IH; reflexivity|].
    destruct (Str.split sep (r ++ String sep b)) eqn:E1;
      [exfalso; eapply split_not_nil; eassumption|].
    destruct (Str.split sep r) eqn:E2;
      [exfalso; eapply split_not_nil; eassumption|].
    simpl in *. exact IH.
Qed.

Lemma split_length_free (sep : ascii) (s : string) :
  List.length (Str.split sep s) = 1%nat -> Str.free_of sep s = true.
Proof.
  induction s as [|c r IH]; simpl; [reflexivity|].
  destruct (Ascii.eqb c sep) eqn:Hc; simpl.
  - intros H. injection H as H.
    destruct (Str.split sep r) eqn:E1;
      [exfalso; eapply split_not_nil; eassumption | discriminate].
  - destruct (Str.split sep r) eqn:E1;
      [exfalso; eapply split_not_nil; eassumption|].
    simpl in *. exact IH.
Qed.

Lemma split_length_pos (sep : ascii) (s : string) :
  (1 <= List.length (Str.split sep s))%nat.
Proof.
  pose proof (split_not_nil sep s) as H.
  destruct (Str.split sep s); [congruence | simpl; lia].
Qed.

Lemma set_char_changes (i : nat) (c : ascii) (s : string) :
  (i < String.length s)%nat -> String.get i s <> Some c -> Str.set_char i c s <> s.
Proof.
  revert i; induction s as [|a r IH]; intros [|j]; simpl; try lia.
  - intros _ Hne Heq. injection Heq as ->. congruence.
  - intros Hlt Hne Heq. injection Heq as Heq.
    apply (IH j); [lia | assumption | assumption].
Qed.

(** ** Hexadecimal *)

Lemma hex_decode_pair (b : ascii) (r : string) :
  Hex.decode (String (Hex.digit (N_of_ascii b / 16))
                (String (Hex.digit (N_of_ascii b mod 16)) r))
  = String b (Hex.decode r).
Proof.
  destruct b as [[] [] [] [] [] [] [] []]; reflexivity.
Qed.

Lemma hex_decode_encode (bytes : string) : Hex.decode (Hex.encode bytes) = bytes.
Proof.
  induction bytes as [|b r IH]; [reflexivity|].
  cbn [Hex.encode]. cbv zeta. rewrite hex_decode_pair, IH. reflexivity.
Qed.

Lemma hex_digit_not (c : ascii) (b : ascii) :
  Hex.value c = None ->
  Ascii.eqb (Hex.digit (N_of_ascii b / 16)) c = false
  /\ Ascii.eqb (Hex.digit (N_of_ascii b mod 16)) c = false.
Proof.
  intros Hc.
  assert (Hv : forall d, Hex.value d <> None -> Ascii.eqb d c = false).
  { intros d Hd. destruct (Ascii.eqb_spec d c) as [->|]; congruence. }
  split; apply Hv; destruct b as [[] [] [] [] [] [] [] []]; discriminate.
Qed.

Lemma hex_encode_free_of (c : ascii) (bytes : string) :
  Hex.value c = None -> Str.free_of c (Hex.encode bytes) = true.
Proof.
  intros Hc. induction bytes as [|b r IH]; [reflexivity|].
  cbn [Hex.encode Str.free_of]. cbv zeta.
  destruct (hex_digit_not c b Hc) as [-> ->]. exact IH.
Qed.

Lemma hex_encode_length (bytes : string) :
  String.length (Hex.encode bytes) = (2 * String.length bytes)%nat.
Proof.
  induction bytes as [|b r IH]; [reflexivity|].
  cbn [Hex.encode String.length]. cbv zeta. cbn [String.length]. lia.
Qed.

Lemma read_entropy_length (E : Env) (from n : nat) :
  String.length (read_entropy E from n) = n.
Proof.
  revert from; induction n as [|k IH]; intros from; simpl; auto.
Qed.

(** ** The sample platform satisfies the laws *)

Lemma sample_decode_positive (p : positive) (rest : string) :
  Sample.decode_positive (Sample.encode_positive p rest) = Some (p, rest).
Proof.
  induction p as [q IH|q IH|]; simpl; try rewrite IH; reflexivity.
Qed.

Lemma sample_decode_Z (z : Z) (rest : string) :
  Sample.decode_Z (Sample.encode_Z z rest) = Some (z, rest).
Proof.
  destruct z; simpl; try rewrite sample_decode_positive; reflexivity.
Qed.

Lemma sample_pad_to_length (n : nat) (s : string) :
  String.length (Sample.pad_to n s) = n.
Proof.
  revert s; induction n as [|k IH]; intros s; [reflexivity|].
  destruct s; simpl; rewrite IH; reflexivity.
Qed.

Lemma sample_platform_laws : PlatformLaws Sample.sample_platform.
Proof.
  split;
    cbn [Sample.sample_platform Buffer_toString_base64url Buffer_from_base64url
         Buffer_from_utf8 Buffer_toString_utf8
         JSON_parse JSON_stringify_payload sha256].
  - reflexivity.
  - intros bytes. apply hex_encode_free_of. reflexivity.
  - apply hex_decode_encode.
  - intros [uid issued expires]. unfold Sample.parse, Sample.stringify.
    cbn [issuedAt payload_expiresAt userId].
    assert (Hnull : forall text, String.eqb (Sample.encode_Z issued text) "null" = false)
      by (intros text; destruct issued; reflexivity).
    assert (Hempty : forall text, String.eqb (Sample.encode_Z issued text) "{}" = false)
      by (intros text; destruct issued; reflexivity).
    rewrite Hnull, Hempty, !sample_decode_Z. reflexivity.
  - apply sample_pad_to_length.
Qed.

(** ** How computations affect the revocation set *)

Section RevokedRel.

Context (R : relation (gset string)) `{!PreOrder R}.

Lemma revoked_rel_ret {A : Type} (a : A) : revoked_rel R (mret a).
Proof. intros w. simpl. reflexivity. Qed.

Lemma revoked_rel_throw {A : Type} (e : JsError) : revoked_rel R (@throw A e).
Proof. intros w. simpl. reflexivity. Qed.

Lemma revoked_rel_lift {A : Type} (r : JsError + A) : revoked_rel R (lift r).
Proof. intros w. simpl. reflexivity. Qed.

Lemma revoked_rel_get_world : revoked_rel R get_world.
Proof. intros w. simpl. reflexivity. Qed.

Lemma revoked_rel_bind {A B : Type} (m : M A) (k : A -> M B) :
  revoked_rel R m -> (forall a, revoked_rel R (k a)) -> revoked_rel R (m ≫= k).
Proof.
  intros Hm Hk w. unfold mbind, M_bind.
  specialize (Hm w). destruct (m w) as [[e|a] w']; simpl in *; [exact Hm|].
  etransitivity; [exact Hm | apply Hk].
Qed.

Lemma revoked_rel_try_catch {A : Type} (m : M A) (h : JsError -> M A) :
  revoked_rel R m -> (forall e, revoked_rel R (h e)) -> revoked_rel R (try_catch m h).
Proof.
  intros Hm Hh w. unfold try_catch.
  specialize (Hm w). destruct (m w) as [[e|a] w']; simpl in *; [|exact Hm].
  etransitivity; [exact Hm | apply Hh].
Qed.

Lemma revoked_rel_Date_now (E : Env) : revoked_rel R (Date_now E).
Proof. intros w. simpl. reflexivity. Qed.

Lemma revoked_rel_randomBytes (E : Env) (n : nat) : revoked_rel R (randomBytes E n).
Proof. intros w. simpl. reflexivity. Qed.

Lemma revoked_rel_generateId : revoked_rel R InMemoryUserRepository.generateId.
Proof. intros w. simpl. reflexivity. Qed.

Lemma revoked_rel_Map_set_user (k : string) (v : User) :
  revoked_rel R (InMemoryUserRepository.Map_set_user k v).
Proof. intros w. simpl. reflexivity. Qed.

End RevokedRel.

Create HintDb revoked.

#[local] Hint Resolve revoked_rel_ret revoked_rel_throw revoked_rel_lift
  revoked_rel_get_world revoked_rel_Date_now revoked_rel_randomBytes
  revoked_rel_generateId revoked_rel_Map_set_user : revoked.

(** Splits a computation along its binds and its case distinctions. *)
Ltac revoked_step :=
  match goal with
  | |- PreOrder _ => exact _
  | |- revoked_rel _ (_ ≫= _) => apply revoked_rel_bind; [.. | intros ?]
  | |- revoked_rel _ (try_catch _ _) => apply revoked_rel_try_catch; [.. | intros ?]
  | |- revoked_rel _ (match ?x with _ => _ end) => destruct x
  | |- revoked_rel _ (if ?b then _ else _) => destruct b
  | |- revoked_rel _ _ => solve [eauto with revoked typeclass_instances]
  end.

Ltac revoked_auto := repeat revoked_step.

Section RevokedRelServices.

Context (R : relation (gset string)) `{!PreOrder R} (E : Env).

Lemma revoked_rel_generateToken (u : string) :
  revoked_rel R (JWTTokenService.generateToken E u).
Proof. unfold JWTTokenService.generateToken. revoked_auto. Qed.

Lemma revoked_rel_getTokenExpiration :
  revoked_rel R (JWTTokenService.getTokenExpiration E).
Proof. unfold JWTTokenService.getTokenExpiration. revoked_auto. Qed.

Lemma revoked_rel_validateToken (t : string) :
  revoked_rel R (JWTTokenService.validateToken E t).
Proof. unfold JWTTokenService.validateToken. revoked_auto. Qed.

Lemma revoked_rel_findById (i : string) :
  revoked_rel R (InMemoryUserRepository.findById i).
Proof. unfold InMemoryUserRepository.findById. revoked_auto. Qed.

Lemma revoked_rel_findByEmail (i : string) :
  revoked_rel R (InMemoryUserRepository.findByEmail i).
Proof. unfold InMemoryUserRepository.findByEmail. revoked_auto. Qed.

Lemma revoked_rel_findByUsername (i : string) :
  revoked_rel R (InMemoryUserRepository.findByUsername i).
Proof. unfold InMemoryUserRepository.findByUsername. revoked_auto. Qed.

Lemma revoked_rel_create (d : UserRegistrationData) (h : string) :
  revoked_rel R (InMemoryUserRepository.create E d h).
Proof. unfold InMemoryUserRepository.create. revoked_auto. Qed.

Lemma revoked_rel_updateLastLogin (i : string) :
  revoked_rel R (InMemoryUserRepository.updateLastLogin E i).
Proof. unfold InMemoryUserRepository.updateLastLogin. revoked_auto. Qed.

Lemma revoked_rel_setActive (i : string) (b : bool) :
  revoked_rel R (InMemoryUserRepository.setActive E i b).
Proof. unfold InMemoryUserRepository.setActive. revoked_auto. Qed.

Lemma revoked_rel_hashPassword (p : string) :
  revoked_rel R (BcryptPasswordService.hashPassword E p).
Proof.
  unfold BcryptPasswordService.hashPassword,
    BcryptPasswordService.validatePasswordInput.
  revoked_auto.
Qed.

Hint Resolve revoked_rel_generateToken revoked_rel_getTokenExpiration
  revoked_rel_validateToken revoked_rel_findById revoked_rel_findByEmail
  revoked_rel_findByUsername revoked_rel_create revoked_rel_updateLastLogin
  revoked_rel_setActive revoked_rel_hashPassword : revoked.

Lemma revoked_rel_register (d : UserRegistrationData) :
  revoked_rel R (DefaultAuthService.register E d).
Proof. unfold DefaultAuthService.register. revoked_auto. Qed.

Lemma revoked_rel_login (d : UserLoginData) :
  revoked_rel R (DefaultAuthService.login E d).
Proof. unfold DefaultAuthService.login. revoked_auto. Qed.

Lemma revoked_rel_auth_validateToken (t : string) :
  revoked_rel R (DefaultAuthService.validateToken E t).
Proof. unfold DefaultAuthService.validateToken. revoked_auto. Qed.

Lemma revoked_rel_refreshToken (t : string) :
  revoked_rel R (DefaultAuthService.refreshToken E t).
Proof. unfold DefaultAuthService.refreshToken. revoked_auto. Qed.

Lemma revoked_rel_authenticate (a : option string) :
  revoked_rel R (DefaultAuthMiddleware.authenticate E a).
Proof.
  unfold DefaultAuthMiddleware.authenticate,
    DefaultAuthMiddleware.authenticate_body.
  revoked_auto.
Qed.

End RevokedRelServices.

(** ** Revocation *)

Lemma revokeToken_adds (t : string) (w : World) :
  t ∈ revokedTokens (snd (JWTTokenService.revokeToken t w)).
Proof. simpl. set_solver. Qed.

Lemma revokeToken_grows (t : string) (w : World) :
  revokedTokens w ⊆ revokedTokens (snd (JWTTokenService.revokeToken t w)).
Proof. simpl. set_solver. Qed.

Lemma perform_grows (E : Env) (op : Operation) (w : World) :
  revokedTokens w ⊆ revokedTokens (perform E op w).
Proof.
  destruct op; cbn [perform];
    try apply revokeToken_grows;
    [ apply (revoked_rel_generateToken (⊆))
    | apply (revoked_rel_validateToken (⊆))
    | apply (revoked_rel_getTokenExpiration (⊆))
    | apply (revoked_rel_register (⊆))
    | apply (revoked_rel_login (⊆))
    | apply (revoked_rel_auth_validateToken (⊆))
    | apply (revoked_rel_refreshToken (⊆))
    | apply (revoked_rel_authenticate (⊆))
    | apply (revoked_rel_setActive (⊆)) ].
Qed.

Lemma perform_all_grows (E : Env) (ops : list Operation) (w : World) :
  revokedTokens w ⊆ revokedTokens (perform_all E ops w).
Proof.
  revert w; induction ops as [|op ops IH]; intros w; [reflexivity|].
  cbn [perform_all fold_left]. etransitivity; [apply (perform_grows E op)|].
  apply IH.
Qed.

Lemma validateToken_revoked (E : Env) (t : string) (w : World) :
  t ∈ revokedTokens w ->
  JWTTokenService.validateToken E t w = (inl RevokedError, w).
Proof.
  intros Hin. unfold JWTTokenService.validateToken, mbind, M_bind, get_world.
  destruct (decide (t ∈ revokedTokens w)); [reflexivity | contradiction].
Qed.

(** C1. Once [revokeToken T] has run, whatever operations follow, [T] is still
    in the revocation set and [validateToken T] throws the revocation error,
    for every string [T] (whatever its signature and payload) and every value
    of the clock; the authentication service's [validateToken] fails the same
    way. *)
Theorem revoked_token_stays_revoked
  (E : Env) (T : string) (ops : list Operation) (w : World) :
  let w1 := snd (JWTTokenService.revokeToken T w) in
  let w2 := perform_all E ops w1 in
  (T ∈ revokedTokens w2)
  /\ JWTTokenService.validateToken E T w2 = (inl RevokedError, w2)
  /\ DefaultAuthService.validateToken E T w2 = (inl RevokedError, w2).
Proof.
  intros w1 w2.
  assert (Hin : T ∈ revokedTokens w2).
  { apply (perform_all_grows E ops w1). apply revokeToken_adds. }
  split; [exact Hin|]. split.
  - apply validateToken_revoked, Hin.
  - unfold DefaultAuthService.validateToken, mbind at 1, M_bind at 1.
    rewrite (validateToken_revoked E T w2 Hin). reflexivity.
Qed.

(** ** Tokens: shape, decoding, validation *)

Section TokenFacts.

Context (E : Env).

Lemma decodeToken_segments (t h p s : string) :
  Str.split Str.dot t = [h; p; s] ->
  JWTTokenService.decodeToken E t
  = if negb (String.eqb s (JWTTokenService.createSignature E (h ++ "." ++ p)))
    then inl InvalidSignatureError
    else match JSON_parse (platform E) (JWTTokenService.base64UrlDecode E p) with
         | Some payload => inr payload
         | None => inl MalformedTokenError_payload
         end.
Proof. intros Hs. unfold JWTTokenService.decodeToken. rewrite Hs. reflexivity. Qed.

Lemma decodeToken_format (t : string) :
  List.length (Str.split Str.dot t) <> 3%nat ->
  JWTTokenService.decodeToken E t = inl MalformedTokenError_format.
Proof.
  intros Hlen. unfold JWTTokenService.decodeToken.
  destruct (Str.split Str.dot t) as [|a [|b [|c [|d l]]]]; simpl in Hlen;
    try reflexivity.
  contradiction.
Qed.

(** [validateToken] on a token that is not revoked: the outcome of
    [decodeToken], then one reading of the clock, then what the payload
    gives at that time. *)
Lemma validateToken_not_revoked (t : string) (w : World) :
  t ∉ revokedTokens w ->
  JWTTokenService.validateToken E t w
  = match JWTTokenService.decodeToken E t with
    | inl e => (inl e, w)
    | inr payload =>
        (payload_outcome (platform E) payload (clock E (clock_reads w)),
         set_clock_reads (S (clock_reads w)) w)
    end.
Proof.
  intros Hnot.
  unfold JWTTokenService.validateToken, mbind, M_bind, get_world, lift, Date_now,
    payload_outcome.
  destruct (decide (t ∈ revokedTokens w)); [contradiction|].
  destruct (JWTTokenService.decodeToken E t) as [e|payload]; [reflexivity|].
  destruct (Get payload "expiresAt") as [e|x]; [reflexivity|].
  destruct (GreaterThan (platform E) (clock E (clock_reads w)) x) as [e|[|]];
    reflexivity.
Qed.

(** A payload as the service writes it: the comparison is the one of the
    integers, and the value returned is the user id. *)
Lemma payload_outcome_payload_json (p : TokenPayload) (now : Z) :
  payload_outcome (platform E) (payload_json p) now
  = if now >? payload_expiresAt p then inl ExpiredError
    else inr (subject (userId p)).
Proof.
  unfold payload_outcome, payload_json, GreaterThan, ToNumber, Qle_bool.
  cbn [Get members_get String.eqb Ascii.eqb Bool.eqb Qnum Qden inject_Z].
  rewrite !Z.mul_1_r, Z.gtb_ltb, Z.ltb_antisym.
  destruct (now <=? payload_expiresAt p); reflexivity.
Qed.

Lemma validateToken_payload_json (t : string) (p : TokenPayload) (w : World) :
  t ∉ revokedTokens w ->
  JWTTokenService.decodeToken E t = inr (payload_json p) ->
  JWTTokenService.validateToken E t w
  = (if clock E (clock_reads w) >? payload_expiresAt p then inl ExpiredError
     else inr (subject (userId p)),
     set_clock_reads (S (clock_reads w)) w).
Proof.
  intros Hnot Hdec.
  rewrite (validateToken_not_revoked t w Hnot), Hdec, payload_outcome_payload_json.
  reflexivity.
Qed.

Lemma generateToken_eq (uid : string) (w : World) :
  JWTTokenService.generateToken E uid w
  = (inr (JWTTokenService.createToken E
            (mkTokenPayload uid (clock E (clock_reads w))
                            (clock E (clock_reads w) + 86400000))),
     set_clock_reads (S (clock_reads w)) w).
Proof. reflexivity. Qed.

Lemma getTokenExpiration_eq (w : World) :
  JWTTokenService.getTokenExpiration E w
  = (inr (clock E (clock_reads w) + 86400000),
     set_clock_reads (S (clock_reads w)) w).
Proof. reflexivity. Qed.

Context (laws : PlatformLaws (platform E)).

Lemma createSignature_free_of_dot (data : string) :
  Str.free_of Str.dot (JWTTokenService.createSignature E data) = true.
Proof. apply (base64url_alphabet _ laws). Qed.

Lemma createToken_split (payload : TokenPayload) :
  let h := JWTTokenService.base64UrlEncode E JWTTokenService.header_json in
  let p := JWTTokenService.base64UrlEncode E
             (JSON_stringify_payload (platform E) payload) in
  Str.split Str.dot (JWTTokenService.createToken E payload)
  = [h; p; JWTTokenService.createSignature E (h ++ "." ++ p)].
Proof.
  intros h p. unfold JWTTokenService.createToken. fold h p.
  apply split_three.
  - apply (base64url_alphabet _ laws).
  - apply (base64url_alphabet _ laws).
  - apply createSignature_free_of_dot.
Qed.

Lemma decodeToken_createToken (payload : TokenPayload) :
  JWTTokenService.decodeToken E (JWTTokenService.createToken E payload)
  = inr (payload_json payload).
Proof.
  rewrite (decodeToken_segments _ _ _ _ (createToken_split payload)).
  rewrite String.eqb_refl. cbn [negb].
  unfold JWTTokenService.base64UrlDecode, JWTTokenService.base64UrlEncode.
  rewrite (base64url_decode_encode _ laws), (utf8_decode_encode _ laws),
    (JSON_parse_stringify _ laws).
  reflexivity.
Qed.

End TokenFacts.

(** ** Expiry *)

(** C2, as the code has it. A token issued for [uid] when the clock reads
    [T0] embeds [issuedAt = T0] and [expiresAt = T0 + 86400000] (24 hours in
    milliseconds). While it is not revoked, validating it when the clock
    reads [t] returns [uid] if [t <= T0 + 86400000], the instant of expiry
    included, and throws the expiry error if [t > T0 + 86400000]. *)
Theorem issued_token_valid_through_expiry
  (E : Env) (uid tok : string) (w w1 w2 : World) :
  PlatformLaws (platform E) ->
  JWTTokenService.generateToken E uid w = (inr tok, w1) ->
  tok ∉ revokedTokens w2 ->
  let T0 := clock E (clock_reads w) in
  let t := clock E (clock_reads w2) in
  JWTTokenService.decodeToken E tok
  = inr (payload_json (mkTokenPayload uid T0 (T0 + 86400000)))
  /\ (t <= T0 + 86400000 ->
      fst (JWTTokenService.validateToken E tok w2) = inr (subject uid))
  /\ (T0 + 86400000 < t ->
      fst (JWTTokenService.validateToken E tok w2) = inl ExpiredError).
Proof.
  intros laws Hgen Hnot. cbv zeta.
  rewrite generateToken_eq in Hgen. injection Hgen as <- <-.
  pose proof (decodeToken_createToken E laws
                (mkTokenPayload uid (clock E (clock_reads w))
                                (clock E (clock_reads w) + 86400000))) as Hdec.
  split; [exact Hdec|].
  rewrite (validateToken_payload_json E _ _ w2 Hnot Hdec).
  cbn [fst payload_expiresAt userId].
  split; intros Ht.
  - destruct (Z.gtb_spec (clock E (clock_reads w2))
                         (clock E (clock_reads w) + 86400000));
      [lia | reflexivity].
  - destruct (Z.gtb_spec (clock E (clock_reads w2))
                         (clock E (clock_reads w) + 86400000));
      [reflexivity | lia].
Qed.

Lemma issued_token_valid_through_expiry_witness :
  let E := Run.env [1000; 5000] in
  let r := JWTTokenService.generateToken E "1" Run.initial in
  match fst r with
  | inr tok =>
      JWTTokenService.decodeToken E tok
      = inr (payload_json (mkTokenPayload "1" 1000 86401000))
      /\ fst (JWTTokenService.validateToken E tok (snd r)) = inr (subject "1")
  | inl _ => False
  end.
Proof.
  cbv zeta.
  destruct (issued_token_valid_through_expiry
              (Run.env [1000; 5000]) "1" _ Run.initial _
              (snd (JWTTokenService.generateToken (Run.env [1000; 5000]) "1"
                      Run.initial))
              sample_platform_laws eq_refl)
    as (Hdec & Hok & _).
  - cbn. apply not_elem_of_empty.
  - split; [exact Hdec|]. apply Hok. vm_compute. discriminate.
Defined.

(** C2, at the instant of expiry. A token issued when the clock reads
    [T0 = 0] and validated, not revoked, when the clock reads [T0 + 86400000]
    is accepted: the check time is not below [T0 + 86400000], and the result
    is the subject id, not the expiry error. *)
Lemma expiry_instant_still_valid :
  let E := Run.env [0; 86400000] in
  let T0 := clock E 0 in
  let r := JWTTokenService.generateToken E "1" Run.initial in
  exists tok,
    fst r = inr tok
    /\ (tok ∉ revokedTokens (snd r))
    /\ clock E (clock_reads (snd r)) >= T0 + 86400000
    /\ fst (JWTTokenService.validateToken E tok (snd r)) = inr (subject "1")
    /\ fst (JWTTokenService.validateToken E tok (snd r)) <> inl ExpiredError.
Proof.
  cbv zeta.
  exists (JWTTokenService.createToken (Run.env [0; 86400000])
            (mkTokenPayload "1" 0 86400000)).
  split; [reflexivity|].
  split; [cbn; apply not_elem_of_empty|].
  split; [vm_compute; discriminate|].
  assert (H : fst (JWTTokenService.validateToken (Run.env [0; 86400000])
                     (JWTTokenService.createToken (Run.env [0; 86400000])
                        (mkTokenPayload "1" 0 86400000))
                     (snd (JWTTokenService.generateToken (Run.env [0; 86400000])
                             "1" Run.initial)))
              = inr (subject "1")).
  { rewrite (validateToken_payload_json _ _ (mkTokenPayload "1" 0 86400000))
      by (try (cbn; apply not_elem_of_empty);
          apply (decodeToken_createToken (Run.env [0; 86400000])
                   sample_platform_laws)).
    reflexivity. }
  split; [exact H|]. rewrite H. discriminate.
Qed.

(** ** Order of the checks, and tampering *)

Lemma split_length_not_free (sep : ascii) (s : string) :
  Str.free_of sep s = false -> (2 <= List.length (Str.split sep s))%nat.
Proof.
  intros Hf. pose proof (split_length_pos sep s) as Hpos.
  destruct (Nat.eq_dec (List.length (Str.split sep s)) 1%nat) as [H1|]; [|lia].
  apply split_length_free in H1. congruence.
Qed.

Lemma split_length_three_pieces (sep : ascii) (a b c : string) :
  List.length (Str.split sep (a ++ String sep (b ++ String sep c)))
  = (List.length (Str.split sep a) + List.length (Str.split sep b)
     + List.length (Str.split sep c))%nat.
Proof. rewrite !split_length_app_sep. lia. Qed.

(** A token of three pieces, the first free of dots, whose third piece is not
    the signature of the first two, is rejected by [decodeToken] for its
    signature, or for its format when a piece contains a dot. *)
Lemma decodeToken_bad_signature (E : Env) (h p s : string) :
  Str.free_of Str.dot h = true ->
  s <> JWTTokenService.createSignature E (h ++ "." ++ p) ->
  JWTTokenService.decodeToken E (h ++ "." ++ p ++ "." ++ s) = inl InvalidSignatureError
  \/ JWTTokenService.decodeToken E (h ++ "." ++ p ++ "." ++ s)
     = inl MalformedTokenError_format.
Proof.
  intros Hh Hs.
  change (h ++ "." ++ p ++ "." ++ s) with (h ++ String Str.dot (p ++ String Str.dot s)).
  destruct (Str.free_of Str.dot p) eqn:Hp; [destruct (Str.free_of Str.dot s) eqn:Hs'|].
  - left. rewrite (decodeToken_segments E _ h p s) by (apply split_three; assumption).
    apply String.eqb_neq in Hs. rewrite Hs. reflexivity.
  - right. apply decodeToken_format. rewrite split_length_three_pieces.
    pose proof (split_length_not_free _ _ Hs'). pose proof (split_length_pos Str.dot h).
    pose proof (split_length_pos Str.dot p). lia.
  - right. apply decodeToken_format. rewrite split_length_three_pieces.
    pose proof (split_length_not_free _ _ Hp). pose proof (split_length_pos Str.dot h).
    pose proof (split_length_pos Str.dot s). lia.
Qed.

(** C4. For a token [t] that is not revoked, [validateToken] throws the format
    error when [t] does not split into three pieces at the dots; else the
    signature error when the third piece is not the signature recomputed over
    the first two; else the payload error when the payload does not parse;
    else it reads the clock and the outcome is that of the parsed value: for
    a payload as the service writes it, the expiry error when the clock is
    past [expiresAt] and the payload's [userId] otherwise. Whatever else a
    correctly signed payload parses to is covered as well: [null] makes the
    read of [expiresAt] throw a [TypeError]; in every other case the expiry
    error is thrown exactly when the comparison of the clock with what
    [expiresAt] holds says so, and [userId] is returned as it is otherwise,
    so that a payload without [expiresAt] never expires. So when [t] differs
    in one character of the signature from a correctly signed token, or in
    one character of the payload (and the signatures of the two payloads do
    not collide), it is rejected with the signature error or the format
    error. *)
Theorem validation_checks_in_order (E : Env) (t : string) (w : World) :
  t ∉ revokedTokens w ->
  let now := clock E (clock_reads w) in
  (List.length (Str.split Str.dot t) <> 3%nat ->
   JWTTokenService.validateToken E t w = (inl MalformedTokenError_format, w))
  /\ (forall h p s,
        Str.split Str.dot t = [h; p; s] ->
        let expected := JWTTokenService.createSignature E (h ++ "." ++ p) in
        let parsed :=
          JSON_parse (platform E) (JWTTokenService.base64UrlDecode E p) in
        (s <> expected ->
         JWTTokenService.validateToken E t w = (inl InvalidSignatureError, w))
        /\ (s = expected -> parsed = None ->
            JWTTokenService.validateToken E t w = (inl MalformedTokenError_payload, w))
        /\ (forall payload,
              s = expected -> parsed = Some payload ->
              fst (JWTTokenService.validateToken E t w)
              = payload_outcome (platform E) payload now
              /\ (payload = Json_null ->
                  exists e,
                    fst (JWTTokenService.validateToken E t w) = inl e
                    /\ name e = "TypeError")
              /\ (forall held,
                    Get payload "expiresAt" = inr held ->
                    (GreaterThan (platform E) now held = inr true ->
                     fst (JWTTokenService.validateToken E t w) = inl ExpiredError)
                    /\ (GreaterThan (platform E) now held = inr false ->
                        fst (JWTTokenService.validateToken E t w)
                        = Get payload "userId")
                    /\ (forall e,
                          GreaterThan (platform E) now held = inl e ->
                          fst (JWTTokenService.validateToken E t w) = inl e)
                    /\ (held = None ->
                        fst (JWTTokenService.validateToken E t w)
                        = Get payload "userId"))
              /\ (forall written,
                    payload = payload_json written ->
                    (now > payload_expiresAt written ->
                     fst (JWTTokenService.validateToken E t w) = inl ExpiredError)
                    /\ (now <= payload_expiresAt written ->
                        fst (JWTTokenService.validateToken E t w)
                        = inr (subject (userId written))))))
  /\ (forall h p s i c,
        Str.free_of Str.dot h = true ->
        s = JWTTokenService.createSignature E (h ++ "." ++ p) ->
        (t = h ++ "." ++ p ++ "." ++ Str.set_char i c s
         /\ (i < String.length s)%nat /\ String.get i s <> Some c)
        \/ (t = h ++ "." ++ Str.set_char i c p ++ "." ++ s
            /\ (i < String.length p)%nat /\ String.get i p <> Some c
            /\ JWTTokenService.createSignature E (h ++ "." ++ Str.set_char i c p)
               <> JWTTokenService.createSignature E (h ++ "." ++ p)) ->
        fst (JWTTokenService.validateToken E t w) = inl InvalidSignatureError
        \/ fst (JWTTokenService.validateToken E t w) = inl MalformedTokenError_format).
Proof.
  intros Hnot now. rewrite (validateToken_not_revoked E t w Hnot).
  split; [|split].
  - intros Hlen. rewrite (decodeToken_format E t Hlen). reflexivity.
  - intros h p s Hsplit expected parsed.
    rewrite (decodeToken_segments E t h p s Hsplit). fold expected parsed.
    split; [|split].
    + intros Hs. apply String.eqb_neq in Hs. rewrite Hs. reflexivity.
    + intros -> ->. rewrite String.eqb_refl. reflexivity.
    + intros payload -> ->. rewrite String.eqb_refl. cbn [negb fst]. fold now.
      split; [reflexivity|]. split; [|split].
      * intros ->. eexists. split; reflexivity.
      * intros held Hheld. unfold payload_outcome. rewrite Hheld.
        split; [intros ->; reflexivity|]. split; [intros ->; reflexivity|].
        split; [intros e ->; reflexivity|]. intros ->. reflexivity.
      * intros written ->. rewrite (payload_outcome_payload_json E written now).
        split; intros Hnow.
        -- destruct (Z.gtb_spec now (payload_expiresAt written)); [reflexivity | lia].
        -- destruct (Z.gtb_spec now (payload_expiresAt written)); [lia | reflexivity].
  - intros h p s i c Hh Hs [(-> & Hi & Hc) | (-> & Hi & Hc & Hcol)].
    + destruct (decodeToken_bad_signature E h p (Str.set_char i c s) Hh) as [-> | ->];
        [| left; reflexivity | right; reflexivity].
      rewrite <- Hs. apply set_char_changes; assumption.
    + destruct (decodeToken_bad_signature E h (Str.set_char i c p) s Hh) as [-> | ->];
        [| left; reflexivity | right; reflexivity].
      rewrite Hs. intros Heq. apply Hcol. symmetry. exact Heq.
Qed.

Lemma validation_checks_in_order_witness :
  JWTTokenService.validateToken Run.E1 "header.payload" Run.registered
  = (inl MalformedTokenError_format, Run.registered)
  /\ fst (JWTTokenService.validateToken Run.E1 (Run.tampered 0) Run.registered)
     = inl InvalidSignatureError
  /\ fst (JWTTokenService.validateToken Run.E1 (Run.tampered_payload 3)
            Run.registered)
     = inl InvalidSignatureError
  /\ fst (JWTTokenService.validateToken Run.E1 Run.tok1 Run.registered)
     = inr (subject "1")
  /\ (exists e,
        fst (JWTTokenService.validateToken Run.E1 Run.signed_null Run.registered)
        = inl e
        /\ name e = "TypeError")
  /\ fst (JWTTokenService.validateToken Run.E1 Run.signed_empty_object Run.registered)
     = inr None.
Proof.
  assert (Hnot : forall t, t ∉ revokedTokens Run.registered)
    by (intros t; cbn; apply not_elem_of_empty).
  split; [|split; [|split; [|split; [|split]]]].
  - apply (proj1 (validation_checks_in_order Run.E1 "header.payload"
                    Run.registered (Hnot _))).
    vm_compute. discriminate.
  - destruct (proj2 (proj2 (validation_checks_in_order Run.E1 (Run.tampered 0)
                              Run.registered (Hnot _)))
                Run.tok1_header Run.tok1_payload Run.tok1_signature 0%nat "z"%char)
      as [H | H]; [reflexivity | vm_compute; reflexivity | | exact H |].
    + left. split; [reflexivity|]. split; [vm_compute; lia | vm_compute; discriminate].
    + exfalso. vm_compute in H. discriminate.
  - destruct (proj2 (proj2 (validation_checks_in_order Run.E1
                              (Run.tampered_payload 3) Run.registered (Hnot _)))
                Run.tok1_header Run.tok1_payload Run.tok1_signature 3%nat "z"%char)
      as [H | H]; [reflexivity | vm_compute; reflexivity | | exact H |].
    + right. split; [reflexivity|]. split; [vm_compute; lia|].
      split; vm_compute; discriminate.
    + exfalso. vm_compute in H. discriminate.
  - destruct (proj1 (proj2 (validation_checks_in_order Run.E1 Run.tok1
                              Run.registered (Hnot _)))
                Run.tok1_header Run.tok1_payload Run.tok1_signature eq_refl)
      as (_ & _ & H).
    destruct (H (payload_json (mkTokenPayload "1" 6 86400006)) eq_refl eq_refl)
      as (_ & _ & _ & Hwritten).
    apply (Hwritten (mkTokenPayload "1" 6 86400006) eq_refl). vm_compute. discriminate.
  - destruct (proj1 (proj2 (validation_checks_in_order Run.E1 Run.signed_null
                              Run.registered (Hnot _)))
                Run.tok1_header (JWTTokenService.base64UrlEncode Run.E1 "null")
                (JWTTokenService.createSignature Run.E1
                   (Run.tok1_header ++ "."
                      ++ JWTTokenService.base64UrlEncode Run.E1 "null"))
                eq_refl)
      as (_ & _ & H).
    destruct (H Json_null eq_refl eq_refl) as (_ & Hnull & _).
    apply Hnull. reflexivity.
  - destruct (proj1 (proj2 (validation_checks_in_order Run.E1 Run.signed_empty_object
                              Run.registered (Hnot _)))
                Run.tok1_header (JWTTokenService.base64UrlEncode Run.E1 "{}")
                (JWTTokenService.createSignature Run.E1
                   (Run.tok1_header ++ "."
                      ++ JWTTokenService.base64UrlEncode Run.E1 "{}"))
                eq_refl)
      as (_ & _ & H).
    destruct (H (Json_object []) eq_refl eq_refl) as (_ & _ & Hheld & _).
    destruct (Hheld None eq_refl) as (_ & _ & _ & Hnone).
    apply Hnone. reflexivity.
Defined.

(** ** Running a bind *)

Lemma bind_run {A B : Type} (m : M A) (k : A -> M B) (w : World) :
  (m ≫= k) w
  = match m w with
    | (inr a, w') => k a w'
    | (inl e, w') => (inl e, w')
    end.
Proof. reflexivity. Qed.

Lemma bind_returned {A B : Type} (m : M A) (k : A -> M B) (w w' : World) (b : B) :
  (m ≫= k) w = (inr b, w') ->
  exists a w1, m w = (inr a, w1) /\ k a w1 = (inr b, w').
Proof.
  rewrite bind_run. destruct (m w) as [[e|a] w1]; [discriminate|].
  intros H. exists a, w1. split; [reflexivity | exact H].
Qed.

Lemma findById_eq (i : string) (w : World) :
  InMemoryUserRepository.findById i w
  = (inr (InMemoryUserRepository.Map_get i (users w)), w).
Proof. reflexivity. Qed.

Lemma findByEmail_eq (e : string) (w : World) :
  InMemoryUserRepository.findByEmail e w
  = (inr (InMemoryUserRepository.Map_find (fun u => String.eqb (email u) e) (users w)),
     w).
Proof. reflexivity. Qed.

Lemma findById_any_eq (v : option Json) (w : World) :
  InMemoryUserRepository.findById_any v w
  = (inr (InMemoryUserRepository.Map_get_any v (users w)), w).
Proof. reflexivity. Qed.

(** Only a string finds a user. *)
Lemma Map_get_any_Some (v : option Json) (m : list (string * User)) (u : User) :
  InMemoryUserRepository.Map_get_any v m = Some u ->
  exists uid, v = subject uid /\ InMemoryUserRepository.Map_get uid m = Some u.
Proof.
  destruct v as [[| | |uid| |]|]; try discriminate.
  intros H. exists uid. split; [reflexivity | exact H].
Qed.

Lemma Map_get_any_subject (uid : string) (m : list (string * User)) :
  InMemoryUserRepository.Map_get_any (subject uid) m
  = InMemoryUserRepository.Map_get uid m.
Proof. reflexivity. Qed.

Lemma UserNotFoundError_of_subject (P : Platform) (uid : string) :
  UserNotFoundError_of P (subject uid) = UserNotFoundError_new uid.
Proof. reflexivity. Qed.

(** [validateToken] only advances the count of clock reads. *)
Lemma validateToken_returned (E : Env) (t : string) (v : option Json) (w w' : World) :
  JWTTokenService.validateToken E t w = (inr v, w') ->
  (t ∉ revokedTokens w)
  /\ w' = set_clock_reads (S (clock_reads w)) w
  /\ exists payload,
       JWTTokenService.decodeToken E t = inr payload
       /\ payload_outcome (platform E) payload (clock E (clock_reads w)) = inr v.
Proof.
  intros H. destruct (decide (t ∈ revokedTokens w)) as [Hin|Hnot].
  - rewrite (validateToken_revoked E t w Hin) in H. discriminate.
  - split; [exact Hnot|]. rewrite (validateToken_not_revoked E t w Hnot) in H.
    destruct (JWTTokenService.decodeToken E t) as [e|payload]; [discriminate|].
    injection H as H <-. split; [reflexivity|].
    exists payload. split; [reflexivity | exact H].
Qed.

(** ** Login failures *)

(** C5. A login whose email matches no user and a login whose email matches a
    user but whose password does not verify end in the same way: both throw
    the error of class [InvalidCredentialsError] with the message
    [Invalid email or password], and neither changes the state. *)
Theorem login_failures_look_alike
  (E : Env) (w : World) (unknown wrong : UserLoginData) (u : User) :
  fst (InMemoryUserRepository.findByEmail (login_email unknown) w) = inr None ->
  fst (InMemoryUserRepository.findByEmail (login_email wrong) w) = inr (Some u) ->
  BcryptPasswordService.verifyPassword E (login_password wrong) (hashedPassword u)
  = false ->
  DefaultAuthService.login E unknown w
  = (inl (mkError "InvalidCredentialsError" "Invalid email or password"), w)
  /\ DefaultAuthService.login E wrong w = DefaultAuthService.login E unknown w.
Proof.
  rewrite !findByEmail_eq. cbn [fst]. intros Hnone Hsome Hverify.
  injection Hnone as Hnone. injection Hsome as Hsome.
  assert (H1 : DefaultAuthService.login E unknown w
               = (inl InvalidCredentialsError_new, w)).
  { unfold DefaultAuthService.login. rewrite bind_run, findByEmail_eq, Hnone.
    reflexivity. }
  split; [exact H1|]. rewrite H1.
  unfold DefaultAuthService.login. rewrite bind_run, findByEmail_eq, Hsome, Hverify.
  reflexivity.
Qed.

Lemma login_failures_look_alike_witness :
  DefaultAuthService.login Run.E1
    (mkUserLoginData "nobody@example.com" "Test.Passw0rd!") Run.registered
  = (inl (mkError "InvalidCredentialsError" "Invalid email or password"),
     Run.registered)
  /\ DefaultAuthService.login Run.E1
       (mkUserLoginData "test@example.com" "wrong") Run.registered
     = DefaultAuthService.login Run.E1
         (mkUserLoginData "nobody@example.com" "Test.Passw0rd!") Run.registered.
Proof.
  eapply (login_failures_look_alike Run.E1 Run.registered).
  - vm_compute. reflexivity.
  - vm_compute. reflexivity.
  - vm_compute. reflexivity.
Defined.

(** ** Token validation at the service boundary *)

Lemma auth_validateToken_after (E : Env) (t : string) (v : option Json) (w w1 : World) :
  JWTTokenService.validateToken E t w = (inr v, w1) ->
  DefaultAuthService.validateToken E t w
  = match InMemoryUserRepository.Map_get_any v (users w) with
    | None => (inl (UserNotFoundError_of (platform E) v), w1)
    | Some u =>
        if isActive u then (inr (DefaultAuthService.toUserResponse u), w1)
        else (inl AccountDisabledError, w1)
    end.
Proof.
  intros Hv. unfold DefaultAuthService.validateToken.
  rewrite bind_run, Hv, bind_run, findById_any_eq.
  destruct (validateToken_returned E t v w w1 Hv) as (_ & -> & _).
  cbn [users set_clock_reads].
  destruct (InMemoryUserRepository.Map_get_any v (users w)) as [u|]; [|reflexivity].
  destruct (isActive u); reflexivity.
Qed.

Lemma authenticate_after (E : Env) (a : option string) (t : string) (v : option Json)
  (w w1 : World) :
  DefaultAuthMiddleware.extractToken a = Some t ->
  String.length t <> 0%nat ->
  JWTTokenService.validateToken E t w = (inr v, w1) ->
  DefaultAuthMiddleware.authenticate E a w
  = match InMemoryUserRepository.Map_get_any v (users w) with
    | None => (inr (Respond 401 "Invalid authentication token"), w1)
    | Some u =>
        if isActive u then (inr (Next (DefaultAuthService.toUserResponse u)), w1)
        else (inr (Respond 403 "User account is deactivated"), w1)
    end.
Proof.
  intros Hex Hlen Hv.
  unfold DefaultAuthMiddleware.authenticate, try_catch,
    DefaultAuthMiddleware.authenticate_body.
  rewrite Hex. apply Nat.eqb_neq in Hlen. rewrite Hlen.
  rewrite bind_run, Hv, bind_run, findById_any_eq.
  destruct (validateToken_returned E t v w w1 Hv) as (_ & -> & _).
  cbn [users set_clock_reads].
  destruct (InMemoryUserRepository.Map_get_any v (users w)) as [u|]; [|reflexivity].
  destruct (isActive u); reflexivity.
Qed.

Lemma validated_token_not_empty (E : Env) (t : string) (v : option Json)
  (w w1 : World) :
  JWTTokenService.validateToken E t w = (inr v, w1) -> String.length t <> 0%nat.
Proof.
  intros Hv. destruct (validateToken_returned E t v w w1 Hv)
    as (_ & _ & payload & Hdec & _).
  destruct t; [discriminate Hdec | discriminate].
Qed.

Lemma authenticate_next (E : Env) (a : option string) (resp : UserResponse)
  (w w' : World) :
  DefaultAuthMiddleware.authenticate E a w = (inr (Next resp), w') ->
  exists t uid,
    DefaultAuthMiddleware.extractToken a = Some t
    /\ String.length t <> 0%nat
    /\ JWTTokenService.validateToken E t w = (inr (subject uid), w').
Proof.
  unfold DefaultAuthMiddleware.authenticate, try_catch,
    DefaultAuthMiddleware.authenticate_body.
  destruct (DefaultAuthMiddleware.extractToken a) as [t|]; [|discriminate].
  destruct (Nat.eqb_spec (String.length t) 0) as [|Hlen]; [discriminate|].
  rewrite bind_run.
  destruct (JWTTokenService.validateToken E t w) as [[e|v] w1] eqn:Hv;
    [discriminate|].
  rewrite bind_run, findById_any_eq.
  destruct (InMemoryUserRepository.Map_get_any v (users w1)) as [u|] eqn:Hget;
    [|discriminate].
  destruct (Map_get_any_Some v _ u Hget) as (uid & -> & _).
  destruct (isActive u); [|discriminate].
  cbn. intros H. injection H as _ <-. exists t, uid. auto.
Qed.

(** C7. [validateToken] of the authentication service and the middleware's
    [authenticate] let a token through only if the token service accepts it
    and its subject id is, in the store read at that moment, the key of a user
    whose [isActive] is true, and then they answer with that user. When the
    token service accepts the token but the store has no such user, or the
    user is not active, both refuse: the service throws the not-found or the
    deactivated error, the middleware answers 401 or 403. This holds of
    whatever value the token service returns as subject: a value that is not
    a string is the key of no user. *)
Theorem validation_needs_an_active_user (E : Env) (w : World) :
  (forall t resp w',
     DefaultAuthService.validateToken E t w = (inr resp, w') ->
     exists uid u,
       JWTTokenService.validateToken E t w = (inr (subject uid), w')
       /\ InMemoryUserRepository.Map_get uid (users w) = Some u
       /\ isActive u = true
       /\ resp = DefaultAuthService.toUserResponse u)
  /\ (forall a resp w',
        DefaultAuthMiddleware.authenticate E a w = (inr (Next resp), w') ->
        exists t uid u,
          DefaultAuthMiddleware.extractToken a = Some t
          /\ JWTTokenService.validateToken E t w = (inr (subject uid), w')
          /\ InMemoryUserRepository.Map_get uid (users w) = Some u
          /\ isActive u = true
          /\ resp = DefaultAuthService.toUserResponse u)
  /\ (forall t uid w1,
        JWTTokenService.validateToken E t w = (inr (subject uid), w1) ->
        (InMemoryUserRepository.Map_get uid (users w) = None ->
         DefaultAuthService.validateToken E t w = (inl (UserNotFoundError_new uid), w1)
         /\ forall a,
             DefaultAuthMiddleware.extractToken a = Some t ->
             DefaultAuthMiddleware.authenticate E a w
             = (inr (Respond 401 "Invalid authentication token"), w1))
        /\ (forall u,
              InMemoryUserRepository.Map_get uid (users w) = Some u ->
              isActive u = false ->
              DefaultAuthService.validateToken E t w = (inl AccountDisabledError, w1)
              /\ forall a,
                  DefaultAuthMiddleware.extractToken a = Some t ->
                  DefaultAuthMiddleware.authenticate E a w
                  = (inr (Respond 403 "User account is deactivated"), w1)))
  /\ (forall t v w1,
        JWTTokenService.validateToken E t w = (inr v, w1) ->
        (forall uid, v <> subject uid) ->
        DefaultAuthService.validateToken E t w
        = (inl (UserNotFoundError_of (platform E) v), w1)
        /\ forall a,
            DefaultAuthMiddleware.extractToken a = Some t ->
            DefaultAuthMiddleware.authenticate E a w
            = (inr (Respond 401 "Invalid authentication token"), w1)).
Proof.
  split; [|split; [|split]].
  - intros t resp w' H.
    unfold DefaultAuthService.validateToken in H.
    apply bind_returned in H as (v & w1 & Hv & H).
    pose proof (auth_validateToken_after E t v w w1 Hv) as Heq.
    unfold DefaultAuthService.validateToken in Heq.
    rewrite bind_run, Hv in Heq. rewrite Heq in H.
    destruct (InMemoryUserRepository.Map_get_any v (users w)) as [u|] eqn:Hget;
      [|destruct (ToString (platform E) v); discriminate].
    destruct (Map_get_any_Some v _ u Hget) as (uid & -> & Hget').
    destruct (isActive u) eqn:Hact; [|discriminate].
    injection H as <- <-. exists uid, u. auto.
  - intros a resp w' H.
    destruct (authenticate_next E a resp w w' H) as (t & uid & Hex & Hlen & Hv).
    rewrite (authenticate_after E a t _ w w' Hex Hlen Hv) in H.
    cbn [InMemoryUserRepository.Map_get_any subject] in H.
    destruct (InMemoryUserRepository.Map_get uid (users w)) as [u|] eqn:Hget;
      [|discriminate].
    destruct (isActive u) eqn:Hact; [|discriminate].
    injection H as <-. exists t, uid, u. auto.
  - intros t uid w1 Hv.
    pose proof (validated_token_not_empty E t _ w w1 Hv) as Hlen.
    split.
    + intros Hnone. split.
      * rewrite (auth_validateToken_after E t _ w w1 Hv).
        cbn [InMemoryUserRepository.Map_get_any subject]. rewrite Hnone. reflexivity.
      * intros a Hex.
        rewrite (authenticate_after E a t _ w w1 Hex Hlen Hv).
        cbn [InMemoryUserRepository.Map_get_any subject]. rewrite Hnone. reflexivity.
    + intros u Hsome Hact. split.
      * rewrite (auth_validateToken_after E t _ w w1 Hv).
        cbn [InMemoryUserRepository.Map_get_any subject].
        rewrite Hsome, Hact. reflexivity.
      * intros a Hex.
        rewrite (authenticate_after E a t _ w w1 Hex Hlen Hv).
        cbn [InMemoryUserRepository.Map_get_any subject].
        rewrite Hsome, Hact. reflexivity.
  - intros t v w1 Hv Hother.
    pose proof (validated_token_not_empty E t _ w w1 Hv) as Hlen.
    assert (Hnone : InMemoryUserRepository.Map_get_any v (users w) = None).
    { destruct (InMemoryUserRepository.Map_get_any v (users w)) as [u|] eqn:Hget;
        [|reflexivity].
      destruct (Map_get_any_Some v _ u Hget) as (uid & Heq & _).
      exfalso. exact (Hother uid Heq). }
    split.
    + rewrite (auth_validateToken_after E t v w w1 Hv), Hnone. reflexivity.
    + intros a Hex.
      rewrite (authenticate_after E a t v w w1 Hex Hlen Hv), Hnone. reflexivity.
Qed.

Lemma validation_needs_an_active_user_witness :
  let w1 := set_clock_reads 5 Run.deactivated in
  JWTTokenService.validateToken Run.E1 Run.tok1 Run.deactivated
  = (inr (subject "1"), w1)
  /\ DefaultAuthService.validateToken Run.E1 Run.tok1 Run.deactivated
     = (inl AccountDisabledError, w1)
  /\ DefaultAuthMiddleware.authenticate Run.E1 (Some ("Bearer " ++ Run.tok1))
       Run.deactivated
     = (inr (Respond 403 "User account is deactivated"), w1).
Proof.
  cbv zeta.
  assert (Hv : JWTTokenService.validateToken Run.E1 Run.tok1 Run.deactivated
               = (inr (subject "1"), set_clock_reads 5 Run.deactivated))
    by (vm_compute; reflexivity).
  split; [exact Hv|].
  destruct (validation_needs_an_active_user Run.E1 Run.deactivated)
    as (_ & _ & Hrefuse & _).
  destruct (Hrefuse Run.tok1 "1" _ Hv) as (_ & Hinactive).
  destruct (InMemoryUserRepository.Map_get "1" (users Run.deactivated))
    as [u|] eqn:Hget; [|vm_compute in Hget; discriminate].
  destruct (Hinactive u eq_refl) as (Hsvc & Hmw).
  - vm_compute in Hget. injection Hget as <-. reflexivity.
  - split; [exact Hsvc|]. apply Hmw. vm_compute. reflexivity.
Defined.

(** ** Hashing and verifying passwords *)

Lemma string_length_append (a b : string) :
  String.length (a ++ b) = (String.length a + String.length b)%nat.
Proof. induction a as [|c r IH]; simpl; [reflexivity | rewrite IH; reflexivity]. Qed.

Lemma string_append_cancel_r (a b s : string) : a ++ s = b ++ s -> a = b.
Proof.
  revert b; induction a as [|c r IH]; intros [|d b'] H; simpl in H.
  - reflexivity.
  - apply (f_equal String.length) in H.
    rewrite !string_length_append in H. simpl in H. lia.
  - apply (f_equal String.length) in H.
    rewrite !string_length_append in H. simpl in H. lia.
  - injection H as -> H. f_equal. apply IH, H.
Qed.

Section PasswordFacts.

Context (E : Env).

Lemma hashPassword_eq (password : string) (w : World) :
  String.length password <> 0%nat ->
  let salt := Hex.encode (read_entropy E (entropy_reads w) 16) in
  BcryptPasswordService.hashPassword E password w
  = (inr (salt ++ ":" ++ BcryptPasswordService.sha256_hex E (password ++ salt)),
     set_entropy_reads (entropy_reads w + 16)%nat w).
Proof.
  intros Hlen salt.
  unfold BcryptPasswordService.hashPassword,
    BcryptPasswordService.validatePasswordInput.
  apply Nat.eqb_neq in Hlen. rewrite Hlen. reflexivity.
Qed.

(** [verifyPassword] on a record made of a non-empty hexadecimal salt and
    the hexadecimal form of a non-empty digest: the digest recomputed from
    the password and the salt is compared with the stored one. *)
Lemma verifyPassword_record (password saltBytes digest : string) :
  String.length saltBytes <> 0%nat ->
  String.length digest
  = String.length (sha256 (platform E) (password ++ Hex.encode saltBytes)) ->
  String.length digest <> 0%nat ->
  BcryptPasswordService.verifyPassword E password
    (Hex.encode saltBytes ++ ":" ++ Hex.encode digest)
  = String.eqb digest (sha256 (platform E) (password ++ Hex.encode saltBytes)).
Proof.
  intros Hsalt Hsame Hdigest.
  unfold BcryptPasswordService.verifyPassword.
  change (Hex.encode saltBytes ++ ":" ++ Hex.encode digest)
    with (Hex.encode saltBytes ++ String Str.colon (Hex.encode digest)).
  rewrite split_app_sep by (apply hex_encode_free_of; reflexivity).
  rewrite split_free_of by (apply hex_encode_free_of; reflexivity).
  rewrite !hex_encode_length.
  destruct (Nat.eqb_spec (2 * String.length saltBytes) 0) as [|_]; [lia|].
  destruct (Nat.eqb_spec (2 * String.length digest) 0) as [|_]; [lia|].
  cbn [orb]. unfold BcryptPasswordService.sha256_hex,
    BcryptPasswordService.timingSafeEqual.
  rewrite !hex_decode_encode, Hsame, Nat.eqb_refl. reflexivity.
Qed.

End PasswordFacts.

(** C6. Hashing a non-empty password [P] returns a record [salt:hash], whose
    salt is the hexadecimal form of 16 freshly read random bytes, and
    [verifyPassword P] accepts that record. [verifyPassword P1] rejects it for
    every other password [P1], provided the digests of [P1 ++ salt] and
    [P ++ salt] do not collide. *)
Theorem verify_accepts_the_hashed_password_only (E : Env) (P : string) (w : World) :
  PlatformLaws (platform E) ->
  String.length P <> 0%nat ->
  exists salt hash w',
    salt = Hex.encode (read_entropy E (entropy_reads w) 16)
    /\ BcryptPasswordService.hashPassword E P w = (inr (salt ++ ":" ++ hash), w')
    /\ BcryptPasswordService.verifyPassword E P (salt ++ ":" ++ hash) = true
    /\ forall P1,
         P1 <> P ->
         (sha256 (platform E) (P1 ++ salt) = sha256 (platform E) (P ++ salt) ->
          P1 ++ salt = P ++ salt) ->
         BcryptPasswordService.verifyPassword E P1 (salt ++ ":" ++ hash) = false.
Proof.
  intros laws Hlen.
  set (saltBytes := read_entropy E (entropy_reads w) 16).
  exists (Hex.encode saltBytes),
         (BcryptPasswordService.sha256_hex E (P ++ Hex.encode saltBytes)),
         (set_entropy_reads (entropy_reads w + 16)%nat w).
  assert (Hsalt : String.length saltBytes <> 0%nat)
    by (unfold saltBytes; rewrite read_entropy_length; discriminate).
  assert (Hsha : forall m, String.length (sha256 (platform E) m) = 32%nat)
    by apply (sha256_length _ laws).
  split; [reflexivity|]. split; [apply (hashPassword_eq E P w Hlen)|].
  unfold BcryptPasswordService.sha256_hex. split.
  - rewrite verifyPassword_record; [apply String.eqb_refl | exact Hsalt | reflexivity |].
    rewrite Hsha. discriminate.
  - intros P1 Hne Hcol.
    rewrite verifyPassword_record;
      [| exact Hsalt | rewrite !Hsha; reflexivity | rewrite Hsha; discriminate].
    apply String.eqb_neq. intros Heq. apply Hne.
    apply (string_append_cancel_r _ _ (Hex.encode saltBytes)).
    apply Hcol. symmetry. exact Heq.
Qed.

Lemma verify_accepts_the_hashed_password_only_witness :
  exists record,
    fst (BcryptPasswordService.hashPassword Run.E1 "Test.Passw0rd!" Run.initial)
    = inr record
    /\ BcryptPasswordService.verifyPassword Run.E1 "Test.Passw0rd!" record = true
    /\ BcryptPasswordService.verifyPassword Run.E1 "test.Passw0rd!" record = false.
Proof.
  destruct (verify_accepts_the_hashed_password_only Run.E1 "Test.Passw0rd!"
              Run.initial sample_platform_laws)
    as (salt & hash & w' & Hsalt & Hhash & Hok & Hother); [discriminate|].
  exists (salt ++ ":" ++ hash). split; [rewrite Hhash; reflexivity|].
  split; [exact Hok|]. apply Hother; [discriminate|].
  rewrite Hsalt. vm_compute. discriminate.
Defined.

(** ** Refreshing a token *)

Lemma refreshToken_returned (E : Env) (t : string) (w w' : World)
  (r : AuthenticationResult) :
  DefaultAuthService.refreshToken E t w = (inr r, w') ->
  exists uid u,
    JWTTokenService.validateToken E t w
    = (inr (subject uid), set_clock_reads (S (clock_reads w)) w)
    /\ InMemoryUserRepository.Map_get uid (users w) = Some u
    /\ isActive u = true
    /\ user r = DefaultAuthService.toUserResponse u
    /\ issued_then_reported E (S (clock_reads w)) r
    /\ w' = set_clock_reads (S (S (S (clock_reads w)))) w.
Proof.
  unfold DefaultAuthService.refreshToken. intros H.
  apply bind_returned in H as (v & w1 & Hv & H).
  destruct (validateToken_returned E t v w w1 Hv) as (_ & -> & _).
  rewrite bind_run, findById_any_eq in H. cbn [users set_clock_reads] in H.
  destruct (InMemoryUserRepository.Map_get_any v (users w)) as [u|] eqn:Hget;
    [|destruct (ToString (platform E) v); discriminate].
  destruct (Map_get_any_Some v _ u Hget) as (uid & -> & Hget').
  destruct (isActive u) eqn:Hact; [|discriminate].
  cbn [negb] in H. rewrite bind_run, generateToken_eq, bind_run,
    getTokenExpiration_eq in H.
  injection H as <- <-. exists uid, u. repeat split; auto.
Qed.

(** C9. A refresh made in the millisecond in which the presented token was
    issued returns that very token. The clock reads 5 throughout: a user
    registers, and the token handed out is refreshed at once. The refresh
    succeeds and leaves the revocation set as it was, but the token it
    returns is the presented string itself, not a new one: a token is made
    from the user's id and the clock alone. *)
Theorem refresh_can_return_the_presented_token :
  let E := Run.env [5; 5; 5; 5; 5; 5] in
  exists r w1 r' w2,
    DefaultAuthService.register E Run.data Run.initial = (inr r, w1)
    /\ DefaultAuthService.refreshToken E (token r) w1 = (inr r', w2)
    /\ token r' = token r
    /\ revokedTokens w2 = revokedTokens w1.
Proof.
  cbv zeta. eexists. eexists. eexists. eexists.
  split; [vm_compute; reflexivity|].
  split; [vm_compute; reflexivity|].
  split; reflexivity.
Qed.



(** ** The expiry reported to the caller *)

Lemma findByUsername_eq (n : string) (w : World) :
  InMemoryUserRepository.findByUsername n w
  = (inr (InMemoryUserRepository.Map_find (fun u => String.eqb (username u) n)
            (users w)),
     w).
Proof. reflexivity. Qed.

Lemma hashPassword_clock (E : Env) (p : string) (w w1 : World) (h : string) :
  BcryptPasswordService.hashPassword E p w = (inr h, w1) ->
  clock_reads w1 = clock_reads w.
Proof.
  unfold BcryptPasswordService.hashPassword,
    BcryptPasswordService.validatePasswordInput.
  destruct (Nat.eqb (String.length p) 0); [discriminate|].
  intros H. injection H as _ <-. reflexivity.
Qed.

Lemma create_returned (E : Env) (d : UserRegistrationData) (h : string)
  (w w1 : World) (u : User) :
  InMemoryUserRepository.create E d h w = (inr u, w1) ->
  clock_reads w1 = S (clock_reads w).
Proof. intros H. injection H as _ <-. reflexivity. Qed.

Lemma updateLastLogin_returned (E : Env) (i : string) (w w1 : World) :
  InMemoryUserRepository.updateLastLogin E i w = (inr tt, w1) ->
  clock_reads w1 = S (S (clock_reads w)).
Proof.
  unfold InMemoryUserRepository.updateLastLogin. rewrite bind_run.
  cbn [get_world].
  destruct (InMemoryUserRepository.Map_get i (users w)); [|discriminate].
  intros H. injection H as <-. reflexivity.
Qed.

Lemma issue_and_report (E : Env) (u : User) (w w' : World)
  (r : AuthenticationResult) :
  (tok ← JWTTokenService.generateToken E (id u);
   expires ← JWTTokenService.getTokenExpiration E;
   mret (mkAuthenticationResult (DefaultAuthService.toUserResponse u) tok expires)) w
  = (inr r, w') ->
  issued_then_reported E (clock_reads w) r.
Proof.
  rewrite bind_run, generateToken_eq, bind_run, getTokenExpiration_eq.
  intros H. injection H as <- _. split; reflexivity.
Qed.

Lemma register_returned (E : Env) (d : UserRegistrationData) (w w' : World)
  (r : AuthenticationResult) :
  DefaultAuthService.register E d w = (inr r, w') ->
  issued_then_reported E (S (clock_reads w)) r.
Proof.
  unfold DefaultAuthService.register.
  destruct (negb (isValid (BcryptPasswordService.validatePasswordStrength
                             (reg_password d)))); [discriminate|].
  rewrite bind_run, findByEmail_eq.
  destruct (InMemoryUserRepository.Map_find _ (users w)); [discriminate|].
  rewrite bind_run, findByUsername_eq.
  destruct (InMemoryUserRepository.Map_find _ (users w)); [discriminate|].
  rewrite bind_run.
  destruct (BcryptPasswordService.hashPassword E (reg_password d) w)
    as [[e|h] w1] eqn:Hh; [discriminate|].
  rewrite bind_run.
  destruct (InMemoryUserRepository.create E d h w1) as [[e|u] w2] eqn:Hc;
    [discriminate|].
  intros H. apply issue_and_report in H.
  rewrite (create_returned E d h w1 w2 u Hc), (hashPassword_clock E _ w w1 h Hh) in H.
  exact H.
Qed.

Lemma login_returned (E : Env) (d : UserLoginData) (w w' : World)
  (r : AuthenticationResult) :
  DefaultAuthService.login E d w = (inr r, w') ->
  issued_then_reported E (S (S (clock_reads w))) r.
Proof.
  unfold DefaultAuthService.login. rewrite bind_run, findByEmail_eq.
  destruct (InMemoryUserRepository.Map_find _ (users w)) as [u|]; [|discriminate].
  destruct (negb (BcryptPasswordService.verifyPassword E (login_password d)
                    (hashedPassword u))); [discriminate|].
  destruct (negb (isActive u)); [discriminate|].
  rewrite bind_run.
  destruct (InMemoryUserRepository.updateLastLogin E (id u) w)
    as [[e|[]] w1] eqn:Hl; [discriminate|].
  intros H. apply issue_and_report in H.
  rewrite (updateLastLogin_returned E (id u) w w1 Hl) in H. exact H.
Qed.

(** ** Constant-time comparison *)

Lemma cost_decodeToken_erase (E : Env) (t : string) :
  fst (Cost.decodeToken E t) = JWTTokenService.decodeToken E t.
Proof.
  unfold Cost.decodeToken, JWTTokenService.decodeToken, Cost.strict_not_equal.
  destruct (Str.split Str.dot t) as [|h [|p [|s [|x l]]]]; try reflexivity.
  destruct (negb (String.eqb s _)); [reflexivity|].
  destruct (JSON_parse _ _); reflexivity.
Qed.

Lemma cost_verifyPassword_erase (E : Env) (password record : string) :
  fst (Cost.verifyPassword E password record)
  = BcryptPasswordService.verifyPassword E password record.
Proof.
  unfold Cost.verifyPassword, BcryptPasswordService.verifyPassword,
    Cost.timingSafeEqual.
  destruct (Str.split Str.colon record) as [|salt [|hash l]]; try reflexivity.
  destruct (Nat.eqb (String.length salt) 0 || Nat.eqb (String.length hash) 0);
    [reflexivity|].
  destruct (BcryptPasswordService.timingSafeEqual _ _); reflexivity.
Qed.

(** The comparison in [verifyPassword] examines a number of bytes that does
    not depend on the password presented. *)
Lemma verifyPassword_steps_constant (E : Env) (p1 p2 record : string) :
  PlatformLaws (platform E) ->
  snd (Cost.verifyPassword E p1 record) = snd (Cost.verifyPassword E p2 record).
Proof.
  intros laws. unfold Cost.verifyPassword, Cost.timingSafeEqual.
  destruct (Str.split Str.colon record) as [|salt [|hash l]]; try reflexivity.
  destruct (Nat.eqb (String.length salt) 0 || Nat.eqb (String.length hash) 0);
    [reflexivity|].
  unfold BcryptPasswordService.sha256_hex.
  rewrite !hex_decode_encode, !(sha256_length _ laws).
  destruct (BcryptPasswordService.timingSafeEqual (Hex.decode hash) _);
    destruct (BcryptPasswordService.timingSafeEqual (Hex.decode hash) _);
    reflexivity.
Qed.

(** C3, at two forged tokens. Both are the registration token with one
    character of the signature replaced, the first at index 0 and the second
    at index 5; they have the same length and both are rejected for their
    signature. The comparison of the signature with the expected one stops at
    the forged character: it examines 1 position for the first token and 6
    for the second, so its duration tells how long a prefix of the presented
    signature is right. *)
Theorem signature_comparison_stops_at_first_difference :
  String.length (Run.tampered 0) = String.length (Run.tampered 5)
  /\ JWTTokenService.decodeToken Run.E1 (Run.tampered 0) = inl InvalidSignatureError
  /\ JWTTokenService.decodeToken Run.E1 (Run.tampered 5) = inl InvalidSignatureError
  /\ snd (Cost.decodeToken Run.E1 (Run.tampered 0)) = 1%nat
  /\ snd (Cost.decodeToken Run.E1 (Run.tampered 5)) = 6%nat.
Proof. repeat split; vm_compute; reflexivity. Qed.

(** ** Password policy *)

Lemma in_push_if (cond : bool) (msg x : string) (l : list string) :
  In x (BcryptPasswordService.push_if cond msg l)
  <-> In x l \/ (cond = true /\ x = msg).
Proof.
  unfold BcryptPasswordService.push_if. destruct cond.
  - rewrite in_app_iff. simpl. intuition.
  - intuition discriminate.
Qed.

(** What the regular expression for repeated characters accepts: three equal
    consecutive characters, the first of which [.] matches. *)
Lemma has_repeated_run_iff (s : string) :
  BcryptPasswordService.has_repeated_run s = true
  <-> exists i c,
        BcryptPasswordService.is_line_terminator c = false
        /\ String.get i s = Some c
        /\ String.get (S i) s = Some c
        /\ String.get (S (S i)) s = Some c.
Proof.
  induction s as [|a r IH].
  - simpl. split; [discriminate | intros (i & c & _ & H & _); discriminate].
  - cbn [BcryptPasswordService.has_repeated_run]. rewrite orb_true_iff, IH.
    split.
    + intros [H | (i & c & Hc & H0 & H1 & H2)].
      * destruct r as [|b [|c r']]; try discriminate.
        apply andb_prop in H as [H Hac]. apply andb_prop in H as [Hlt Hab].
        apply Ascii.eqb_eq in Hab, Hac. subst b c.
        exists 0%nat, a. apply negb_true_iff in Hlt. repeat split; auto.
      * exists (S i), c. repeat split; auto.
    + intros (i & c & Hc & H0 & H1 & H2). destruct i as [|i].
      * left. simpl in H0. injection H0 as ->.
        destruct r as [|b [|c' r']]; try discriminate.
        simpl in H1, H2. injection H1 as ->. injection H2 as ->.
        rewrite Hc, Ascii.eqb_refl. reflexivity.
      * right. exists i, c. repeat split; auto.
Qed.

(** The policy is cumulative: the result lists the message of every check
    that fails, and [isValid] holds exactly when the list is empty. *)
Lemma validatePasswordStrength_errors (password msg : string) :
  In msg (errors (BcryptPasswordService.validatePasswordStrength password))
  <-> ((String.length password < 8)%nat
       /\ msg = "Password must be at least 8 characters long")
      \/ ((128 < String.length password)%nat
          /\ msg = "Password must be no more than 128 characters long")
      \/ (Str.existsb BcryptPasswordService.is_uppercase password = false
          /\ msg = "Password must contain at least one uppercase letter")
      \/ (Str.existsb BcryptPasswordService.is_lowercase password = false
          /\ msg = "Password must contain at least one lowercase letter")
      \/ (Str.existsb BcryptPasswordService.is_digit password = false
          /\ msg = "Password must contain at least one number")
      \/ (Str.existsb BcryptPasswordService.is_special password = false
          /\ msg = "Password must contain at least one special character")
      \/ (BcryptPasswordService.has_repeated_run password = true
          /\ msg = "Password cannot contain more than 2 consecutive identical characters")
      \/ (List.existsb
            (fun common =>
               Str.includes (BcryptPasswordService.toLowerCase password) common)
            BcryptPasswordService.commonPasswords = true
          /\ msg = "Password cannot contain common words or patterns").
Proof.
  unfold BcryptPasswordService.validatePasswordStrength. cbn [errors].
  rewrite !in_push_if, !negb_true_iff, Nat.ltb_lt, Nat.ltb_lt.
  change (pretty BcryptPasswordService.MIN_PASSWORD_LENGTH) with "8".
  change (pretty BcryptPasswordService.MAX_PASSWORD_LENGTH) with "128".
  change BcryptPasswordService.MIN_PASSWORD_LENGTH with 8%nat.
  change BcryptPasswordService.MAX_PASSWORD_LENGTH with 128%nat.
  simpl In. tauto.
Qed.

Lemma validatePasswordStrength_isValid (password : string) :
  isValid (BcryptPasswordService.validatePasswordStrength password) = true
  <-> errors (BcryptPasswordService.validatePasswordStrength password) = [].
Proof.
  unfold BcryptPasswordService.validatePasswordStrength. cbn [isValid errors].
  rewrite Nat.eqb_eq. apply length_zero_iff_nil.
Qed.

Example validatePasswordStrength_minimal :
  BcryptPasswordService.validatePasswordStrength "Ab1!cdef"
  = mkPasswordValidationResult true [].
Proof. vm_compute. reflexivity. Qed.

Example validatePasswordStrength_password :
  let r := BcryptPasswordService.validatePasswordStrength "password" in
  isValid r = false
  /\ In "Password cannot contain common words or patterns" (errors r).
Proof. vm_compute. intuition. Qed.

(** C8, at a password with three line feeds in a row:
    [Ab1!], three times the character of code 10, then [c]. It has three
    identical consecutive characters, yet the policy reports no violation and
    finds it valid, because [.] in the regular expression does not match a
    line terminator. *)
Theorem repeated_line_feeds_pass_the_policy :
  let lf := String "010"%char EmptyString in
  let password := "Ab1!" ++ lf ++ lf ++ lf ++ "c" in
  (exists i c,
      String.get i password = Some c
      /\ String.get (S i) password = Some c
      /\ String.get (S (S i)) password = Some c)
  /\ BcryptPasswordService.has_repeated_run password = false
  /\ BcryptPasswordService.validatePasswordStrength password
     = mkPasswordValidationResult true [].
Proof.
  cbv zeta. split; [|split; vm_compute; reflexivity].
  exists 4%nat, "010"%char. repeat split; reflexivity.
Qed.

(** * Properties of the rest of the code *)

(** ** The user map *)

Lemma Map_get_None (k : string) (m : list (string * User)) :
  InMemoryUserRepository.Map_get k m = None <-> ~ In k (List.map fst m).
Proof.
  induction m as [|[k' v] r IH]; simpl; [tauto|].
  destruct (String.eqb_spec k k') as [->|Hne].
  - split; [discriminate | intros H; exfalso; apply H; auto].
  - rewrite IH. split; [intros H [Heq|Hin]; [congruence | auto] | tauto].
Qed.

Lemma Map_get_In (k : string) (u : User) (m : list (string * User)) :
  InMemoryUserRepository.Map_get k m = Some u -> In (k, u) m.
Proof.
  induction m as [|[k' v] r IH]; simpl; [discriminate|].
  destruct (String.eqb_spec k k') as [->|Hne].
  - intros H. injection H as ->. auto.
  - auto.
Qed.

Lemma Map_get_set_eq (k : string) (v : User) (m : list (string * User)) :
  InMemoryUserRepository.Map_get k (InMemoryUserRepository.Map_set k v m) = Some v.
Proof.
  induction m as [|[k' v'] r IH]; simpl.
  - rewrite String.eqb_refl. reflexivity.
  - destruct (String.eqb_spec k k') as [->|Hne]; simpl.
    + rewrite String.eqb_refl. reflexivity.
    + destruct (String.eqb_spec k k'); [contradiction | exact IH].
Qed.

Lemma Map_get_set_ne (k k' : string) (v : User) (m : list (string * User)) :
  k <> k' -> InMemoryUserRepository.Map_get k' (InMemoryUserRepository.Map_set k v m) = InMemoryUserRepository.Map_get k' m.
Proof.
  intros Hne. induction m as [|[k0 v0] r IH]; simpl.
  - destruct (String.eqb_spec k' k); [congruence | reflexivity].
  - destruct (String.eqb_spec k k0) as [->|Hne0]; simpl.
    + destruct (String.eqb_spec k' k0); [congruence | reflexivity].
    + rewrite IH. reflexivity.
Qed.

Lemma Map_set_new (k : string) (v : User) (m : list (string * User)) :
  InMemoryUserRepository.Map_get k m = None -> InMemoryUserRepository.Map_set k v m = (m ++ [(k, v)])%list.
Proof.
  induction m as [|[k' v'] r IH]; simpl; [reflexivity|].
  destruct (String.eqb_spec k k'); [discriminate|].
  intros H. rewrite (IH H). reflexivity.
Qed.

(** Replacing the user under a key that is present keeps the keys. *)
Lemma Map_set_keys (k : string) (u v : User) (m : list (string * User)) :
  InMemoryUserRepository.Map_get k m = Some u -> List.map fst (InMemoryUserRepository.Map_set k v m) = List.map fst m.
Proof.
  induction m as [|[k' v'] r IH]; simpl; [discriminate|].
  destruct (String.eqb_spec k k') as [->|Hne]; simpl; [reflexivity|].
  intros H. rewrite (IH H). reflexivity.
Qed.

Lemma Map_set_Forall (P : string * User -> Prop) (k : string) (v : User)
  (m : list (string * User)) :
  Forall P m -> P (k, v) -> Forall P (InMemoryUserRepository.Map_set k v m).
Proof.
  intros Hm Hv. induction m as [|[k' v'] r IH]; simpl.
  - constructor; [exact Hv | constructor].
  - inversion Hm as [|? ? Hhd Htl]; subst.
    destruct (String.eqb k k'); constructor; auto.
Qed.

Lemma Map_delete_In (k : string) (kv : string * User) (m : list (string * User)) :
  In kv (UserRepository.Map_delete k m) -> In kv m.
Proof.
  induction m as [|[k' v'] r IH]; simpl; [tauto|].
  destruct (String.eqb k k'); simpl; [auto | intros [H|H]; auto].
Qed.

Lemma Map_delete_keys_NoDup (k : string) (m : list (string * User)) :
  NoDup (List.map fst m) -> NoDup (List.map fst (UserRepository.Map_delete k m)).
Proof.
  induction m as [|[k' v'] r IH]; simpl; [auto|].
  intros H. apply NoDup_cons in H as [Hnot Hnd].
  destruct (String.eqb k k'); simpl; [exact Hnd|].
  apply NoDup_cons. split; [|auto].
  rewrite list_elem_of_In in *. intros Hin. apply Hnot.
  apply in_map_iff in Hin as (kv & Hfst & Hin).
  apply in_map_iff. exists kv. split; [exact Hfst|]. eapply Map_delete_In, Hin.
Qed.

Lemma Map_get_delete_eq (k : string) (m : list (string * User)) :
  NoDup (List.map fst m) ->
  InMemoryUserRepository.Map_get k (UserRepository.Map_delete k m) = None.
Proof.
  induction m as [|[k' v'] r IH]; simpl; [reflexivity|].
  intros H. apply NoDup_cons in H as [Hnot Hnd].
  destruct (String.eqb_spec k k') as [->|Hne]; simpl.
  - apply Map_get_None. rewrite <- list_elem_of_In. exact Hnot.
  - destruct (String.eqb_spec k k'); [contradiction | auto].
Qed.

Lemma Map_get_delete_ne (k k' : string) (m : list (string * User)) :
  k <> k' -> InMemoryUserRepository.Map_get k' (UserRepository.Map_delete k m) = InMemoryUserRepository.Map_get k' m.
Proof.
  intros Hne. induction m as [|[k0 v0] r IH]; simpl; [reflexivity|].
  destruct (String.eqb_spec k k0) as [->|Hne0]; simpl.
  - destruct (String.eqb_spec k' k0); [congruence | reflexivity].
  - rewrite IH. reflexivity.
Qed.

Lemma Map_delete_absent (k : string) (m : list (string * User)) :
  InMemoryUserRepository.Map_get k m = None -> UserRepository.Map_delete k m = m.
Proof.
  induction m as [|[k' v'] r IH]; simpl; [reflexivity|].
  destruct (String.eqb_spec k k'); [discriminate|].
  intros H. rewrite (IH H). reflexivity.
Qed.

(** ** The shape of the store is kept *)

Section Preserves.

Context (I : World -> Prop).

Lemma preserves_ret {A : Type} (a : A) : preserves I (mret a).
Proof. intros w H. exact H. Qed.

Lemma preserves_throw {A : Type} (e : JsError) : preserves I (@throw A e).
Proof. intros w H. exact H. Qed.

Lemma preserves_lift {A : Type} (r : JsError + A) : preserves I (lift r).
Proof. intros w H. exact H. Qed.

Lemma preserves_get_world : preserves I get_world.
Proof. intros w H. exact H. Qed.

Lemma preserves_bind {A B : Type} (m : M A) (k : A -> M B) :
  preserves I m -> (forall a, preserves I (k a)) -> preserves I (m ≫= k).
Proof.
  intros Hm Hk w Hw. rewrite bind_run. specialize (Hm w Hw).
  destruct (m w) as [[e|a] w']; simpl in *; [exact Hm | apply Hk, Hm].
Qed.

Lemma preserves_try_catch {A : Type} (m : M A) (h : JsError -> M A) :
  preserves I m -> (forall e, preserves I (h e)) -> preserves I (try_catch m h).
Proof.
  intros Hm Hh w Hw. unfold try_catch. specialize (Hm w Hw).
  destruct (m w) as [[e|a] w']; simpl in *; [apply Hh, Hm | exact Hm].
Qed.

End Preserves.

Lemma store_ok_fresh (w : World) : fresh w -> store_ok w.
Proof.
  intros (Hu & _ & _). unfold store_ok. rewrite Hu. split; constructor.
Qed.

(** Only the users and the id counter matter. *)
Lemma store_ok_same (w w' : World) :
  users w' = users w -> nextId w' = nextId w -> store_ok w -> store_ok w'.
Proof. unfold store_ok. intros -> ->. tauto. Qed.

Lemma store_ok_key_bound (w : World) (k : string) (u : User) :
  store_ok w -> In (k, u) (users w) ->
  id u = k /\ (exists n, (n < nextId w)%N /\ k = pretty n) /\ roles u = [].
Proof.
  intros [_ Hall] Hin. rewrite Forall_forall in Hall.
  apply (Hall (k, u)). apply list_elem_of_In, Hin.
Qed.

Lemma store_ok_next_key_absent (w : World) :
  store_ok w -> InMemoryUserRepository.Map_get (pretty (nextId w)) (users w) = None.
Proof.
  intros Hok. apply Map_get_None. intros Hin.
  apply in_map_iff in Hin as ([k u] & Hk & Hin). simpl in Hk. subst k.
  destruct (store_ok_key_bound w _ u Hok Hin) as (_ & (n & Hlt & Heq) & _).
  apply (inj pretty) in Heq. lia.
Qed.

Lemma store_ok_append (w w' : World) (u : User) :
  store_ok w ->
  users w' = (users w ++ [(pretty (nextId w), u)])%list ->
  nextId w' = (nextId w + 1)%N ->
  id u = pretty (nextId w) -> roles u = [] ->
  store_ok w'.
Proof.
  intros Hok Hu Hn Hid Hroles.
  pose proof (store_ok_next_key_absent w Hok) as Habs.
  destruct Hok as [Hnd Hall]. unfold store_ok. rewrite Hu, Hn. split.
  - rewrite map_app. simpl. apply NoDup_app. split; [exact Hnd|]. split.
    + intros k Hk Hk'. apply list_elem_of_In in Hk.
      apply list_elem_of_In in Hk'. simpl in Hk'. destruct Hk' as [<-|[]].
      apply Map_get_None in Habs. contradiction.
    + apply NoDup_singleton.
  - apply Forall_app. split.
    + eapply Forall_impl; [exact Hall|]. intros [k v] (H1 & (n & Hlt & Hk) & H3).
      split; [exact H1|]. split; [|exact H3]. exists n. split; [lia | exact Hk].
    + constructor; [|constructor]. simpl. split; [exact Hid|]. split; [|exact Hroles].
      exists (nextId w). split; [lia | reflexivity].
Qed.

Lemma store_ok_replace (w w' : World) (k : string) (u v : User) :
  store_ok w ->
  InMemoryUserRepository.Map_get k (users w) = Some u ->
  users w' = InMemoryUserRepository.Map_set k v (users w) ->
  nextId w' = nextId w ->
  id v = id u -> roles v = roles u ->
  store_ok w'.
Proof.
  intros Hok Hget Hu Hn Hid Hroles.
  destruct (store_ok_key_bound w k u Hok (Map_get_In _ _ _ Hget)) as (H1 & H2 & H3).
  destruct Hok as [Hnd Hall]. unfold store_ok. rewrite Hu, Hn. split.
  - rewrite (Map_set_keys k u v _ Hget). exact Hnd.
  - apply Map_set_Forall; [exact Hall|]. simpl.
    rewrite Hid, Hroles. auto.
Qed.

Lemma store_ok_delete (w w' : World) (k : string) :
  store_ok w ->
  users w' = UserRepository.Map_delete k (users w) ->
  nextId w' = nextId w ->
  store_ok w'.
Proof.
  intros [Hnd Hall] Hu Hn. unfold store_ok. rewrite Hu, Hn. split.
  - apply Map_delete_keys_NoDup, Hnd.
  - rewrite Forall_forall in *. intros kv Hin. apply Hall.
    apply list_elem_of_In. eapply Map_delete_In. apply list_elem_of_In, Hin.
Qed.

Section StoreKept.

Context (E : Env).

Lemma create_eq (d : UserRegistrationData) (h : string) (w : World) :
  let k := pretty (nextId w) in
  let u :=
    mkUser k (reg_email d) (reg_username d) h []
           (mkUserProfile (reg_firstName d) (reg_lastName d) (reg_phone d) None None)
           (clock E (clock_reads w)) (clock E (clock_reads w)) true in
  InMemoryUserRepository.create E d h w
  = (inr u,
     mkWorld (S (clock_reads w)) (entropy_reads w)
             (InMemoryUserRepository.Map_set k u (users w))
             (nextId w + 1)%N (revokedTokens w)).
Proof. reflexivity. Qed.

Lemma preserves_Date_now : preserves store_ok (Date_now E).
Proof. intros w H. exact H. Qed.

Lemma preserves_randomBytes (n : nat) : preserves store_ok (randomBytes E n).
Proof. intros w H. exact H. Qed.

Lemma preserves_revokeToken (t : string) :
  preserves store_ok (JWTTokenService.revokeToken t).
Proof. intros w H. exact H. Qed.

Lemma preserves_create (d : UserRegistrationData) (h : string) :
  preserves store_ok (InMemoryUserRepository.create E d h).
Proof.
  intros w Hok. rewrite create_eq. cbn [snd].
  rewrite Map_set_new by (apply store_ok_next_key_absent, Hok).
  eapply store_ok_append; [exact Hok | reflexivity..].
Qed.

Lemma preserves_updateLastLogin (i : string) :
  preserves store_ok (InMemoryUserRepository.updateLastLogin E i).
Proof.
  intros w Hok. unfold InMemoryUserRepository.updateLastLogin.
  rewrite bind_run. cbn [get_world].
  destruct (InMemoryUserRepository.Map_get i (users w)) as [u|] eqn:Hget;
    [|exact Hok].
  eapply store_ok_replace; [exact Hok | exact Hget | reflexivity..].
Qed.

Lemma preserves_setActive (i : string) (b : bool) :
  preserves store_ok (InMemoryUserRepository.setActive E i b).
Proof.
  intros w Hok. unfold InMemoryUserRepository.setActive.
  rewrite bind_run. cbn [get_world].
  destruct (InMemoryUserRepository.Map_get i (users w)) as [u|] eqn:Hget;
    [|exact Hok].
  eapply store_ok_replace; [exact Hok | exact Hget | reflexivity..].
Qed.

Lemma preserves_updatePassword (i h : string) :
  preserves store_ok (UserRepository.updatePassword E i h).
Proof.
  intros w Hok. unfold UserRepository.updatePassword.
  rewrite bind_run. cbn [get_world].
  destruct (InMemoryUserRepository.Map_get i (users w)) as [u|] eqn:Hget;
    [|exact Hok].
  eapply store_ok_replace; [exact Hok | exact Hget | reflexivity..].
Qed.

Lemma preserves_delete (i : string) : preserves store_ok (UserRepository.delete i).
Proof.
  intros w Hok. eapply store_ok_delete; [exact Hok | reflexivity..].
Qed.

End StoreKept.

Create HintDb kept.

#[local] Hint Resolve preserves_ret preserves_throw preserves_lift
  preserves_get_world preserves_Date_now preserves_randomBytes
  preserves_revokeToken preserves_create preserves_updateLastLogin
  preserves_setActive preserves_updatePassword preserves_delete : kept.

Ltac kept_step :=
  match goal with
  | |- preserves _ (_ ≫= _) => apply preserves_bind; [| intros ?]
  | |- preserves _ (try_catch _ _) => apply preserves_try_catch; [| intros ?]
  | |- preserves _ (match ?x with _ => _ end) => destruct x
  | |- preserves _ (if ?b then _ else _) => destruct b
  | |- preserves _ _ => solve [eauto with kept]
  end.

Ltac kept_auto := repeat kept_step.

Section StoreKeptServices.

Context (E : Env).

Lemma preserves_generateToken (u : string) :
  preserves store_ok (JWTTokenService.generateToken E u).
Proof. unfold JWTTokenService.generateToken. kept_auto. Qed.

Lemma preserves_getTokenExpiration :
  preserves store_ok (JWTTokenService.getTokenExpiration E).
Proof. unfold JWTTokenService.getTokenExpiration. kept_auto. Qed.

Lemma preserves_validateToken (t : string) :
  preserves store_ok (JWTTokenService.validateToken E t).
Proof. unfold JWTTokenService.validateToken. kept_auto. Qed.

Lemma preserves_findById (i : string) :
  preserves store_ok (InMemoryUserRepository.findById i).
Proof. unfold InMemoryUserRepository.findById. kept_auto. Qed.

Lemma preserves_findByEmail (i : string) :
  preserves store_ok (InMemoryUserRepository.findByEmail i).
Proof. unfold InMemoryUserRepository.findByEmail. kept_auto. Qed.

Lemma preserves_findByUsername (i : string) :
  preserves store_ok (InMemoryUserRepository.findByUsername i).
Proof. unfold InMemoryUserRepository.findByUsername. kept_auto. Qed.

Lemma preserves_hashPassword (p : string) :
  preserves store_ok (BcryptPasswordService.hashPassword E p).
Proof.
  unfold BcryptPasswordService.hashPassword,
    BcryptPasswordService.validatePasswordInput.
  kept_auto.
Qed.

Hint Resolve preserves_generateToken preserves_getTokenExpiration
  preserves_validateToken preserves_findById preserves_findByEmail
  preserves_findByUsername preserves_hashPassword : kept.

Lemma preserves_register (d : UserRegistrationData) :
  preserves store_ok (DefaultAuthService.register E d).
Proof. unfold DefaultAuthService.register. kept_auto. Qed.

Lemma preserves_login (d : UserLoginData) :
  preserves store_ok (DefaultAuthService.login E d).
Proof. unfold DefaultAuthService.login. kept_auto. Qed.

Lemma preserves_auth_validateToken (t : string) :
  preserves store_ok (DefaultAuthService.validateToken E t).
Proof. unfold DefaultAuthService.validateToken. kept_auto. Qed.

Lemma preserves_refreshToken (t : string) :
  preserves store_ok (DefaultAuthService.refreshToken E t).
Proof. unfold DefaultAuthService.refreshToken. kept_auto. Qed.

Lemma preserves_authenticate (a : option string) :
  preserves store_ok (DefaultAuthMiddleware.authenticate E a).
Proof.
  unfold DefaultAuthMiddleware.authenticate,
    DefaultAuthMiddleware.authenticate_body.
  kept_auto.
Qed.

Lemma preserves_assignRole (u r : string) :
  preserves store_ok (UserRepository.assignRole u r).
Proof. unfold UserRepository.assignRole. kept_auto. Qed.

Lemma preserves_removeRole (u r : string) :
  preserves store_ok (UserRepository.removeRole u r).
Proof. unfold UserRepository.removeRole. kept_auto. Qed.

Lemma preserves_findAll (l o : option Z) :
  preserves store_ok (UserRepository.findAll l o).
Proof. unfold UserRepository.findAll. kept_auto. Qed.

Lemma store_ok_perform (op : Operation) (w : World) :
  store_ok w -> store_ok (perform E op w).
Proof.
  destruct op; cbn [perform];
    [ apply preserves_generateToken
    | apply preserves_validateToken
    | apply preserves_revokeToken
    | apply preserves_getTokenExpiration
    | apply preserves_register
    | apply preserves_login
    | apply preserves_auth_validateToken
    | apply preserves_refreshToken
    | apply preserves_revokeToken
    | apply preserves_authenticate
    | apply preserves_setActive ].
Qed.

Lemma store_ok_call (c : Call) (w : World) : store_ok w -> store_ok (call E c w).
Proof.
  destruct c; cbn [call];
    [ apply store_ok_perform
    | apply preserves_create
    | apply preserves_updateLastLogin
    | apply preserves_updatePassword
    | apply preserves_assignRole
    | apply preserves_removeRole
    | apply preserves_findAll
    | apply preserves_delete
    | apply preserves_hashPassword ].
Qed.

Lemma store_ok_call_all (cs : list Call) (w : World) :
  store_ok w -> store_ok (call_all E cs w).
Proof.
  revert w; induction cs as [|c cs IH]; intros w Hok; [exact Hok|].
  cbn [call_all fold_left]. apply IH, store_ok_call, Hok.
Qed.

Lemma store_ok_reachable (w : World) : reachable E w -> store_ok w.
Proof.
  intros (w0 & cs & Hfresh & ->). apply store_ok_call_all, store_ok_fresh, Hfresh.
Qed.

End StoreKeptServices.

(** ** Sample states are reachable *)

Lemma reachable_registered : reachable Run.E1 Run.registered.
Proof.
  exists Run.initial, [Call_operation (Op_register Run.data)].
  split; [repeat split | vm_compute; reflexivity].
Qed.

Lemma store_ok_registered : store_ok Run.registered.
Proof. apply (store_ok_reachable Run.E1), reachable_registered. Qed.

Lemma Map_get_of_In (k : string) (u : User) (m : list (string * User)) :
  NoDup (List.map fst m) -> In (k, u) m ->
  InMemoryUserRepository.Map_get k m = Some u.
Proof.
  induction m as [|[k' v] r IH]; simpl; [tauto|].
  intros Hnd [Heq|Hin].
  - injection Heq as -> ->. rewrite String.eqb_refl. reflexivity.
  - apply NoDup_cons in Hnd as [Hnot Hnd].
    destruct (String.eqb_spec k k') as [->|Hne]; [|auto].
    exfalso. apply Hnot. apply list_elem_of_In. apply in_map_iff.
    exists (k', u). auto.
Qed.

(** ** The repository *)

(** X1. In every state reached from an empty store by calls of the services
    and of the repository ([updateProfile] apart), in whatever order, each
    stored user is found by [findById] under its own id, that id
    is the decimal form of a number below the id counter, no two entries
    share a key, and no user has a role (users are created without roles and
    [assignRole] stores nothing). *)
Theorem reachable_store_shape (E : Env) (w : World) :
  reachable E w ->
  NoDup (List.map fst (users w))
  /\ forall k u,
       In (k, u) (users w) ->
       id u = k
       /\ InMemoryUserRepository.findById k w = (inr (Some u), w)
       /\ (exists n, (n < nextId w)%N /\ k = pretty n)
       /\ roles u = [].
Proof.
  intros Hreach. pose proof (store_ok_reachable E w Hreach) as Hok.
  split; [exact (proj1 Hok)|]. intros k u Hin.
  destruct (store_ok_key_bound w k u Hok Hin) as (H1 & H2 & H3).
  split; [exact H1|]. split; [|split; assumption].
  rewrite findById_eq, (Map_get_of_In k u _ (proj1 Hok) Hin). reflexivity.
Qed.

Lemma reachable_store_shape_witness :
  forallb (fun kv => String.eqb (id (snd kv)) (fst kv)) (users Run.registered) = true
  /\ NoDup (List.map fst (users Run.registered)).
Proof.
  split; [reflexivity|].
  exact (proj1 (reachable_store_shape Run.E1 Run.registered reachable_registered)).
Defined.

(** X2. In a well-shaped store, [create] gives the new user the id counter's
    decimal form as id, an id no stored user has; it appends the user after
    the others, active and without roles, with the hash it was given. Then
    [findById] finds the new user under its id and every other lookup is as
    before. *)
Theorem create_adds_a_fresh_user
  (E : Env) (d : UserRegistrationData) (h : string) (w : World) :
  store_ok w ->
  exists u w',
    InMemoryUserRepository.create E d h w = (inr u, w')
    /\ id u = pretty (nextId w)
    /\ InMemoryUserRepository.Map_get (id u) (users w) = None
    /\ users w' = (users w ++ [(id u, u)])%list
    /\ nextId w' = (nextId w + 1)%N
    /\ InMemoryUserRepository.findById (id u) w' = (inr (Some u), w')
    /\ (forall k, k <> id u ->
                  InMemoryUserRepository.findById k w'
                  = (inr (InMemoryUserRepository.Map_get k (users w)), w'))
    /\ isActive u = true /\ roles u = [] /\ hashedPassword u = h
    /\ email u = reg_email d /\ username u = reg_username d
    /\ createdAt u = clock E (clock_reads w).
Proof.
  intros Hok. pose proof (store_ok_next_key_absent w Hok) as Habs.
  eexists. eexists. split; [apply create_eq|]. cbn [id users nextId].
  split; [reflexivity|]. split; [exact Habs|].
  split; [apply Map_set_new, Habs|]. split; [reflexivity|].
  rewrite !findById_eq. cbn [users].
  split; [rewrite Map_get_set_eq; reflexivity|].
  split; [|repeat split].
  intros k Hk. rewrite findById_eq. cbn [users].
  rewrite Map_get_set_ne by congruence. reflexivity.
Qed.

Lemma create_adds_a_fresh_user_witness :
  exists u w',
    InMemoryUserRepository.create Run.E1 Run.data "salt:hash" Run.registered
    = (inr u, w')
    /\ id u = "2"
    /\ InMemoryUserRepository.findById "2" w' = (inr (Some u), w').
Proof.
  destruct (create_adds_a_fresh_user Run.E1 Run.data "salt:hash" Run.registered
              store_ok_registered)
    as (u & w' & Hc & Hid & _ & _ & _ & Hfind & _).
  exists u, w'. split; [exact Hc|]. split; [exact Hid|].
  rewrite Hid in Hfind. exact Hfind.
Defined.

(** ** Paging *)

Lemma Array_slice_window {A : Type} (l : list A) (o n : nat) :
  Array_slice l (Z.of_nat o) (Some (Z.of_nat o + Z.of_nat n)) = take n (drop o l).
Proof.
  unfold Array_slice.
  destruct (Z.ltb_spec (Z.of_nat o) 0) as [|_]; [lia|].
  destruct (Z.ltb_spec (Z.of_nat o + Z.of_nat n) 0) as [|_]; [lia|].
  destruct (Nat.le_gt_cases o (List.length l)) as [Hle|Hgt].
  - replace (Z.to_nat (Z.min (Z.of_nat o) (Z.of_nat (List.length l)))) with o by lia.
    destruct (Nat.le_gt_cases n (List.length l - o)) as [Hn|Hn].
    + f_equal. lia.
    + rewrite !take_ge; [reflexivity | rewrite length_drop; lia
                        | rewrite length_drop; lia].
  - rewrite !(drop_ge l) by lia. rewrite !take_nil. reflexivity.
Qed.

Lemma Array_slice_from {A : Type} (l : list A) (o : nat) :
  Array_slice l (Z.of_nat o) None = drop o l.
Proof.
  unfold Array_slice.
  destruct (Z.ltb_spec (Z.of_nat o) 0) as [|_]; [lia|].
  destruct (Nat.le_gt_cases o (List.length l)) as [Hle|Hgt].
  - replace (Z.to_nat (Z.min (Z.of_nat o) (Z.of_nat (List.length l)))) with o by lia.
    apply take_ge. rewrite length_drop. lia.
  - rewrite !(drop_ge l) by lia. apply take_nil.
Qed.

(** X3. [findAll] reads the users in insertion order and never changes the
    state. With an offset [o >= 0] and a limit [n >= 1] it returns the [n]
    users that follow the first [o] (fewer at the end of the list). A limit
    that is missing, or [0], means no limit: everything after the first [o]
    users. Two consecutive pages make up the page of twice the size. *)
Theorem findAll_pages (w : World) (o n : nat) :
  (1 <= n)%nat ->
  let all := List.map snd (users w) in
  let page (k : nat) (from : nat) :=
    UserRepository.findAll (Some (Z.of_nat k)) (Some (Z.of_nat from)) w in
  page n o = (inr (take n (drop o all)), w)
  /\ UserRepository.findAll None (Some (Z.of_nat o)) w = (inr (drop o all), w)
  /\ UserRepository.findAll (Some 0) (Some (Z.of_nat o)) w = (inr (drop o all), w)
  /\ UserRepository.findAll (Some (Z.of_nat n)) None w = (inr (take n all), w)
  /\ (forall a b c,
        page n o = (inr a, w) -> page n (o + n)%nat = (inr b, w) ->
        page (n + n)%nat o = (inr c, w) -> c = (a ++ b)%list).
Proof.
  intros Hn all page.
  assert (Hpage : forall k from, (1 <= k)%nat ->
                    page k from = (inr (take k (drop from all)), w)).
  { intros k from Hk. unfold page, UserRepository.findAll.
    rewrite bind_run. cbn [get_world mret M_ret]. fold all.
    destruct (Z.eqb_spec (Z.of_nat k) 0) as [|_]; [lia|].
    destruct (Z.eqb_spec (Z.of_nat from) 0) as [H0|_].
    - assert (from = 0%nat) as -> by lia.
      rewrite <- (Array_slice_window all 0 k). reflexivity.
    - rewrite <- (Array_slice_window all from k). reflexivity. }
  assert (Hfrom : forall lim, (lim = None \/ lim = Some 0) ->
                    UserRepository.findAll lim (Some (Z.of_nat o)) w
                    = (inr (drop o all), w)).
  { intros lim Hlim. unfold UserRepository.findAll.
    rewrite bind_run. cbn [get_world mret M_ret]. fold all.
    assert (Hstop : match lim with
                    | Some l => if l =? 0 then None else Some
                        ((if Z.of_nat o =? 0 then 0 else Z.of_nat o) + l)
                    | None => None
                    end = None) by (destruct Hlim as [-> | ->]; reflexivity).
    rewrite Hstop.
    destruct (Z.eqb_spec (Z.of_nat o) 0) as [H0|_].
    - assert (o = 0%nat) as -> by lia. rewrite <- (Array_slice_from all 0).
      reflexivity.
    - rewrite <- (Array_slice_from all o). reflexivity. }
  split; [apply Hpage, Hn|]. split; [apply Hfrom; auto|].
  split; [apply Hfrom; auto|]. split.
  - unfold UserRepository.findAll. rewrite bind_run. cbn [get_world mret M_ret].
    fold all. destruct (Z.eqb_spec (Z.of_nat n) 0) as [|_]; [lia|].
    rewrite <- (drop_0 all) at 2. rewrite <- (Array_slice_window all 0 n).
    reflexivity.
  - intros a b c. rewrite !Hpage by lia. intros Ha Hb Hc.
    injection Ha as <-. injection Hb as <-. injection Hc as <-.
    rewrite <- (drop_drop all n o). symmetry. apply take_take_drop.
Qed.

Lemma findAll_pages_witness :
  UserRepository.findAll (Some 1) (Some 0) Run.registered
  = (inr (take 1 (List.map snd (users Run.registered))), Run.registered)
  /\ UserRepository.findAll (Some 0) (Some 1) Run.registered = (inr [], Run.registered).
Proof.
  destruct (findAll_pages Run.registered 0 1 (le_n 1)) as (H1 & _).
  destruct (findAll_pages Run.registered 1 1 (le_n 1)) as (_ & _ & H3 & _).
  split; [exact H1 | exact H3].
Defined.

(** ** Registration *)

(** The passwords the policy accepts. *)
Lemma validatePasswordStrength_accepts (password : string) :
  isValid (BcryptPasswordService.validatePasswordStrength password) = true
  <-> (8 <= String.length password)%nat
      /\ (String.length password <= 128)%nat
      /\ Str.existsb BcryptPasswordService.is_uppercase password = true
      /\ Str.existsb BcryptPasswordService.is_lowercase password = true
      /\ Str.existsb BcryptPasswordService.is_digit password = true
      /\ Str.existsb BcryptPasswordService.is_special password = true
      /\ BcryptPasswordService.has_repeated_run password = false
      /\ List.existsb
           (fun common =>
              Str.includes (BcryptPasswordService.toLowerCase password) common)
           BcryptPasswordService.commonPasswords = false.
Proof.
  rewrite validatePasswordStrength_isValid. split.
  - intros Hnil.
    assert (Hno : forall msg,
               ~ In msg (errors (BcryptPasswordService.validatePasswordStrength
                                   password)))
      by (intros msg; rewrite Hnil; simpl; tauto).
    repeat split.
    + apply Nat.nlt_ge. intros H.
      apply (Hno "Password must be at least 8 characters long").
      apply validatePasswordStrength_errors. tauto.
    + apply Nat.nlt_ge. intros H.
      apply (Hno "Password must be no more than 128 characters long").
      apply validatePasswordStrength_errors. tauto.
    + apply not_false_iff_true. intros H.
      apply (Hno "Password must contain at least one uppercase letter").
      apply validatePasswordStrength_errors. tauto.
    + apply not_false_iff_true. intros H.
      apply (Hno "Password must contain at least one lowercase letter").
      apply validatePasswordStrength_errors. tauto.
    + apply not_false_iff_true. intros H.
      apply (Hno "Password must contain at least one number").
      apply validatePasswordStrength_errors. tauto.
    + apply not_false_iff_true. intros H.
      apply (Hno "Password must contain at least one special character").
      apply validatePasswordStrength_errors. tauto.
    + apply not_true_iff_false. intros H.
      apply (Hno "Password cannot contain more than 2 consecutive identical characters").
      apply validatePasswordStrength_errors. tauto.
    + apply not_true_iff_false. intros H.
      apply (Hno "Password cannot contain common words or patterns").
      apply validatePasswordStrength_errors. tauto.
  - intros (H1 & H2 & H3 & H4 & H5 & H6 & H7 & H8).
    destruct (errors (BcryptPasswordService.validatePasswordStrength password))
      as [|msg l] eqn:Herr; [reflexivity|].
    assert (Hin : In msg (errors (BcryptPasswordService.validatePasswordStrength
                                    password)))
      by (rewrite Herr; left; reflexivity).
    apply validatePasswordStrength_errors in Hin.
    exfalso.
    destruct Hin as [[H _]|[[H _]|[[H _]|[[H _]|[[H _]|[[H _]|[[H _]|[H _]]]]]]]];
      try congruence; lia.
Qed.

Lemma Map_find_set_new (p : User -> bool) (k : string) (v : User)
  (m : list (string * User)) :
  InMemoryUserRepository.Map_find p m = None -> p v = true ->
  InMemoryUserRepository.Map_find p (InMemoryUserRepository.Map_set k v m) = Some v.
Proof.
  intros Hnone Hv. induction m as [|[k' v'] r IH]; simpl in *.
  - rewrite Hv. reflexivity.
  - destruct (p v') eqn:Hv'; [discriminate|].
    destruct (String.eqb k k'); simpl.
    + rewrite Hv. reflexivity.
    + rewrite Hv'. apply IH, Hnone.
Qed.

Section RegisterFacts.

Context (E : Env).

(** The user that [register] stores and the state it leaves. *)
Lemma register_eq (d : UserRegistrationData) (w : World) :
  isValid (BcryptPasswordService.validatePasswordStrength (reg_password d)) = true ->
  InMemoryUserRepository.Map_find (fun u => String.eqb (email u) (reg_email d))
                                  (users w) = None ->
  InMemoryUserRepository.Map_find (fun u => String.eqb (username u) (reg_username d))
                                  (users w) = None ->
  let salt := Hex.encode (read_entropy E (entropy_reads w) 16) in
  let h := salt ++ ":" ++ BcryptPasswordService.sha256_hex E (reg_password d ++ salt) in
  let k := pretty (nextId w) in
  let t0 := clock E (clock_reads w) in
  let t1 := clock E (S (clock_reads w)) in
  let t2 := clock E (S (S (clock_reads w))) in
  let u :=
    mkUser k (reg_email d) (reg_username d) h []
           (mkUserProfile (reg_firstName d) (reg_lastName d) (reg_phone d) None None)
           t0 t0 true in
  DefaultAuthService.register E d w
  = (inr (mkAuthenticationResult
            (DefaultAuthService.toUserResponse u)
            (JWTTokenService.createToken E (mkTokenPayload k t1 (t1 + 86400000)))
            (t2 + 86400000)),
     mkWorld (S (S (S (clock_reads w)))) (entropy_reads w + 16)%nat
             (InMemoryUserRepository.Map_set k u (users w))
             (nextId w + 1)%N (revokedTokens w)).
Proof.
  intros Hvalid Hemail Hname. cbv zeta.
  assert (Hlen : String.length (reg_password d) <> 0%nat).
  { apply validatePasswordStrength_accepts in Hvalid as (H & _). lia. }
  unfold DefaultAuthService.register. rewrite Hvalid. cbn [negb].
  rewrite bind_run, findByEmail_eq, Hemail.
  rewrite bind_run, findByUsername_eq, Hname.
  pose proof (hashPassword_eq E (reg_password d) w Hlen) as Hh. cbv zeta in Hh.
  rewrite bind_run, Hh. reflexivity.
Qed.

End RegisterFacts.

(** X4. [register] either throws and leaves the state exactly as it was (no
    id, random byte or clock read is used up), or returns and has appended
    one user. It throws for a password the policy rejects, joining the
    policy's messages; otherwise for an email that is taken; otherwise for a
    username that is taken; and in no other case: the password service's
    [Password cannot be empty] can never come out of it. On success the new
    user has the next id, is active, has no roles, carries the data given,
    and the response is built from that user. *)
Theorem register_outcomes (E : Env) (d : UserRegistrationData) (w : World) :
  store_ok w ->
  let v := BcryptPasswordService.validatePasswordStrength (reg_password d) in
  let by_email :=
    InMemoryUserRepository.Map_find (fun u => String.eqb (email u) (reg_email d))
                                    (users w) in
  let by_username :=
    InMemoryUserRepository.Map_find (fun u => String.eqb (username u) (reg_username d))
                                    (users w) in
  (isValid v = false ->
   DefaultAuthService.register E d w
   = (inl (Error_new ("Password validation failed: " ++ Str.join ", " (errors v))), w))
  /\ (isValid v = true -> by_email <> None ->
      DefaultAuthService.register E d w
      = (inl (UserAlreadyExistsError_new "email" (reg_email d)), w))
  /\ (isValid v = true -> by_email = None -> by_username <> None ->
      DefaultAuthService.register E d w
      = (inl (UserAlreadyExistsError_new "username" (reg_username d)), w))
  /\ (isValid v = true -> by_email = None -> by_username = None ->
      exists u r w',
        DefaultAuthService.register E d w = (inr r, w')
        /\ users w' = (users w ++ [(id u, u)])%list
        /\ nextId w' = (nextId w + 1)%N
        /\ revokedTokens w' = revokedTokens w
        /\ id u = pretty (nextId w)
        /\ email u = reg_email d /\ username u = reg_username d
        /\ isActive u = true /\ roles u = []
        /\ user r = DefaultAuthService.toUserResponse u)
  /\ (forall e w', DefaultAuthService.register E d w = (inl e, w') ->
                   w' = w /\ e <> Error_new "Password cannot be empty").
Proof.
  intros Hok v by_email by_username.
  assert (H1 : isValid v = false ->
               DefaultAuthService.register E d w
               = (inl (Error_new ("Password validation failed: "
                                    ++ Str.join ", " (errors v))), w)).
  { intros Hv. unfold DefaultAuthService.register. fold v. rewrite Hv. reflexivity. }
  assert (H2 : isValid v = true -> by_email <> None ->
               DefaultAuthService.register E d w
               = (inl (UserAlreadyExistsError_new "email" (reg_email d)), w)).
  { intros Hv He. unfold DefaultAuthService.register. fold v. rewrite Hv.
    cbn [negb]. rewrite bind_run, findByEmail_eq. fold by_email.
    destruct by_email; [reflexivity | contradiction]. }
  assert (H3 : isValid v = true -> by_email = None -> by_username <> None ->
               DefaultAuthService.register E d w
               = (inl (UserAlreadyExistsError_new "username" (reg_username d)), w)).
  { intros Hv He Hn. unfold DefaultAuthService.register. fold v. rewrite Hv.
    cbn [negb]. rewrite bind_run, findByEmail_eq. fold by_email. rewrite He.
    rewrite bind_run, findByUsername_eq. fold by_username.
    destruct by_username; [reflexivity | contradiction]. }
  assert (H4 : isValid v = true -> by_email = None -> by_username = None ->
               exists u r w',
                 DefaultAuthService.register E d w = (inr r, w')
                 /\ users w' = (users w ++ [(id u, u)])%list
                 /\ nextId w' = (nextId w + 1)%N
                 /\ revokedTokens w' = revokedTokens w
                 /\ id u = pretty (nextId w)
                 /\ email u = reg_email d /\ username u = reg_username d
                 /\ isActive u = true /\ roles u = []
                 /\ user r = DefaultAuthService.toUserResponse u).
  { intros Hv He Hn. pose proof (register_eq E d w Hv He Hn) as Hr.
    cbv zeta in Hr. eexists. eexists. eexists. split; [exact Hr|].
    cbn [users nextId revokedTokens id email username isActive roles user].
    split; [apply Map_set_new, store_ok_next_key_absent, Hok|].
    repeat split. }
  split; [exact H1|]. split; [exact H2|]. split; [exact H3|]. split; [exact H4|].
  intros e w' Hthrow.
  destruct (isValid v) eqn:Hv.
  - destruct by_email as [u1|] eqn:He.
    + rewrite H2 in Hthrow by (auto; discriminate).
      injection Hthrow as <- <-. split; [reflexivity | discriminate].
    + destruct by_username as [u2|] eqn:Hn.
      * rewrite H3 in Hthrow by (auto; discriminate).
        injection Hthrow as <- <-. split; [reflexivity | discriminate].
      * destruct (H4 eq_refl eq_refl eq_refl) as (u & r & w1 & Hr & _).
        rewrite Hr in Hthrow. discriminate.
  - rewrite H1 in Hthrow by reflexivity. injection Hthrow as <- <-.
    split; [reflexivity|]. unfold Error_new. intros Heq.
    injection Heq as Heq. discriminate Heq.
Qed.

Lemma register_outcomes_witness :
  DefaultAuthService.register Run.E1 Run.data Run.registered
  = (inl (UserAlreadyExistsError_new "email" (reg_email Run.data)), Run.registered).
Proof.
  destruct (register_outcomes Run.E1 Run.data Run.registered store_ok_registered)
    as (_ & H & _).
  apply H; [reflexivity | discriminate].
Defined.

(** ** From registration to the first requests *)

Lemma read_entropy_not_empty (E : Env) (from : nat) :
  String.length (read_entropy E from 16) <> 0%nat.
Proof. rewrite read_entropy_length. discriminate. Qed.

(** The record that [hashPassword] makes verifies the password it was made
    from. *)
Lemma verifyPassword_hashed (E : Env) (password : string) (from : nat) :
  PlatformLaws (platform E) ->
  let salt := Hex.encode (read_entropy E from 16) in
  BcryptPasswordService.verifyPassword E password
    (salt ++ ":" ++ BcryptPasswordService.sha256_hex E (password ++ salt)) = true.
Proof.
  intros laws salt. unfold BcryptPasswordService.sha256_hex, salt.
  rewrite verifyPassword_record.
  - apply String.eqb_refl.
  - apply read_entropy_not_empty.
  - reflexivity.
  - rewrite (sha256_length _ laws). discriminate.
Qed.

Lemma register_succeeded (E : Env) (d : UserRegistrationData) (w w1 : World)
  (r : AuthenticationResult) :
  DefaultAuthService.register E d w = (inr r, w1) ->
  isValid (BcryptPasswordService.validatePasswordStrength (reg_password d)) = true
  /\ InMemoryUserRepository.Map_find (fun u => String.eqb (email u) (reg_email d))
                                     (users w) = None
  /\ InMemoryUserRepository.Map_find (fun u => String.eqb (username u) (reg_username d))
                                     (users w) = None.
Proof.
  unfold DefaultAuthService.register.
  destruct (isValid (BcryptPasswordService.validatePasswordStrength (reg_password d)));
    [|discriminate].
  cbn [negb]. rewrite bind_run, findByEmail_eq.
  destruct (InMemoryUserRepository.Map_find _ (users w)); [discriminate|].
  rewrite bind_run, findByUsername_eq.
  destruct (InMemoryUserRepository.Map_find _ (users w)); [discriminate|].
  auto.
Qed.

(** X5. After a successful [register], a [login] with the same email and
    password succeeds in the state that [register] left. It answers with the
    same user data as the registration did (the snapshot read before the login
    was recorded, so without [lastLoginAt]), and a token issued two clock
    reads later; in the store the user then has [lastLoginAt] set to the first
    of these clock reads and [updatedAt] to the second. *)
Theorem register_then_login
  (E : Env) (d : UserRegistrationData) (w w1 : World) (r : AuthenticationResult) :
  PlatformLaws (platform E) ->
  DefaultAuthService.register E d w = (inr r, w1) ->
  exists r' w2 u,
    DefaultAuthService.login E (mkUserLoginData (reg_email d) (reg_password d)) w1
    = (inr r', w2)
    /\ user r' = user r
    /\ lastLoginAt (resp_profile (user r')) = None
    /\ issued_then_reported E (S (S (clock_reads w1))) r'
    /\ InMemoryUserRepository.Map_get (resp_id (user r)) (users w2) = Some u
    /\ lastLoginAt (profile u) = Some (clock E (clock_reads w1))
    /\ updatedAt u = clock E (S (clock_reads w1))
    /\ hashedPassword u
       = Hex.encode (read_entropy E (entropy_reads w) 16) ++ ":"
         ++ BcryptPasswordService.sha256_hex E
              (reg_password d ++ Hex.encode (read_entropy E (entropy_reads w) 16)).
Proof.
  intros laws Hreg.
  destruct (register_succeeded E d w w1 r Hreg) as (Hv & He & Hn).
  pose proof (register_eq E d w Hv He Hn) as Hr. cbv zeta in Hr.
  rewrite Hr in Hreg. injection Hreg as <- <-.
  set (salt := Hex.encode (read_entropy E (entropy_reads w) 16)) in *.
  set (h := salt ++ ":" ++ BcryptPasswordService.sha256_hex E (reg_password d ++ salt)).
  set (k := pretty (nextId w)).
  set (u := mkUser k (reg_email d) (reg_username d) h []
                   (mkUserProfile (reg_firstName d) (reg_lastName d) (reg_phone d)
                                  None None)
                   (clock E (clock_reads w)) (clock E (clock_reads w)) true).
  set (w1 := mkWorld _ _ _ _ _).
  assert (Hfind : InMemoryUserRepository.Map_find
                    (fun u0 => String.eqb (email u0) (reg_email d)) (users w1)
                  = Some u).
  { apply Map_find_set_new; [exact He | apply String.eqb_refl]. }
  assert (Hget : InMemoryUserRepository.Map_get k (users w1) = Some u)
    by apply Map_get_set_eq.
  assert (Hver : BcryptPasswordService.verifyPassword E (reg_password d) h = true)
    by apply (verifyPassword_hashed E (reg_password d) (entropy_reads w) laws).
  unfold DefaultAuthService.login. cbn [login_email login_password].
  rewrite bind_run, findByEmail_eq, Hfind. cbn [hashedPassword u isActive id].
  fold h. rewrite Hver. cbn [negb].
  unfold InMemoryUserRepository.updateLastLogin.
  rewrite !bind_run. cbn [get_world]. fold k. rewrite Hget.
  eexists. eexists. eexists.
  split; [reflexivity|].
  cbn [user users resp_profile DefaultAuthService.toUserResponse profile
       lastLoginAt resp_id id clock_reads set_users set_clock_reads w1].
  split; [reflexivity|]. split; [reflexivity|].
  split; [split; reflexivity|].
  split; [apply Map_get_set_eq|].
  cbn [profile lastLoginAt updatedAt hashedPassword u]. auto.
Qed.

Lemma register_then_login_witness :
  exists r' w2,
    DefaultAuthService.login Run.E1
Scenario.credentials Run.registered = (inr r', w2)
    /\ lastLoginAt (resp_profile (user r')) = None.
Proof.
  destruct (register_then_login Run.E1 Run.data Run.initial Run.registered
              Scenario.registration_result sample_platform_laws eq_refl)
    as (r' & w2 & u & Hl & _ & Hs & _).
  exists r', w2. split; [exact Hl | exact Hs].
Defined.

Section SessionFacts.

Context (E : Env).

Lemma validateToken_createToken (p : TokenPayload) (w : World) :
  PlatformLaws (platform E) ->
  (JWTTokenService.createToken E p ∉ revokedTokens w) ->
  clock E (clock_reads w) <= payload_expiresAt p ->
  JWTTokenService.validateToken E (JWTTokenService.createToken E p) w
  = (inr (subject (userId p)), set_clock_reads (S (clock_reads w)) w).
Proof.
  intros laws Hnot Hclock.
  rewrite (validateToken_payload_json E _ p w Hnot (decodeToken_createToken E laws p)).
  destruct (Z.gtb_spec (clock E (clock_reads w)) (payload_expiresAt p)); [lia|].
  reflexivity.
Qed.

Lemma createToken_inj (p q : TokenPayload) :
  PlatformLaws (platform E) ->
  JWTTokenService.createToken E p = JWTTokenService.createToken E q -> p = q.
Proof.
  intros laws Heq.
  pose proof (decodeToken_createToken E laws p) as Hp.
  rewrite Heq, (decodeToken_createToken E laws q) in Hp.
  injection Hp as H1 H2 H3. destruct p, q. cbn in *. congruence.
Qed.

Lemma auth_validateToken_revoked (t : string) (w : World) :
  t ∈ revokedTokens w ->
  DefaultAuthService.validateToken E t w = (inl RevokedError, w).
Proof.
  intros Hin. unfold DefaultAuthService.validateToken.
  rewrite bind_run, validateToken_revoked by exact Hin. reflexivity.
Qed.

Lemma refreshToken_revoked (t : string) (w : World) :
  t ∈ revokedTokens w ->
  DefaultAuthService.refreshToken E t w = (inl RevokedError, w).
Proof.
  intros Hin. unfold DefaultAuthService.refreshToken.
  rewrite bind_run, validateToken_revoked by exact Hin. reflexivity.
Qed.

Lemma authenticate_revoked (a : option string) (t : string) (w : World) :
  DefaultAuthMiddleware.extractToken a = Some t ->
  String.length t <> 0%nat ->
  t ∈ revokedTokens w ->
  DefaultAuthMiddleware.authenticate E a w
  = (inr (Respond 401 "Token has been revoked"), w).
Proof.
  intros Hex Hlen Hin.
  unfold DefaultAuthMiddleware.authenticate, try_catch,
    DefaultAuthMiddleware.authenticate_body.
  rewrite Hex. apply Nat.eqb_neq in Hlen. rewrite Hlen.
  rewrite bind_run, validateToken_revoked by exact Hin. reflexivity.
Qed.

End SessionFacts.

(** X6. The token that a successful [register] hands out is accepted in the
    state [register] leaves, provided that very string had not been revoked
    beforehand and the clock has not passed the token's expiry:
    [validateToken] of the authentication service answers with the user data
    of the registration, the middleware lets a header that carries the token
    through with the same data, and [refreshToken] answers with it too. *)
Theorem registration_token_is_accepted
  (E : Env) (d : UserRegistrationData) (w w1 : World) (r : AuthenticationResult) :
  PlatformLaws (platform E) ->
  DefaultAuthService.register E d w = (inr r, w1) ->
  (token r ∉ revokedTokens w) ->
  clock E (clock_reads w1) <= clock E (S (clock_reads w)) + 86400000 ->
  let w2 := set_clock_reads (S (clock_reads w1)) w1 in
  DefaultAuthService.validateToken E (token r) w1 = (inr (user r), w2)
  /\ (forall a,
        DefaultAuthMiddleware.extractToken a = Some (token r) ->
        DefaultAuthMiddleware.authenticate E a w1 = (inr (Next (user r)), w2))
  /\ exists r' w3,
       DefaultAuthService.refreshToken E (token r) w1 = (inr r', w3)
       /\ user r' = user r.
Proof.
  intros laws Hreg Hnot Hclock w2.
  destruct (register_succeeded E d w w1 r Hreg) as (Hv & He & Hn).
  pose proof (register_eq E d w Hv He Hn) as Hr. cbv zeta in Hr.
  rewrite Hr in Hreg. injection Hreg as <- <-.
  cbn [token user] in *.
  set (k := pretty (nextId w)) in *.
  set (u := mkUser k _ _ _ _ _ _ _ _) in *.
  set (p := mkTokenPayload k _ _) in *.
  set (w1 := mkWorld _ _ _ _ _) in *.
  assert (Hval : JWTTokenService.validateToken E (JWTTokenService.createToken E p) w1
                 = (inr (subject k), w2)).
  { apply (validateToken_createToken E p w1 laws); [exact Hnot | exact Hclock]. }
  assert (Hget : InMemoryUserRepository.Map_get_any (subject k) (users w1) = Some u)
    by apply Map_get_set_eq.
  split; [|split].
  - rewrite (auth_validateToken_after E _ _ w1 w2 Hval), Hget. reflexivity.
  - intros a Hex.
    rewrite (authenticate_after E a _ _ w1 w2 Hex
               (validated_token_not_empty E _ _ w1 w2 Hval) Hval), Hget.
    reflexivity.
  - unfold DefaultAuthService.refreshToken.
    rewrite bind_run, Hval, bind_run, findById_any_eq.
    change (users w2) with (users w1). rewrite Hget. cbn [isActive u negb].
    eexists. eexists. split; [reflexivity|]. reflexivity.
Qed.

Lemma registration_token_is_accepted_witness :
  DefaultAuthMiddleware.authenticate Run.E1 Scenario.bearer Run.registered
  = (inr (Next (user Scenario.registration_result)),
     set_clock_reads 4 Run.registered).
Proof.
  destruct (registration_token_is_accepted Run.E1 Run.data Run.initial Run.registered
              Scenario.registration_result sample_platform_laws eq_refl)
    as (_ & H & _).
  - vm_compute. set_solver.
  - vm_compute. discriminate.
  - apply H. vm_compute. reflexivity.
Defined.

(** X7. [logout] accepts any string, never throws, and adds exactly that
    string to the revocation set, touching nothing else. From then on the
    token service, the authentication service's [validateToken] and
    [refreshToken] all throw [Token has been revoked] for it and the middleware
    answers 401 with that message; for every other string the token service
    decides as it did before. Logging out twice is the same as once. *)
Theorem logout_revokes_that_token_only (E : Env) (t : string) (w : World) :
  let w1 := snd (DefaultAuthService.logout t w) in
  DefaultAuthService.logout t w = (inr tt, w1)
  /\ (forall t', t' ∈ revokedTokens w1 <-> t' = t \/ t' ∈ revokedTokens w)
  /\ users w1 = users w /\ nextId w1 = nextId w
  /\ clock_reads w1 = clock_reads w /\ entropy_reads w1 = entropy_reads w
  /\ JWTTokenService.validateToken E t w1 = (inl RevokedError, w1)
  /\ DefaultAuthService.validateToken E t w1 = (inl RevokedError, w1)
  /\ DefaultAuthService.refreshToken E t w1 = (inl RevokedError, w1)
  /\ (forall a,
        DefaultAuthMiddleware.extractToken a = Some t ->
        String.length t <> 0%nat ->
        DefaultAuthMiddleware.authenticate E a w1
        = (inr (Respond 401 "Token has been revoked"), w1))
  /\ (forall t', t' <> t ->
                 fst (JWTTokenService.validateToken E t' w1)
                 = fst (JWTTokenService.validateToken E t' w))
  /\ snd (DefaultAuthService.logout t w1) = w1.
Proof.
  intros w1.
  assert (Hin : t ∈ revokedTokens w1) by apply revokeToken_adds.
  split; [reflexivity|].
  split; [intros t'; unfold w1; cbn; rewrite elem_of_union, elem_of_singleton; tauto|].
  do 4 (split; [reflexivity|]).
  split; [apply validateToken_revoked, Hin|].
  split; [apply auth_validateToken_revoked, Hin|].
  split; [apply refreshToken_revoked, Hin|].
  split; [intros a Hex Hlen; apply authenticate_revoked with t; assumption|].
  split.
  - intros t' Hne.
    destruct (decide (t' ∈ revokedTokens w)) as [Hold|Hnew].
    + rewrite !validateToken_revoked; [reflexivity | exact Hold |].
      apply elem_of_union. right. exact Hold.
    + rewrite !validateToken_not_revoked; [| exact Hnew |].
      * destruct (JWTTokenService.decodeToken E t'); reflexivity.
      * intros Hin'. apply elem_of_union in Hin' as [Hin'|Hin']; [|tauto].
        apply elem_of_singleton in Hin'. tauto.
  - destruct w as [c e us n rv]. unfold w1. cbn.
    unfold set_revokedTokens. cbn. f_equal.
    apply set_eq. intros x. rewrite !elem_of_union. tauto.
Qed.

(** X8. Two tokens issued by [generateToken] are the same string exactly when
    they were issued for the same user id at the same clock value. So tokens of
    different users never coincide, and neither do two tokens of one user
    issued at different milliseconds. *)
Theorem issued_tokens_differ
  (E : Env) (u1 u2 : string) (w1 w2 : World) (t1 t2 : string) (w1' w2' : World) :
  PlatformLaws (platform E) ->
  JWTTokenService.generateToken E u1 w1 = (inr t1, w1') ->
  JWTTokenService.generateToken E u2 w2 = (inr t2, w2') ->
  (t1 = t2 <-> u1 = u2 /\ clock E (clock_reads w1) = clock E (clock_reads w2)).
Proof.
  intros laws H1 H2. rewrite generateToken_eq in H1, H2.
  injection H1 as <- _. injection H2 as <- _. split.
  - intros Heq. apply (createToken_inj E _ _ laws) in Heq.
    injection Heq as -> ->. auto.
  - intros [-> ->]. reflexivity.
Qed.

Lemma issued_tokens_differ_witness :
  fst (JWTTokenService.generateToken Run.E1 "1" Run.initial)
  <> fst (JWTTokenService.generateToken Run.E1 "2" Run.initial).
Proof.
  intros Heq.
  destruct (JWTTokenService.generateToken Run.E1 "1" Run.initial) as [[e1|t1] w1'] eqn:H1;
    [discriminate H1|].
  destruct (JWTTokenService.generateToken Run.E1 "2" Run.initial) as [[e2|t2] w2'] eqn:H2;
    [discriminate H2|].
  cbn [fst] in Heq. injection Heq as Heq.
  apply (issued_tokens_differ Run.E1 "1" "2" Run.initial Run.initial t1 t2 w1' w2'
           sample_platform_laws H1 H2) in Heq.
  destruct Heq as [Heq _]. discriminate Heq.
Defined.

(** ** Deactivated and deleted users *)

Lemma Map_find_set_same (p : User -> bool) (k : string) (u v : User)
  (m : list (string * User)) :
  (forall k' x, In (k', x) m -> id x = k') ->
  InMemoryUserRepository.Map_find p m = Some u -> id u = k -> p v = true ->
  InMemoryUserRepository.Map_find p (InMemoryUserRepository.Map_set k v m) = Some v.
Proof.
  intros Hids Hfind Hid Hv. induction m as [|[k' x] r IH]; simpl in *; [discriminate|].
  destruct (p x) eqn:Hx.
  - injection Hfind as ->. rewrite (Hids k' u) in Hid by auto. subst k'.
    rewrite String.eqb_refl. simpl. rewrite Hv. reflexivity.
  - destruct (String.eqb k k'); simpl.
    + rewrite Hv. reflexivity.
    + rewrite Hx. apply IH; [|exact Hfind]. intros k'' y Hin. apply Hids. auto.
Qed.

Lemma store_ok_ids (w : World) :
  store_ok w -> forall k x, In (k, x) (users w) -> id x = k.
Proof. intros Hok k x Hin. apply (store_ok_key_bound w k x Hok Hin). Qed.

Lemma setActive_eq (E : Env) (uid : string) (b : bool) (u : User) (w : World) :
  InMemoryUserRepository.Map_get uid (users w) = Some u ->
  InMemoryUserRepository.setActive E uid b w
  = (inr tt,
     mkWorld (S (clock_reads w)) (entropy_reads w)
       (InMemoryUserRepository.Map_set uid
          (mkUser (id u) (email u) (username u) (hashedPassword u) (roles u)
                  (profile u) (createdAt u) (clock E (clock_reads w)) b)
          (users w))
       (nextId w) (revokedTokens w)).
Proof.
  intros Hget. unfold InMemoryUserRepository.setActive.
  rewrite bind_run. cbn [get_world]. rewrite Hget. reflexivity.
Qed.

(** X9. Deactivating a stored user revokes nothing, yet locks the user out:
    in the state it leaves, a token of that user which the token service
    still accepts is refused with [User account is deactivated] by the
    authentication service's [validateToken] and [refreshToken], and with 403
    by the middleware. A login with the right password throws the same error;
    one with a wrong password throws the usual [InvalidCredentialsError], as
    for an active user. Activating the user again lets the same tokens
    through. *)
Theorem deactivation_locks_the_user_out
  (E : Env) (uid : string) (u : User) (w : World) :
  store_ok w ->
  InMemoryUserRepository.Map_get uid (users w) = Some u ->
  let w1 := snd (InMemoryUserRepository.setActive E uid false w) in
  let w2 := snd (InMemoryUserRepository.setActive E uid true w1) in
  InMemoryUserRepository.setActive E uid false w = (inr tt, w1)
  /\ revokedTokens w1 = revokedTokens w
  /\ (forall t w',
        JWTTokenService.validateToken E t w1 = (inr (subject uid), w') ->
        DefaultAuthService.validateToken E t w1 = (inl AccountDisabledError, w')
        /\ DefaultAuthService.refreshToken E t w1 = (inl AccountDisabledError, w')
        /\ forall a,
             DefaultAuthMiddleware.extractToken a = Some t ->
             DefaultAuthMiddleware.authenticate E a w1
             = (inr (Respond 403 "User account is deactivated"), w'))
  /\ (forall d,
        InMemoryUserRepository.Map_find
          (fun x => String.eqb (email x) (login_email d)) (users w) = Some u ->
        DefaultAuthService.login E d w1
        = (inl (if BcryptPasswordService.verifyPassword E (login_password d)
                     (hashedPassword u)
                then AccountDisabledError else InvalidCredentialsError_new), w1))
  /\ (forall t w',
        JWTTokenService.validateToken E t w2 = (inr (subject uid), w') ->
        DefaultAuthService.validateToken E t w2
        = (inr (mkUserResponse (id u) (email u) (username u) (roles u) (profile u)
                               (createdAt u) true), w')).
Proof.
  intros Hok Hget w1 w2.
  pose proof (setActive_eq E uid false u w Hget) as H1.
  set (u1 := mkUser _ _ _ _ _ _ _ _ false) in H1.
  assert (Hw1 : users w1 = InMemoryUserRepository.Map_set uid u1 (users w))
    by (unfold w1; rewrite H1; reflexivity).
  assert (Hget1 : InMemoryUserRepository.Map_get uid (users w1) = Some u1)
    by (rewrite Hw1; apply Map_get_set_eq).
  pose proof (setActive_eq E uid true u1 w1 Hget1) as H2.
  set (u2 := mkUser _ _ _ _ _ _ _ _ true) in H2.
  assert (Hget2 : InMemoryUserRepository.Map_get uid (users w2) = Some u2)
    by (unfold w2; rewrite H2; apply Map_get_set_eq).
  split; [unfold w1; rewrite H1; reflexivity|].
  split; [unfold w1; rewrite H1; reflexivity|].
  split; [|split].
  - intros t w' Hv. split; [|split].
    + rewrite (auth_validateToken_after E t _ w1 w' Hv), Map_get_any_subject, Hget1. reflexivity.
    + unfold DefaultAuthService.refreshToken.
      rewrite bind_run, Hv, bind_run, findById_any_eq.
      destruct (validateToken_returned E t _ w1 w' Hv) as (_ & -> & _).
      cbn [users set_clock_reads]. rewrite Map_get_any_subject. rewrite Hget1. reflexivity.
    + intros a Hex.
      rewrite (authenticate_after E a t _ w1 w' Hex
                 (validated_token_not_empty E t _ w1 w' Hv) Hv),
                 Map_get_any_subject, Hget1.
      reflexivity.
  - intros d Hfind.
    assert (Hfind1 : InMemoryUserRepository.Map_find
                       (fun x => String.eqb (email x) (login_email d)) (users w1)
                     = Some u1).
    { rewrite Hw1. apply Map_find_set_same with u.
      - apply store_ok_ids, Hok.
      - exact Hfind.
      - apply (store_ok_key_bound w uid u Hok (Map_get_In _ _ _ Hget)).
      - cbn [email u1].
        clear -Hfind. induction (users w) as [|[k x] r IH]; simpl in Hfind;
          [discriminate|].
        destruct (String.eqb (email x) (login_email d)) eqn:Hx; [|auto].
        injection Hfind as <-. exact Hx. }
    unfold DefaultAuthService.login.
    rewrite bind_run, findByEmail_eq, Hfind1. cbn [hashedPassword u1 isActive].
    destruct (BcryptPasswordService.verifyPassword E (login_password d)
                (hashedPassword u)); reflexivity.
  - intros t w' Hv.
    rewrite (auth_validateToken_after E t _ w2 w' Hv), Map_get_any_subject, Hget2. reflexivity.
Qed.

Lemma deactivation_locks_the_user_out_witness :
  DefaultAuthService.login Run.E1 Scenario.credentials Run.deactivated
  = (inl AccountDisabledError, Run.deactivated).
Proof.
  destruct (deactivation_locks_the_user_out Run.E1 "1"
              Scenario.stored_user
              Run.registered store_ok_registered eq_refl)
    as (_ & _ & _ & H & _).
  apply (H Scenario.credentials). reflexivity.
Defined.

(** *** An id that was deleted is never used again *)

Section Invariant.

Context (E : Env) (I : World -> Prop).
Context (I_Date_now : preserves I (Date_now E)).
Context (I_randomBytes : forall n, preserves I (randomBytes E n)).
Context (I_revokeToken : forall t, preserves I (JWTTokenService.revokeToken t)).
Context (I_create : forall d h, preserves I (InMemoryUserRepository.create E d h)).
Context (I_updateLastLogin :
           forall i, preserves I (InMemoryUserRepository.updateLastLogin E i)).
Context (I_setActive :
           forall i b, preserves I (InMemoryUserRepository.setActive E i b)).
Context (I_updatePassword :
           forall i h, preserves I (UserRepository.updatePassword E i h)).
Context (I_delete : forall i, preserves I (UserRepository.delete i)).

(** An invariant of the primitive steps is an invariant of every call. *)
Lemma invariant_call (c : Call) : forall w, I w -> I (call E c w).
Proof.
  change (forall w, I w -> I (call E c w))
    with (preserves I (fun w => (inr tt : JsError + unit, call E c w))).
  assert (Hsnd : forall A (m : M A),
             preserves I m ->
             preserves I (fun w => (inr tt : JsError + unit, snd (m w))))
    by (intros A m Hm w Hw; apply Hm, Hw).
  destruct c as [op| | | | | | | |]; [destruct op|..]; cbn [call perform];
    apply Hsnd;
    unfold DefaultAuthService.register, DefaultAuthService.login,
      DefaultAuthService.validateToken, DefaultAuthService.refreshToken,
      DefaultAuthService.logout, DefaultAuthMiddleware.authenticate,
      DefaultAuthMiddleware.authenticate_body,
      UserRepository.assignRole, UserRepository.removeRole, UserRepository.findAll,
      BcryptPasswordService.hashPassword, BcryptPasswordService.validatePasswordInput,
      JWTTokenService.generateToken, JWTTokenService.validateToken,
      JWTTokenService.getTokenExpiration,
      InMemoryUserRepository.findById, InMemoryUserRepository.findByEmail,
      InMemoryUserRepository.findByUsername;
    kept_auto.
Qed.

Lemma invariant_call_all (cs : list Call) : forall w, I w -> I (call_all E cs w).
Proof.
  induction cs as [|c cs IH]; intros w Hw; [exact Hw|].
  cbn [call_all fold_left]. apply IH, invariant_call, Hw.
Qed.

End Invariant.

Lemma retired_replace (uid k : string) (u v : User) (w w' : World) :
  retired uid w ->
  InMemoryUserRepository.Map_get k (users w) = Some u ->
  store_ok w' ->
  users w' = InMemoryUserRepository.Map_set k v (users w) ->
  nextId w' = nextId w ->
  retired uid w'.
Proof.
  intros (Hok & Hn & Hnone) Hget Hok' Hu Hid. split; [exact Hok'|].
  rewrite Hu, Hid. split; [exact Hn|].
  rewrite Map_get_set_ne; [exact Hnone|]. intros ->. congruence.
Qed.

Lemma retired_call_all (E : Env) (uid : string) (cs : list Call) (w : World) :
  retired uid w -> retired uid (call_all E cs w).
Proof.
  apply invariant_call_all.
  - intros w0 H. exact H.
  - intros n w0 H. exact H.
  - intros t w0 H. exact H.
  - intros d h w0 H. pose proof (preserves_create E d h w0 (proj1 H)) as Hok'.
    rewrite create_eq in *. cbn [snd] in *. destruct H as (Hok & (n & Hlt & ->) & Hnone).
    split; [exact Hok'|]. cbn [users nextId]. split; [exists n; split; [lia | reflexivity]|].
    rewrite Map_get_set_ne; [exact Hnone|]. intros Heq. apply (inj pretty) in Heq. lia.
  - intros i w0 H. pose proof (preserves_updateLastLogin E i w0 (proj1 H)) as Hok'.
    unfold InMemoryUserRepository.updateLastLogin in *. rewrite bind_run in *.
    cbn [get_world] in *.
    destruct (InMemoryUserRepository.Map_get i (users w0)) as [u|] eqn:Hget;
      [|exact H].
    eapply retired_replace; [exact H | exact Hget | exact Hok' | reflexivity..].
  - intros i b w0 H. pose proof (preserves_setActive E i b w0 (proj1 H)) as Hok'.
    unfold InMemoryUserRepository.setActive in *. rewrite bind_run in *.
    cbn [get_world] in *.
    destruct (InMemoryUserRepository.Map_get i (users w0)) as [u|] eqn:Hget;
      [|exact H].
    eapply retired_replace; [exact H | exact Hget | exact Hok' | reflexivity..].
  - intros i h w0 H. pose proof (preserves_updatePassword E i h w0 (proj1 H)) as Hok'.
    unfold UserRepository.updatePassword in *. rewrite bind_run in *.
    cbn [get_world] in *.
    destruct (InMemoryUserRepository.Map_get i (users w0)) as [u|] eqn:Hget;
      [|exact H].
    eapply retired_replace; [exact H | exact Hget | exact Hok' | reflexivity..].
  - intros i w0 H. pose proof (preserves_delete i w0 (proj1 H)) as Hok'.
    destruct H as (Hok & Hn & Hnone). split; [exact Hok'|]. split; [exact Hn|].
    cbn [snd UserRepository.delete users set_users].
    destruct (String.eqb_spec i uid) as [->|Hne].
    + apply Map_get_delete_eq, (proj1 Hok).
    + rewrite Map_get_delete_ne; [exact Hnone | exact Hne].
Qed.

(** X10. Once a stored user has been deleted, no user is ever stored under
    that id again, whichever calls of the services and of the repository
    ([updateProfile] apart) follow: ids come from a counter that [delete] does
    not reset. So a token of the deleted user that the token
    service still accepts never authenticates anyone: the authentication
    service throws [User not found], the middleware answers 401. *)
Theorem deleted_id_is_never_reused
  (E : Env) (uid : string) (u : User) (w : World) (cs : list Call) :
  store_ok w ->
  InMemoryUserRepository.Map_get uid (users w) = Some u ->
  let w1 := call_all E cs (snd (UserRepository.delete uid w)) in
  InMemoryUserRepository.findById uid w1 = (inr None, w1)
  /\ forall t w',
       JWTTokenService.validateToken E t w1 = (inr (subject uid), w') ->
       DefaultAuthService.validateToken E t w1 = (inl (UserNotFoundError_new uid), w')
       /\ DefaultAuthService.refreshToken E t w1
          = (inl (UserNotFoundError_new uid), w')
       /\ forall a,
            DefaultAuthMiddleware.extractToken a = Some t ->
            DefaultAuthMiddleware.authenticate E a w1
            = (inr (Respond 401 "Invalid authentication token"), w').
Proof.
  intros Hok Hget w1.
  assert (Hret : retired uid w1).
  { apply retired_call_all. split; [apply preserves_delete, Hok|]. split.
    - apply (store_ok_key_bound w uid u Hok (Map_get_In _ _ _ Hget)).
    - apply Map_get_delete_eq, (proj1 Hok). }
  destruct Hret as (_ & _ & Hnone).
  split; [rewrite findById_eq, Hnone; reflexivity|].
  intros t w' Hv. split; [|split].
  - rewrite (auth_validateToken_after E t _ w1 w' Hv), Map_get_any_subject, Hnone. reflexivity.
  - unfold DefaultAuthService.refreshToken.
    rewrite bind_run, Hv, bind_run, findById_any_eq.
    destruct (validateToken_returned E t _ w1 w' Hv) as (_ & -> & _).
    cbn [users set_clock_reads]. rewrite Map_get_any_subject. rewrite Hnone. reflexivity.
  - intros a Hex.
    rewrite (authenticate_after E a t _ w1 w' Hex
               (validated_token_not_empty E t _ w1 w' Hv) Hv),
               Map_get_any_subject, Hnone.
    reflexivity.
Qed.

Lemma deleted_id_is_never_reused_witness :
  InMemoryUserRepository.findById "1"
    (call_all Run.E1 [Call_create Run.data "salt:hash"] Scenario.deleted)
  = (inr None, call_all Run.E1 [Call_create Run.data "salt:hash"] Scenario.deleted).
Proof.
  exact (proj1 (deleted_id_is_never_reused Run.E1 "1"
                  Scenario.stored_user
                  Run.registered [Call_create Run.data "salt:hash"]
                  store_ok_registered eq_refl)).
Defined.

(** X11. [delete] never throws. In a well-shaped store it removes the user
    stored under the id and nothing else: [findById] of that id then finds
    nothing, every other id is found as before, the users that remain keep
    their order, and the id counter is unchanged. Deleting an id that is not
    stored changes nothing. *)
Theorem delete_removes_one_user (uid : string) (w : World) :
  store_ok w ->
  let w1 := snd (UserRepository.delete uid w) in
  UserRepository.delete uid w = (inr tt, w1)
  /\ InMemoryUserRepository.findById uid w1 = (inr None, w1)
  /\ (forall k, k <> uid ->
                InMemoryUserRepository.findById k w1
                = (inr (InMemoryUserRepository.Map_get k (users w)), w1))
  /\ users w1 = List.filter (fun kv => negb (String.eqb uid (fst kv))) (users w)
  /\ nextId w1 = nextId w
  /\ (InMemoryUserRepository.Map_get uid (users w) = None -> w1 = w).
Proof.
  intros Hok w1. split; [reflexivity|].
  split; [rewrite findById_eq; unfold w1; cbn;
          rewrite Map_get_delete_eq by apply (proj1 Hok); reflexivity|].
  split.
  { intros k Hk. rewrite findById_eq. unfold w1. cbn.
    rewrite Map_get_delete_ne by congruence. reflexivity. }
  split.
  { unfold w1. cbn. destruct Hok as [Hnd _]. clear w1.
    induction (users w) as [|[k v] r IH]; [reflexivity|].
    simpl in *. apply NoDup_cons in Hnd as [Hnot Hnd].
    destruct (String.eqb_spec uid k) as [->|Hne]; simpl.
    - rewrite <- (Map_delete_absent k r) at 1.
      + apply IH, Hnd.
      + apply Map_get_None. intros Hin. apply Hnot, list_elem_of_In, Hin.
    - f_equal. apply IH, Hnd. }
  split; [reflexivity|].
  intros Hnone. unfold w1. cbn. rewrite Map_delete_absent by exact Hnone.
  destruct w; reflexivity.
Qed.

Lemma delete_removes_one_user_witness :
  InMemoryUserRepository.findById "1" Scenario.deleted = (inr None, Scenario.deleted)
  /\ snd (UserRepository.delete "7" Run.registered) = Run.registered.
Proof.
  destruct (delete_removes_one_user "1" Run.registered store_ok_registered)
    as (_ & H1 & _).
  destruct (delete_removes_one_user "7" Run.registered store_ok_registered)
    as (_ & _ & _ & _ & _ & H2).
  split; [exact H1 | apply H2; reflexivity].
Defined.

(** ** Password records *)

Lemma split_cons_inv (sep : ascii) (s a : string) (rest : list string) :
  Str.split sep s = a :: rest ->
  Str.free_of sep a = true
  /\ ((rest = [] /\ s = a)
      \/ exists b, s = a ++ String sep b /\ Str.split sep b = rest).
Proof.
  revert a rest. induction s as [|c r IH]; intros a rest; simpl.
  - intros H. injection H as <- <-. auto.
  - destruct (Ascii.eqb_spec c sep) as [->|Hne].
    + intros H. injection H as <- <-. split; [reflexivity|].
      right. exists r. auto.
    + destruct (Str.split sep r) as [|x xs] eqn:Hsplit.
      * exfalso. exact (split_not_nil sep r Hsplit).
      * intros H. injection H as <- <-.
        destruct (IH x xs eq_refl) as (Hfree & Hcases).
        split.
        { simpl. rewrite Hfree. apply Ascii.eqb_neq in Hne. rewrite Hne. reflexivity. }
        destruct Hcases as [[-> ->] | (b & -> & Hb)]; [left; auto|].
        right. exists b. auto.
Qed.

Lemma timingSafeEqual_true (a b : string) :
  BcryptPasswordService.timingSafeEqual a b = inr true <-> a = b.
Proof.
  unfold BcryptPasswordService.timingSafeEqual. split.
  - destruct (Nat.eqb (String.length a) (String.length b)); [|discriminate].
    intros H. injection H as H. apply String.eqb_eq, H.
  - intros ->. rewrite Nat.eqb_refl, String.eqb_refl. reflexivity.
Qed.

(** X12. [verifyPassword] accepts a stored record exactly when its first two
    pieces between colons, the salt and the hash, are both non-empty and the
    hash is the hexadecimal form (as [Buffer.from] reads it) of the SHA-256
    digest of the password followed by the salt. Whatever follows a second
    colon is ignored, and a record without a colon is never accepted. *)
Theorem verifyPassword_accepts_iff (E : Env) (password record : string) :
  (BcryptPasswordService.verifyPassword E password record = true
   <-> exists salt hash rest,
         Str.split Str.colon record = salt :: hash :: rest
         /\ salt <> "" /\ hash <> ""
         /\ Hex.decode hash = sha256 (platform E) (password ++ salt))
  /\ (Str.free_of Str.colon record = true ->
      BcryptPasswordService.verifyPassword E password record = false)
  /\ (forall salt hash junk,
        Str.free_of Str.colon salt = true -> Str.free_of Str.colon hash = true ->
        BcryptPasswordService.verifyPassword E password
          (salt ++ ":" ++ hash ++ ":" ++ junk)
        = BcryptPasswordService.verifyPassword E password (salt ++ ":" ++ hash)).
Proof.
  assert (Hiff : forall r,
             BcryptPasswordService.verifyPassword E password r = true
             <-> exists salt hash rest,
                   Str.split Str.colon r = salt :: hash :: rest
                   /\ salt <> "" /\ hash <> ""
                   /\ Hex.decode hash = sha256 (platform E) (password ++ salt)).
  { intros r. unfold BcryptPasswordService.verifyPassword,
      BcryptPasswordService.sha256_hex.
    destruct (Str.split Str.colon r) as [|salt [|hash rest]].
    - split; [discriminate | intros (? & ? & ? & H & _); discriminate].
    - split; [discriminate | intros (? & ? & ? & H & _); discriminate].
    - rewrite hex_decode_encode. split.
      + destruct salt as [|c1 salt']; [discriminate|].
        destruct hash as [|c2 hash']; [discriminate|]. cbn [String.length Nat.eqb orb].
        destruct (BcryptPasswordService.timingSafeEqual _ _) as [e|[|]] eqn:Ht;
          try discriminate.
        intros _. apply timingSafeEqual_true in Ht.
        exists (String c1 salt'), (String c2 hash'), rest.
        repeat split; [discriminate | discriminate | exact Ht].
      + intros (s & h & rest' & Heq & Hs & Hh & Hdec). injection Heq as <- <- <-.
        destruct salt as [|c1 salt']; [contradiction|].
        destruct hash as [|c2 hash']; [contradiction|]. cbn [String.length Nat.eqb orb].
        apply timingSafeEqual_true in Hdec. rewrite Hdec. reflexivity. }
  split; [apply Hiff|]. split.
  - intros Hfree. apply not_true_iff_false. intros H.
    apply Hiff in H as (s & h & rest & Hsplit & _).
    rewrite (split_free_of _ _ Hfree) in Hsplit. discriminate.
  - intros salt hash junk Hs Hh.
    unfold BcryptPasswordService.verifyPassword.
    change (salt ++ ":" ++ hash ++ ":" ++ junk)
      with (salt ++ String Str.colon (hash ++ String Str.colon junk)).
    change (salt ++ ":" ++ hash) with (salt ++ String Str.colon hash).
    rewrite !split_app_sep by assumption.
    rewrite (split_free_of _ _ Hh). reflexivity.
Qed.

Lemma hex_encode_inj (a b : string) : Hex.encode a = Hex.encode b -> a = b.
Proof.
  intros H. apply (f_equal Hex.decode) in H. rewrite !hex_decode_encode in H. exact H.
Qed.

(** X13. [hashPassword] throws [Password cannot be empty] for the empty
    password, without reading any random byte. For any other password it
    reads exactly 16 random bytes and returns a record of 97 characters: 32
    hexadecimal digits of salt, one colon, 64 hexadecimal digits of hash, so
    that splitting at colons gives back exactly these two pieces. Two records
    made for the same password are equal exactly when the random bytes read
    were the same. *)
Theorem hashPassword_record_shape (E : Env) (password : string) (w : World) :
  PlatformLaws (platform E) ->
  (password = "" ->
   BcryptPasswordService.hashPassword E password w
   = (inl (Error_new "Password cannot be empty"), w))
  /\ (password <> "" ->
      exists salt hash,
        BcryptPasswordService.hashPassword E password w
        = (inr (salt ++ ":" ++ hash), set_entropy_reads (entropy_reads w + 16)%nat w)
        /\ String.length salt = 32%nat /\ String.length hash = 64%nat
        /\ String.length (salt ++ ":" ++ hash) = 97%nat
        /\ Str.split Str.colon (salt ++ ":" ++ hash) = [salt; hash]
        /\ forall w2 record2 w2',
             BcryptPasswordService.hashPassword E password w2 = (inr record2, w2') ->
             (salt ++ ":" ++ hash = record2
              <-> read_entropy E (entropy_reads w) 16
                  = read_entropy E (entropy_reads w2) 16)).
Proof.
  intros laws. split; [intros ->; reflexivity|]. intros Hne.
  assert (Hlen : String.length password <> 0%nat)
    by (destruct password; [contradiction | discriminate]).
  pose proof (hashPassword_eq E password w Hlen) as Hh. cbv zeta in Hh.
  set (bytes := read_entropy E (entropy_reads w) 16) in *.
  exists (Hex.encode bytes),
         (BcryptPasswordService.sha256_hex E (password ++ Hex.encode bytes)).
  assert (Hs : String.length (Hex.encode bytes) = 32%nat)
    by (rewrite hex_encode_length; unfold bytes; rewrite read_entropy_length;
        reflexivity).
  assert (Hd : forall m, String.length (BcryptPasswordService.sha256_hex E m) = 64%nat)
    by (intros m; unfold BcryptPasswordService.sha256_hex;
        rewrite hex_encode_length, (sha256_length _ laws); reflexivity).
  split; [exact Hh|]. split; [exact Hs|]. split; [apply Hd|].
  split; [rewrite !string_length_append, Hs, Hd; reflexivity|].
  assert (Hsplit : forall b m,
             Str.split Str.colon
               (Hex.encode b ++ ":" ++ BcryptPasswordService.sha256_hex E m)
             = [Hex.encode b; BcryptPasswordService.sha256_hex E m]).
  { intros b m.
    change (Hex.encode b ++ ":" ++ BcryptPasswordService.sha256_hex E m)
      with (Hex.encode b ++ String Str.colon (BcryptPasswordService.sha256_hex E m)).
    rewrite split_app_sep by (apply hex_encode_free_of; reflexivity).
    rewrite split_free_of by (apply hex_encode_free_of; reflexivity).
    reflexivity. }
  split; [apply Hsplit|].
  intros w2 record2 w2' H2.
  pose proof (hashPassword_eq E password w2 Hlen) as Hh2. cbv zeta in Hh2.
  set (bytes2 := read_entropy E (entropy_reads w2) 16) in *.
  rewrite Hh2 in H2. apply (f_equal fst) in H2. cbn [fst] in H2.
  assert (Hrec : Hex.encode bytes2 ++ ":"
                   ++ BcryptPasswordService.sha256_hex E (password ++ Hex.encode bytes2)
                 = record2) by congruence.
  clear H2. subst record2. split.
  - intros Heq. apply (f_equal (Str.split Str.colon)) in Heq.
    rewrite !Hsplit in Heq. apply (f_equal (hd "")) in Heq. cbn [hd] in Heq.
    apply hex_encode_inj, Heq.
  - intros Heq. rewrite <- Heq. reflexivity.
Qed.

Lemma hashPassword_record_shape_witness :
  BcryptPasswordService.hashPassword Run.E1 "" Run.initial
  = (inl (Error_new "Password cannot be empty"), Run.initial).
Proof.
  exact (proj1 (hashPassword_record_shape Run.E1 "" Run.initial sample_platform_laws)
           eq_refl).
Defined.

(** ** The registration form and the server's policy *)

Lemma form_errors (password msg : string) :
  In msg (RegisterForm.validatePasswordStrength password)
  <-> ((String.length password < 8)%nat
       /\ msg = "Must be at least 8 characters long")
      \/ (Str.existsb BcryptPasswordService.is_uppercase password = false
          /\ msg = "Must contain at least one uppercase letter")
      \/ (Str.existsb BcryptPasswordService.is_lowercase password = false
          /\ msg = "Must contain at least one lowercase letter")
      \/ (Str.existsb BcryptPasswordService.is_digit password = false
          /\ msg = "Must contain at least one number")
      \/ (Str.existsb BcryptPasswordService.is_special password = false
          /\ msg = "Must contain at least one special character").
Proof.
  unfold RegisterForm.validatePasswordStrength.
  rewrite !in_push_if, !negb_true_iff, Nat.ltb_lt.
  change (pretty RegisterForm.MIN_PASSWORD_LENGTH) with "8".
  change RegisterForm.MIN_PASSWORD_LENGTH with 8%nat.
  simpl In. tauto.
Qed.

(** X14. The registration form reports no problem exactly for the passwords
    that have 8 characters or more, an uppercase letter, a lowercase letter, a
    digit and a special character. The server's policy accepts a password
    exactly when the form does and, besides, the password has at most 128
    characters, no three equal characters in a row that the server's pattern
    sees, and none of the server's common words. So what the server accepts
    the form accepts, but not the other way round: [Password1!] passes the
    form and is rejected by the server. *)
Theorem form_is_weaker_than_server_policy (password : string) :
  (RegisterForm.validatePasswordStrength password = []
   <-> (8 <= String.length password)%nat
       /\ Str.existsb BcryptPasswordService.is_uppercase password = true
       /\ Str.existsb BcryptPasswordService.is_lowercase password = true
       /\ Str.existsb BcryptPasswordService.is_digit password = true
       /\ Str.existsb BcryptPasswordService.is_special password = true)
  /\ (isValid (BcryptPasswordService.validatePasswordStrength password) = true
      <-> RegisterForm.validatePasswordStrength password = []
          /\ (String.length password <= 128)%nat
          /\ BcryptPasswordService.has_repeated_run password = false
          /\ List.existsb
               (fun common =>
                  Str.includes (BcryptPasswordService.toLowerCase password) common)
               BcryptPasswordService.commonPasswords = false)
  /\ RegisterForm.validatePasswordStrength "Password1!" = []
  /\ isValid (BcryptPasswordService.validatePasswordStrength "Password1!") = false.
Proof.
  assert (Hform : RegisterForm.validatePasswordStrength password = []
                  <-> (8 <= String.length password)%nat
                      /\ Str.existsb BcryptPasswordService.is_uppercase password = true
                      /\ Str.existsb BcryptPasswordService.is_lowercase password = true
                      /\ Str.existsb BcryptPasswordService.is_digit password = true
                      /\ Str.existsb BcryptPasswordService.is_special password = true).
  { split.
    - intros Hnil.
      assert (Hno : forall msg, ~ In msg (RegisterForm.validatePasswordStrength password))
        by (intros msg; rewrite Hnil; simpl; tauto).
      repeat split.
      + apply Nat.nlt_ge. intros H.
        apply (Hno "Must be at least 8 characters long"), form_errors. tauto.
      + apply not_false_iff_true. intros H.
        apply (Hno "Must contain at least one uppercase letter"), form_errors. tauto.
      + apply not_false_iff_true. intros H.
        apply (Hno "Must contain at least one lowercase letter"), form_errors. tauto.
      + apply not_false_iff_true. intros H.
        apply (Hno "Must contain at least one number"), form_errors. tauto.
      + apply not_false_iff_true. intros H.
        apply (Hno "Must contain at least one special character"), form_errors. tauto.
    - intros (H1 & H2 & H3 & H4 & H5).
      destruct (RegisterForm.validatePasswordStrength password) as [|msg l] eqn:Herr;
        [reflexivity|].
      assert (Hin : In msg (RegisterForm.validatePasswordStrength password))
        by (rewrite Herr; left; reflexivity).
      apply form_errors in Hin. exfalso.
      destruct Hin as [[H _]|[[H _]|[[H _]|[[H _]|[H _]]]]]; try congruence; lia. }
  split; [exact Hform|]. split.
  - rewrite validatePasswordStrength_accepts, Hform. tauto.
  - split; vm_compute; reflexivity.
Qed.

(** ** The middleware *)

(** X15. [extractToken] finds a token exactly in a header made of the word
    [Bearer], one space, and a token without a space; the token is what
    follows the space. For every other header, and for [Bearer ] followed by
    nothing, [authenticate] answers 401 [Authentication token required]
    without reading the clock or the store. *)
Theorem bearer_header_only (E : Env) (w : World) :
  (forall a t,
      DefaultAuthMiddleware.extractToken a = Some t
      <-> a = Some ("Bearer " ++ t) /\ Str.free_of " " t = true)
  /\ (forall a,
        (forall t, t <> "" -> Str.free_of " " t = true -> a <> Some ("Bearer " ++ t)) ->
        DefaultAuthMiddleware.authenticate E a w
        = (inr (Respond 401 "Authentication token required"), w)).
Proof.
  assert (Hiff : forall a t,
             DefaultAuthMiddleware.extractToken a = Some t
             <-> a = Some ("Bearer " ++ t) /\ Str.free_of " " t = true).
  { intros a t. unfold DefaultAuthMiddleware.extractToken. split.
    - destruct a as [h|]; [|discriminate].
      destruct (Nat.eqb (String.length h) 0); [discriminate|].
      destruct (Str.split " " h) as [|scheme [|cred [|x l]]] eqn:Hsplit;
        try discriminate.
      destruct (String.eqb_spec scheme "Bearer") as [->|]; [|discriminate].
      intros H. injection H as ->.
      destruct (split_cons_inv _ _ _ _ Hsplit) as (_ & [[Hnil _] | (b & -> & Hb)]);
        [discriminate|].
      destruct (split_cons_inv _ _ _ _ Hb) as (Hfree & [[_ ->] | (b' & _ & Hb')]).
      + auto.
      + exfalso. exact (split_not_nil _ _ Hb').
    - intros [-> Hfree].
      change ("Bearer " ++ t) with ("Bearer" ++ String " "%char t).
      rewrite string_length_append. cbn [String.length Nat.add Nat.eqb].
      rewrite split_app_sep by reflexivity.
      rewrite (split_free_of _ _ Hfree). reflexivity. }
  split; [exact Hiff|].
  intros a Hnot.
  unfold DefaultAuthMiddleware.authenticate, try_catch,
    DefaultAuthMiddleware.authenticate_body.
  destruct (DefaultAuthMiddleware.extractToken a) as [t|] eqn:Hex; [|reflexivity].
  destruct (Nat.eqb_spec (String.length t) 0) as [|Hlen]; [reflexivity|].
  exfalso. apply Hiff in Hex as [Ha Hfree].
  apply (Hnot t); [|exact Hfree | exact Ha].
  intros ->. apply Hlen. reflexivity.
Qed.

Lemma authenticate_returns (E : Env) (a : option string) (w : World) :
  exists o w', DefaultAuthMiddleware.authenticate E a w = (inr o, w').
Proof.
  unfold DefaultAuthMiddleware.authenticate, try_catch.
  destruct (DefaultAuthMiddleware.authenticate_body E a w) as [[e|o] w'];
    eexists; eexists; reflexivity.
Qed.

(** X16. In every state reached from an empty store by calls of the services
    and of the repository ([updateProfile] apart), the guard in front of the admin
    routes ([authenticate], then [requireAdmin]) lets nobody through: no
    stored user has a role, so a request that authenticates is answered 403
    with the message [Insufficient permissions: Role 'admin' required
    required] (the word is there twice), and any other request gets the
    answer of [authenticate]. The same holds for every role name and every
    permission. *)
Theorem admin_routes_admit_nobody (E : Env) (w : World) (a : option string) :
  reachable E w ->
  (forall u w',
      DefaultAuthMiddleware.authenticate E a w = (inr (Next u), w') ->
      Guards.admin_guard E a w
      = (inr (Respond 403 "Insufficient permissions: Role 'admin' required required"),
         w')
      /\ (forall roleName, exists msg,
             Guards.requireRole roleName (Some u) = Respond 403 msg)
      /\ (forall resource' action', exists msg,
             Guards.requirePermission resource' action' (Some u) = Respond 403 msg))
  /\ (forall s e w',
        DefaultAuthMiddleware.authenticate E a w = (inr (Respond s e), w') ->
        Guards.admin_guard E a w = (inr (Respond s e), w'))
  /\ exists s e w', Guards.admin_guard E a w = (inr (Respond s e), w').
Proof.
  intros Hreach. pose proof (store_ok_reachable E w Hreach) as Hok.
  assert (Hroles : forall u w',
             DefaultAuthMiddleware.authenticate E a w = (inr (Next u), w') ->
             resp_roles u = []).
  { intros u w' Hauth.
    destruct (authenticate_next E a u w w' Hauth) as (t & uid & Hex & Hlen & Hv).
    rewrite (authenticate_after E a t _ w w' Hex Hlen Hv), Map_get_any_subject
      in Hauth.
    destruct (InMemoryUserRepository.Map_get uid (users w)) as [x|] eqn:Hget;
      [|discriminate].
    destruct (isActive x); [|discriminate].
    injection Hauth as <-. cbn [resp_roles DefaultAuthService.toUserResponse].
    apply (store_ok_key_bound w uid x Hok (Map_get_In _ _ _ Hget)). }
  assert (Hnext : forall u w',
             DefaultAuthMiddleware.authenticate E a w = (inr (Next u), w') ->
             Guards.admin_guard E a w
             = (inr (Respond 403
                       "Insufficient permissions: Role 'admin' required required"),
                w')).
  { intros u w' Hauth. unfold Guards.admin_guard, Guards.chain.
    rewrite bind_run, Hauth. unfold Guards.requireAdmin, Guards.requireRole,
      DefaultAuthMiddleware.hasRole.
    rewrite (Hroles u w' Hauth). reflexivity. }
  assert (Hresp : forall s e w',
             DefaultAuthMiddleware.authenticate E a w = (inr (Respond s e), w') ->
             Guards.admin_guard E a w = (inr (Respond s e), w')).
  { intros s e w' Hauth. unfold Guards.admin_guard, Guards.chain.
    rewrite bind_run, Hauth. reflexivity. }
  split; [|split; [exact Hresp|]].
  - intros u w' Hauth. split; [apply (Hnext u), Hauth|]. split.
    + intros roleName. unfold Guards.requireRole, DefaultAuthMiddleware.hasRole.
      rewrite (Hroles u w' Hauth). eexists. reflexivity.
    + intros resource' action'.
      unfold Guards.requirePermission, DefaultAuthMiddleware.userHasPermission.
      rewrite (Hroles u w' Hauth). eexists. reflexivity.
  - destruct (authenticate_returns E a w) as ([u|s e] & w' & Hauth).
    + eexists. eexists. eexists. apply (Hnext u w' Hauth).
    + exists s, e, w'. apply Hresp, Hauth.
Qed.

Lemma admin_routes_admit_nobody_witness :
  Guards.admin_guard Run.E1 Scenario.bearer Run.registered
  = (inr (Respond 403 "Insufficient permissions: Role 'admin' required required"),
     set_clock_reads 4 Run.registered).
Proof.
  destruct (admin_routes_admit_nobody Run.E1 Run.registered Scenario.bearer
              reachable_registered) as (H & _).
  apply (H (user Scenario.registration_result)). vm_compute. reflexivity.
Defined.

(** ** Regular expressions *)

Lemma string_app_nil_inv (a b : string) : a ++ b = "" -> a = "" /\ b = "".
Proof. destruct a; [auto | discriminate]. Qed.

Lemma string_app_cons (c : ascii) (a b : string) :
  String c a ++ b = String c (a ++ b).
Proof. reflexivity. Qed.

Lemma string_app_assoc (a b c : string) : (a ++ b) ++ c = a ++ (b ++ c).
Proof.
  induction a as [|x a IH]; [reflexivity|].
  rewrite !string_app_cons, IH. reflexivity.
Qed.

Lemma nullable_denotes (r : Regex.regex) :
  Regex.nullable r = true <-> Regex.denotes r "".
Proof.
  split.
  - induction r as [| |p|r1 IH1 r2 IH2|r1 IH1 r2 IH2|r1 IH1]; simpl; intros H.
    + discriminate.
    + constructor.
    + discriminate.
    + apply andb_prop in H as [H1 H2].
      change "" with ("" ++ ""). constructor; auto.
    + apply orb_prop in H as [H|H];
        [apply Regex.denotes_Alt_l | apply Regex.denotes_Alt_r]; auto.
    + constructor.
  - intros H. remember "" as s eqn:Hs.
    induction H as [|p c Hc|r1 r2 s1 s2 H1 IH1 H2 IH2|r1 r2 s H IH|r1 r2 s H IH
                    |r|r s1 s2 H1 IH1 H2 IH2]; simpl.
    + reflexivity.
    + discriminate.
    + apply string_app_nil_inv in Hs as [-> ->].
      rewrite IH1, IH2 by reflexivity. reflexivity.
    + rewrite IH by exact Hs. reflexivity.
    + rewrite IH by exact Hs. apply orb_true_r.
    + reflexivity.
    + reflexivity.
Qed.

Lemma deriv_denotes_1 (r : Regex.regex) (c : ascii) (s : string) :
  Regex.denotes (Regex.deriv c r) s -> Regex.denotes r (String c s).
Proof.
  revert s. induction r as [| |p|r1 IH1 r2 IH2|r1 IH1 r2 IH2|r1 IH1]; simpl; intros s H.
  - inversion H.
  - inversion H.
  - destruct (p c) eqn:Hp; inversion H; subst. constructor. exact Hp.
  - destruct (Regex.nullable r1) eqn:Hn.
    + inversion H as [| | | ? ? ? H' | ? ? ? H' | |]; subst.
      * inversion H' as [| |? ? s1 s2 Ha Hb| | | |]; subst.
        rewrite <- string_app_cons. constructor; auto.
      * change (String c s) with ("" ++ String c s). constructor; auto.
        apply nullable_denotes, Hn.
    + inversion H as [| |? ? s1 s2 Ha Hb| | | |]; subst.
      rewrite <- string_app_cons. constructor; auto.
  - inversion H; subst;
      [apply Regex.denotes_Alt_l | apply Regex.denotes_Alt_r]; auto.
  - inversion H as [| |? ? s1 s2 Ha Hb| | | |]; subst.
    rewrite <- string_app_cons. constructor; auto.
Qed.

Lemma deriv_denotes_2 (r : Regex.regex) (s0 : string) :
  Regex.denotes r s0 ->
  forall c s, s0 = String c s -> Regex.denotes (Regex.deriv c r) s.
Proof.
  intros H.
  induction H as [|p c0 Hc|r1 r2 s1 s2 H1 IH1 H2 IH2|r1 r2 s' H IH|r1 r2 s' H IH
                  |r|r s1 s2 H1 IH1 H2 IH2]; intros c s Hs; simpl.
  - discriminate.
  - injection Hs as -> <-. rewrite Hc. constructor.
  - destruct s1 as [|c1 s1'].
    + change ("" ++ s2) with s2 in Hs.
      apply nullable_denotes in H1. rewrite H1.
      apply Regex.denotes_Alt_r. auto.
    + rewrite string_app_cons in Hs. injection Hs as -> <-.
      pose proof (Regex.denotes_Seq _ _ _ _ (IH1 c s1' eq_refl) H2) as Hseq.
      destruct (Regex.nullable r1); [apply Regex.denotes_Alt_l|]; exact Hseq.
  - apply Regex.denotes_Alt_l. auto.
  - apply Regex.denotes_Alt_r. auto.
  - discriminate.
  - destruct s1 as [|c1 s1'].
    + change ("" ++ s2) with s2 in Hs. exact (IH2 c s Hs).
    + rewrite string_app_cons in Hs. injection Hs as -> <-.
      constructor; auto.
Qed.

(** The matcher decides the language of the expression. *)
Lemma test_denotes (r : Regex.regex) (s : string) :
  Regex.test r s = true <-> Regex.denotes r s.
Proof.
  revert r. induction s as [|c s IH]; intros r; simpl.
  - apply nullable_denotes.
  - rewrite IH. split.
    + apply deriv_denotes_1.
    + intros H. exact (deriv_denotes_2 r _ H c s eq_refl).
Qed.

Lemma denotes_Seq_inv (r1 r2 : Regex.regex) (s : string) :
  Regex.denotes (Regex.Seq r1 r2) s
  <-> exists s1 s2, s = s1 ++ s2 /\ Regex.denotes r1 s1 /\ Regex.denotes r2 s2.
Proof.
  split.
  - intros H. inversion H; subst. eauto.
  - intros (s1 & s2 & -> & H1 & H2). constructor; assumption.
Qed.

Lemma denotes_Chr_inv (c : ascii) (s : string) :
  Regex.denotes (Regex.Chr c) s <-> s = String c "".
Proof.
  unfold Regex.Chr. split.
  - intros H. inversion H as [|? ? Hc| | | | |]; subst.
    apply Ascii.eqb_eq in Hc. subst. reflexivity.
  - intros ->. constructor. apply Ascii.eqb_refl.
Qed.

Lemma denotes_Star_Class (p : ascii -> bool) (s : string) :
  Regex.denotes (Regex.Star (Regex.Class p)) s
  <-> RegistrationInput.every_char p s = true.
Proof.
  split.
  - intros H. remember (Regex.Star (Regex.Class p)) as r eqn:Hr.
    induction H as [|? ? ?|? ? ? ? ? ? ? ?|? ? ? ? ?|? ? ? ? ?
                    |r'|r' s1 s2 H1 IH1 H2 IH2]; try discriminate.
    + reflexivity.
    + injection Hr as ->. inversion H1 as [|? ? Hc| | | | |]; subst.
      simpl. rewrite Hc. apply IH2. reflexivity.
  - induction s as [|c s IH]; simpl; intros H; [constructor|].
    apply andb_prop in H as [Hc Hs].
    change (String c s) with (String c "" ++ s).
    constructor; [constructor; exact Hc | auto].
Qed.

Lemma denotes_Plus_Class (p : ascii -> bool) (s : string) :
  Regex.denotes (Regex.Plus (Regex.Class p)) s
  <-> negb (Nat.eqb (String.length s) 0) && RegistrationInput.every_char p s = true.
Proof.
  unfold Regex.Plus. rewrite denotes_Seq_inv. split.
  - intros (s1 & s2 & -> & H1 & H2). inversion H1 as [|? c Hc| | | | |]; subst.
    apply denotes_Star_Class in H2. change (String c "" ++ s2) with (String c s2).
    simpl. rewrite Hc, H2. reflexivity.
  - destruct s as [|c s]; [discriminate|]. simpl. intros H.
    apply andb_prop in H as [Hc Hs].
    exists (String c ""), s. split; [reflexivity|].
    split; [constructor; exact Hc | apply denotes_Star_Class, Hs].
Qed.

(** X17. The expression the registration uses for an email accepts exactly
    the strings [local@domain.tld] in which each of the three parts is
    non-empty and has neither white space nor [@] in it (a part may contain
    dots). [validateRegistrationData] accepts a body exactly when email,
    username, password, first name and last name are non-empty strings, the
    phone is a string or falsy, and the email has that shape; it then returns
    the fields as they came. *)
Theorem registration_input_accepted (body : RegistrationBody) :
  (forall s,
      Regex.test UserController.emailRegex s = true
      <-> exists l d t,
            s = l ++ "@" ++ d ++ "." ++ t
            /\ RegistrationInput.email_part l = true
            /\ RegistrationInput.email_part d = true
            /\ RegistrationInput.email_part t = true)
  /\ (forall v,
        RegistrationInput.validateRegistrationData body = inr v
        <-> body_reg_email body = JsString (valid_email v)
            /\ body_reg_username body = JsString (valid_username v)
            /\ body_reg_password body = JsString (valid_password v)
            /\ body_reg_firstName body = JsString (valid_firstName v)
            /\ body_reg_lastName body = JsString (valid_lastName v)
            /\ valid_email v <> "" /\ valid_username v <> ""
            /\ valid_password v <> "" /\ valid_firstName v <> ""
            /\ valid_lastName v <> ""
            /\ valid_phone v = body_reg_phone body
            /\ (RegistrationInput.truthy (body_reg_phone body) = true ->
                RegistrationInput.is_string (body_reg_phone body) = true)
            /\ Regex.test UserController.emailRegex (valid_email v) = true).
Proof.
  split.
  - intros s. rewrite test_denotes. unfold UserController.emailRegex.
    rewrite denotes_Seq_inv. split.
    + intros (l & s1 & -> & Hl & H1).
      apply denotes_Seq_inv in H1 as (at' & s2 & -> & Hat & H2).
      apply denotes_Seq_inv in H2 as (d & s3 & -> & Hd & H3).
      apply denotes_Seq_inv in H3 as (dot' & t & -> & Hdot & Ht).
      apply denotes_Chr_inv in Hat, Hdot. subst.
      apply denotes_Plus_Class in Hl, Hd, Ht.
      exists l, d, t. auto.
    + intros (l & d & t & -> & Hl & Hd & Ht).
      exists l, ("@" ++ d ++ "." ++ t). split; [reflexivity|].
      split; [apply denotes_Plus_Class, Hl|].
      apply denotes_Seq_inv. exists "@", (d ++ "." ++ t). split; [reflexivity|].
      split; [apply denotes_Chr_inv; reflexivity|].
      apply denotes_Seq_inv. exists d, ("." ++ t). split; [reflexivity|].
      split; [apply denotes_Plus_Class, Hd|].
      apply denotes_Seq_inv. exists ".", t. split; [reflexivity|].
      split; [apply denotes_Chr_inv; reflexivity | apply denotes_Plus_Class, Ht].
  - intros v.
    assert (Hreq : forall x s,
               UserController.required_string x = Some s <-> x = JsString s /\ s <> "").
    { intros x s. unfold UserController.required_string. split.
      - destruct x as [| | | |s'|]; try discriminate.
        destruct s' as [|c r]; [discriminate|]. cbn.
        intros H. injection H as <-. split; [reflexivity | discriminate].
      - intros [-> Hne]. destruct s; [contradiction | reflexivity]. }
    unfold RegistrationInput.validateRegistrationData. split.
    + destruct (UserController.required_string (body_reg_email body)) as [e|] eqn:He;
        [|discriminate].
      destruct (UserController.required_string (body_reg_username body)) as [u|] eqn:Hu;
        [|discriminate].
      destruct (UserController.required_string (body_reg_password body)) as [p|] eqn:Hp;
        [|discriminate].
      destruct (UserController.required_string (body_reg_firstName body)) as [f|] eqn:Hf;
        [|discriminate].
      destruct (UserController.required_string (body_reg_lastName body)) as [l|] eqn:Hl;
        [|discriminate].
      apply Hreq in He as [He He'], Hu as [Hu Hu'], Hp as [Hp Hp'],
        Hf as [Hf Hf'], Hl as [Hl Hl'].
      destruct (RegistrationInput.truthy (body_reg_phone body)) eqn:Ht;
        destruct (RegistrationInput.is_string (body_reg_phone body)) eqn:Hs;
        cbn [andb negb]; try discriminate;
        (destruct (Regex.test UserController.emailRegex e) eqn:Hm; cbn [negb];
         [|discriminate]);
        intros H; injection H as <-; cbn; repeat split; auto; discriminate.
    + intros (He & Hu & Hp & Hf & Hl & He' & Hu' & Hp' & Hf' & Hl' & Hph & Hphone & Hm).
      rewrite (proj2 (Hreq _ _) (conj He He')), (proj2 (Hreq _ _) (conj Hu Hu')),
        (proj2 (Hreq _ _) (conj Hp Hp')), (proj2 (Hreq _ _) (conj Hf Hf')),
        (proj2 (Hreq _ _) (conj Hl Hl')), Hm.
      cbn [negb].
      destruct (RegistrationInput.truthy (body_reg_phone body)) eqn:Ht.
      * rewrite (Hphone eq_refl). cbn. rewrite <- Hph. destruct v; reflexivity.
      * cbn. rewrite <- Hph. destruct v; reflexivity.
Qed.

(** ** The endpoints of the user controller *)

Lemma Map_find_In (p : User -> bool) (u : User) (m : list (string * User)) :
  InMemoryUserRepository.Map_find p m = Some u ->
  p u = true /\ exists k, In (k, u) m.
Proof.
  induction m as [|[k x] r IH]; simpl; [discriminate|].
  destruct (p x) eqn:Hx.
  - intros H. injection H as <-. split; [exact Hx|]. exists k. auto.
  - intros H. destruct (IH H) as (Hp & k' & Hin). split; [exact Hp|].
    exists k'. auto.
Qed.

Lemma store_ok_found_by_id (w : World) (p : User -> bool) (u : User) :
  store_ok w ->
  InMemoryUserRepository.Map_find p (users w) = Some u ->
  InMemoryUserRepository.Map_get (id u) (users w) = Some u.
Proof.
  intros Hok Hfind. destruct (Map_find_In p u _ Hfind) as (_ & k & Hin).
  destruct (store_ok_key_bound w k u Hok Hin) as (-> & _).
  apply Map_get_of_In; [apply (proj1 Hok) | exact Hin].
Qed.

(** What [login] of the authentication service does, case by case. *)
Lemma login_cases (E : Env) (d : UserLoginData) (w : World) :
  store_ok w ->
  match InMemoryUserRepository.Map_find
          (fun x => String.eqb (email x) (login_email d)) (users w) with
  | None => DefaultAuthService.login E d w = (inl InvalidCredentialsError_new, w)
  | Some u =>
      if BcryptPasswordService.verifyPassword E (login_password d) (hashedPassword u)
      then if isActive u
           then exists r w',
                  DefaultAuthService.login E d w = (inr r, w')
                  /\ user r = DefaultAuthService.toUserResponse u
                  /\ revokedTokens w' = revokedTokens w
           else DefaultAuthService.login E d w = (inl AccountDisabledError, w)
      else DefaultAuthService.login E d w = (inl InvalidCredentialsError_new, w)
  end.
Proof.
  intros Hok. unfold DefaultAuthService.login. rewrite bind_run, findByEmail_eq.
  destruct (InMemoryUserRepository.Map_find _ (users w)) as [u|] eqn:Hfind;
    [|reflexivity].
  destruct (BcryptPasswordService.verifyPassword E (login_password d)
              (hashedPassword u)); [|reflexivity].
  destruct (isActive u); [|reflexivity]. cbn [negb].
  unfold InMemoryUserRepository.updateLastLogin. rewrite !bind_run.
  cbn [get_world]. rewrite (store_ok_found_by_id w _ u Hok Hfind).
  eexists. eexists. split; [reflexivity|]. split; reflexivity.
Qed.

(** X18. POST /auth/login never throws and answers 200, 400 or 401. It
    answers 401, always with the body [Invalid email or password], exactly
    when the body holds an email and a password (non-empty strings) and either
    no user has the email or the password does not verify; 400 when a field is
    missing, empty or not a string, and when the account is deactivated; 200
    exactly when the authentication service's [login] succeeded, with its
    result as body. Unless the answer is 200 the state is unchanged. *)
Theorem login_endpoint_answers (E : Env) (body : LoginBody) (w : World) :
  store_ok w ->
  exists resp w',
    UserController.login E body w = (inr resp, w')
    /\ (res_status resp = 200 \/ res_status resp = 400 \/ res_status resp = 401)
    /\ (res_status resp <> 200 -> w' = w)
    /\ (res_status resp = 401
        <-> exists d,
              UserController.validateLoginData body = inr d
              /\ match InMemoryUserRepository.Map_find
                         (fun x => String.eqb (email x) (login_email d)) (users w) with
                 | None => True
                 | Some u =>
                     BcryptPasswordService.verifyPassword E (login_password d)
                       (hashedPassword u) = false
                 end)
    /\ (res_status resp = 401 -> res_body resp = Body_error "Invalid email or password")
    /\ (res_status resp = 200
        <-> exists d r,
              UserController.validateLoginData body = inr d
              /\ DefaultAuthService.login E d w = (inr r, w')
              /\ res_body resp = Body_auth r).
Proof.
  intros Hok. unfold UserController.login, try_catch. rewrite bind_run.
  unfold lift at 1.
  destruct (UserController.validateLoginData body) as [e|d] eqn:Hvalid.
  - assert (He : name e = "Error").
    { unfold UserController.validateLoginData in Hvalid.
      destruct (UserController.required_string (body_email body));
        [|injection Hvalid as <-; reflexivity].
      destruct (UserController.required_string (body_password body));
        [discriminate | injection Hvalid as <-; reflexivity]. }
    eexists. eexists. split; [reflexivity|].
    unfold UserController.handleError. rewrite He. cbn.
    split; [auto|]. split; [reflexivity|].
    split; [split; [discriminate | intros (? & ? & _); discriminate]|].
    split; [discriminate|].
    split; [discriminate | intros (? & ? & ? & _); discriminate].
  - rewrite bind_run. pose proof (login_cases E d w Hok) as Hcases.
    destruct (InMemoryUserRepository.Map_find _ (users w)) as [u|] eqn:Hfind.
    + destruct (BcryptPasswordService.verifyPassword E (login_password d)
                  (hashedPassword u)) eqn:Hver.
      * destruct (isActive u) eqn:Hact.
        -- destruct Hcases as (r & w' & Hlogin & _). rewrite Hlogin.
           eexists. eexists. split; [reflexivity|]. cbn.
           split; [auto|]. split; [congruence|].
           split.
           { split; [discriminate|]. intros (d' & Hd' & Hm). injection Hd' as <-.
             rewrite Hfind in Hm. congruence. }
           split; [discriminate|].
           split; [intros _; exists d, r; auto | reflexivity].
        -- rewrite Hcases. eexists. eexists. split; [reflexivity|]. cbn.
           split; [auto|]. split; [reflexivity|].
           split.
           { split; [discriminate|]. intros (d' & Hd' & Hm). injection Hd' as <-.
             rewrite Hfind in Hm. congruence. }
           split; [discriminate|].
           split; [discriminate|]. intros (d' & r & Hd' & Hl & _).
           injection Hd' as <-. rewrite Hcases in Hl. discriminate.
      * rewrite Hcases. eexists. eexists. split; [reflexivity|]. cbn.
        split; [auto|]. split; [reflexivity|].
        split.
        { split; [|reflexivity]. intros _. exists d. split; [reflexivity|].
          rewrite Hfind. exact Hver. }
        split; [reflexivity|].
        split; [discriminate|]. intros (d' & r & Hd' & Hl & _).
        injection Hd' as <-. rewrite Hcases in Hl. discriminate.
    + rewrite Hcases. eexists. eexists. split; [reflexivity|]. cbn.
      split; [auto|]. split; [reflexivity|].
      split.
      { split; [|reflexivity]. intros _. exists d. split; [reflexivity|].
        rewrite Hfind. exact I. }
      split; [reflexivity|].
      split; [discriminate|]. intros (d' & r & Hd' & Hl & _).
      injection Hd' as <-. rewrite Hcases in Hl. discriminate.
Qed.

Lemma login_endpoint_answers_witness :
  exists resp w',
    UserController.login Run.E1
      (mkLoginBody (JsString "nobody@example.com") (JsString "x")) Run.registered
    = (inr resp, w')
    /\ (res_status resp = 200 \/ res_status resp = 400 \/ res_status resp = 401).
Proof.
  destruct (login_endpoint_answers Run.E1
              (mkLoginBody (JsString "nobody@example.com") (JsString "x"))
              Run.registered store_ok_registered)
    as (resp & w' & H1 & H2 & _).
  exists resp, w'. split; [exact H1 | exact H2].
Defined.

(** Every error of the token service is answered with 400 and its message by
    [handleError]: it is an [Error] or a [TypeError], and none of the three
    classes that [handleError] tells apart. *)
Lemma ToNumber_error (P : Platform) (v : option Json) (e : JsError) :
  ToNumber P v = inl e -> e = TypeError_primitive.
Proof.
  destruct v as [[| | | | |]|]; cbn; try discriminate;
    destruct (ToPrimitive P _); try discriminate; intros H; injection H as <-;
    reflexivity.
Qed.

Lemma ToString_error (P : Platform) (v : option Json) (e : JsError) :
  ToString P v = inl e -> e = TypeError_primitive.
Proof.
  destruct v as [[| | | | |]|]; cbn; try discriminate;
    destruct (ToPrimitive P _); try discriminate; intros H; injection H as <-;
    reflexivity.
Qed.

Lemma payload_outcome_error_name (P : Platform) (payload : Json) (now : Z)
  (e : JsError) :
  payload_outcome P payload now = inl e -> name e = "Error" \/ name e = "TypeError".
Proof.
  unfold payload_outcome.
  destruct payload; cbn [Get];
    try (intros H; injection H as <-; right; reflexivity);
    (destruct (GreaterThan P now _) as [e'|[|]] eqn:Hgt;
     [ intros H; injection H as <-; right;
       unfold GreaterThan in Hgt;
       destruct (ToNumber P _) as [e''|[[q|neg]|]] eqn:Hn; try discriminate;
       injection Hgt as <-; rewrite (ToNumber_error P _ _ Hn); reflexivity
     | intros H; injection H as <-; left; reflexivity
     | discriminate ]).
Qed.

Lemma validateToken_error_name (E : Env) (t : string) (w w' : World) (e : JsError) :
  JWTTokenService.validateToken E t w = (inl e, w') ->
  name e = "Error" \/ name e = "TypeError".
Proof.
  destruct (decide (t ∈ revokedTokens w)) as [Hin|Hnot].
  - rewrite validateToken_revoked by exact Hin. intros H. injection H as <- _.
    left. reflexivity.
  - rewrite validateToken_not_revoked by exact Hnot.
    destruct (JWTTokenService.decodeToken E t) as [e'|p] eqn:Hdec.
    + intros H. injection H as <- _. left.
      unfold JWTTokenService.decodeToken in Hdec.
      destruct (Str.split Str.dot t) as [|a [|b [|c [|x l]]]];
        try (injection Hdec as <-; reflexivity).
      destruct (negb _); [injection Hdec as <-; reflexivity|].
      destruct (JSON_parse _ _); [discriminate|].
      injection Hdec as <-. reflexivity.
    + intros H. injection H as H _.
      exact (payload_outcome_error_name _ _ _ _ H).
Qed.

Lemma handleError_token_error (e : JsError) :
  name e = "Error" \/ name e = "TypeError" ->
  UserController.handleError e = mkHttpResponse 400 (Body_error (message e)).
Proof.
  intros [H|H]; unfold UserController.handleError; rewrite H; reflexivity.
Qed.

(** X19. POST /auth/logout and POST /auth/refresh answer 400 [Token is
    required] for a token that is missing, empty or not a string, and change
    nothing. Any other token is logged out with 200, whatever it is. A refresh
    is answered 400 with the token service's message when the token service
    rejects the token (revoked, malformed, forged or expired: never 401), 404
    when it accepts the token but the user is gone, 400 when the user is
    deactivated, and 200 otherwise. After a logout, the refresh of the same
    token is answered 400 [Token has been revoked]. When the token service
    returns a subject that is not a string, no user is found: the answer is
    404 with the subject written out, or 400 when writing it out throws. *)
Theorem token_endpoints_answers (E : Env) (v : JsValue) (w : World) :
  (UserController.required_string v = None ->
   UserController.logout v w
   = (inr (mkHttpResponse 400 (Body_error "Token is required")), w)
   /\ UserController.refreshToken E v w
      = (inr (mkHttpResponse 400 (Body_error "Token is required")), w))
  /\ (forall t,
        UserController.required_string v = Some t ->
        let w1 := snd (JWTTokenService.revokeToken t w) in
        UserController.logout v w
        = (inr (mkHttpResponse 200 (Body_message "Logged out successfully")), w1)
        /\ UserController.refreshToken E v w1
           = (inr (mkHttpResponse 400 (Body_error "Token has been revoked")), w1)
        /\ (forall e w',
              JWTTokenService.validateToken E t w = (inl e, w') ->
              UserController.refreshToken E v w
              = (inr (mkHttpResponse 400 (Body_error (message e))), w'))
        /\ (forall uid w',
              JWTTokenService.validateToken E t w = (inr (subject uid), w') ->
              match InMemoryUserRepository.Map_get uid (users w) with
              | None =>
                  UserController.refreshToken E v w
                  = (inr (mkHttpResponse 404 (Body_error ("User not found: " ++ uid))),
                     w')
              | Some u =>
                  if isActive u
                  then exists r w'',
                         UserController.refreshToken E v w
                         = (inr (mkHttpResponse 200 (Body_auth r)), w'')
                         /\ user r = DefaultAuthService.toUserResponse u
                  else UserController.refreshToken E v w
                       = (inr (mkHttpResponse 400
                                 (Body_error "User account is deactivated")), w')
              end)
        /\ (forall other w',
              JWTTokenService.validateToken E t w = (inr other, w') ->
              (forall uid, other <> subject uid) ->
              UserController.refreshToken E v w
              = (inr (match ToString (platform E) other with
                      | inr text =>
                          mkHttpResponse 404 (Body_error ("User not found: " ++ text))
                      | inl e => mkHttpResponse 400 (Body_error (message e))
                      end),
                 w'))).
Proof.
  split.
  - intros Hnone. unfold UserController.logout, UserController.refreshToken,
      try_catch. rewrite Hnone. split; reflexivity.
  - intros t Hsome w1.
    unfold UserController.logout, UserController.refreshToken, try_catch.
    rewrite Hsome. split; [reflexivity|]. split; [|split; [|split]].
    + rewrite bind_run, refreshToken_revoked by apply revokeToken_adds. reflexivity.
    + intros e w' Hv. unfold DefaultAuthService.refreshToken.
      rewrite !bind_run, Hv. cbv beta iota.
      rewrite (handleError_token_error e (validateToken_error_name E t w w' e Hv)).
      reflexivity.
    + intros uid w' Hv. unfold DefaultAuthService.refreshToken.
      rewrite !bind_run, Hv. cbv beta iota. rewrite bind_run, findById_any_eq.
      destruct (validateToken_returned E t _ w w' Hv) as (_ & -> & _).
      cbn [users set_clock_reads]. rewrite Map_get_any_subject.
      destruct (InMemoryUserRepository.Map_get uid (users w)) as [u|]; [|reflexivity].
      destruct (isActive u); [|reflexivity].
      eexists. eexists. split; reflexivity.
    + intros other w' Hv Hother. unfold DefaultAuthService.refreshToken.
      rewrite !bind_run, Hv. cbv beta iota. rewrite bind_run, findById_any_eq.
      destruct (validateToken_returned E t _ w w' Hv) as (_ & -> & _).
      cbn [users set_clock_reads].
      destruct (InMemoryUserRepository.Map_get_any other (users w)) as [u|] eqn:Hget.
      { destruct (Map_get_any_Some other _ u Hget) as (uid & Heq & _).
        exfalso. exact (Hother uid Heq). }
      unfold UserNotFoundError_of.
      destruct (ToString (platform E) other) as [e|text] eqn:Hs; [|reflexivity].
      rewrite (ToString_error _ _ _ Hs). reflexivity.
Qed.

(** X20. PUT /users/password changes something only when it answers 200. It
    answers 200 only if the body holds two non-empty strings, the current one
    verifies against the stored record of the requesting user and the new one
    passes the policy; afterwards the new password verifies against the
    user's record, the other users are as before, and no token has been
    revoked, so the tokens issued under the old password stay valid. *)
Theorem password_change_answers
  (E : Env) (u : UserResponse) (body : PasswordUpdateBody) (w w' : World)
  (resp : HttpResponse) :
  PlatformLaws (platform E) ->
  UserController.updatePassword E (Some u) body w = (inr resp, w') ->
  (res_status resp <> 200 -> w' = w)
  /\ (res_status resp = 200 ->
      exists current new cu cu',
        body_currentPassword body = JsString current
        /\ body_newPassword body = JsString new
        /\ InMemoryUserRepository.Map_get (resp_id u) (users w) = Some cu
        /\ BcryptPasswordService.verifyPassword E current (hashedPassword cu) = true
        /\ isValid (BcryptPasswordService.validatePasswordStrength new) = true
        /\ InMemoryUserRepository.Map_get (resp_id u) (users w') = Some cu'
        /\ BcryptPasswordService.verifyPassword E new (hashedPassword cu') = true
        /\ email cu' = email cu /\ isActive cu' = isActive cu
        /\ (forall k, k <> resp_id u ->
                      InMemoryUserRepository.Map_get k (users w')
                      = InMemoryUserRepository.Map_get k (users w))
        /\ revokedTokens w' = revokedTokens w).
Proof.
  intros laws. unfold UserController.updatePassword, try_catch.
  rewrite bind_run. unfold lift at 1.
  destruct (UserController.validatePasswordUpdateData body) as [e|[current new]] eqn:Hv.
  { assert (He : name e = "Error").
    { unfold UserController.validatePasswordUpdateData in Hv.
      destruct (UserController.required_string (body_currentPassword body));
        [|injection Hv as <-; reflexivity].
      destruct (UserController.required_string (body_newPassword body));
        [discriminate | injection Hv as <-; reflexivity]. }
    unfold UserController.handleError. rewrite He. cbn.
    intros H. injection H as <- <-. split; [reflexivity | discriminate]. }
  assert (Hbody : body_currentPassword body = JsString current
                  /\ body_newPassword body = JsString new).
  { unfold UserController.validatePasswordUpdateData,
      UserController.required_string in Hv.
    destruct (body_currentPassword body) as [| | | |c|]; try discriminate.
    destruct (Nat.eqb (String.length c) 0); [discriminate|].
    destruct (body_newPassword body) as [| | | |n|]; try discriminate.
    destruct (Nat.eqb (String.length n) 0); [discriminate|].
    injection Hv as <- <-. auto. }
  rewrite bind_run, findById_eq. cbn [fst snd].
  destruct (InMemoryUserRepository.Map_get (resp_id u) (users w)) as [cu|] eqn:Hget.
  2:{ cbn. intros H. injection H as <- <-. split; [reflexivity | discriminate]. }
  destruct (BcryptPasswordService.verifyPassword E current (hashedPassword cu))
    eqn:Hver; cbn [negb].
  2:{ cbn. intros H. injection H as <- <-. split; [reflexivity | discriminate]. }
  destruct (isValid (BcryptPasswordService.validatePasswordStrength new)) eqn:Hvalid;
    cbn [negb].
  2:{ cbn. intros H. injection H as <- <-. split; [reflexivity | discriminate]. }
  assert (Hlen : String.length new <> 0%nat).
  { apply validatePasswordStrength_accepts in Hvalid as (H & _). lia. }
  pose proof (hashPassword_eq E new w Hlen) as Hh. cbv zeta in Hh.
  rewrite bind_run, Hh, bind_run.
  unfold UserRepository.updatePassword. rewrite !bind_run.
  cbn [get_world users set_entropy_reads]. rewrite Hget.
  cbn. intros H. injection H as <- <-. split; [intros Hne; contradiction|].
  intros _. eexists current, new, cu, _.
  split; [apply Hbody|]. split; [apply Hbody|]. split; [reflexivity|].
  split; [exact Hver|]. split; [exact Hvalid|].
  split; [apply Map_get_set_eq|]. cbn [hashedPassword email isActive].
  split; [apply (verifyPassword_hashed E new (entropy_reads w) laws)|].
  split; [reflexivity|]. split; [reflexivity|].
  split; [|reflexivity].
  intros k Hk. apply Map_get_set_ne. congruence.
Qed.

Lemma password_change_answers_witness :
  exists resp w',
    UserController.updatePassword Run.E1 (Some (user Scenario.registration_result))
      (mkPasswordUpdateBody (JsString "Test.Passw0rd!") (JsString "Other.Passw0rd9?"))
      Run.registered
    = (inr resp, w')
    /\ res_status resp = 200
    /\ revokedTokens w' = revokedTokens Run.registered.
Proof.
  destruct (UserController.updatePassword Run.E1
              (Some (user Scenario.registration_result))
              (mkPasswordUpdateBody (JsString "Test.Passw0rd!")
                                    (JsString "Other.Passw0rd9?"))
              Run.registered) as [[e|resp] w'] eqn:Hrun;
    [vm_compute in Hrun; discriminate Hrun|].
  assert (Hstatus : res_status resp = 200)
    by (vm_compute in Hrun; injection Hrun as <- _; reflexivity).
  destruct (password_change_answers Run.E1 _ _ _ _ _ sample_platform_laws Hrun)
    as (_ & H).
  destruct (H Hstatus) as (c & n & cu & cu' & _ & _ & _ & _ & _ & _ & _ & _ & _ & _ & Hr).
  exists resp, w'. auto.
Defined.

(** ** Emails and usernames *)

(** X22. A successful [register] takes the email and the username: in the
    state it leaves, a second registration with the same email is refused
    with [UserAlreadyExistsError] for the email, and one with another email
    but the same username is refused for the username (when the passwords
    pass the policy; a weak password is reported first). The comparison is by
    exact string, and the refused registration changes nothing. *)
Theorem register_twice_is_refused
  (E : Env) (d d' : UserRegistrationData) (w w1 : World) (r : AuthenticationResult) :
  DefaultAuthService.register E d w = (inr r, w1) ->
  isValid (BcryptPasswordService.validatePasswordStrength (reg_password d')) = true ->
  (reg_email d' = reg_email d ->
   DefaultAuthService.register E d' w1
   = (inl (UserAlreadyExistsError_new "email" (reg_email d)), w1))
  /\ (reg_username d' = reg_username d ->
      InMemoryUserRepository.Map_find
        (fun u => String.eqb (email u) (reg_email d')) (users w1) = None ->
      DefaultAuthService.register E d' w1
      = (inl (UserAlreadyExistsError_new "username" (reg_username d)), w1)).
Proof.
  intros Hreg Hv'.
  destruct (register_succeeded E d w w1 r Hreg) as (Hv & He & Hn).
  pose proof (register_eq E d w Hv He Hn) as Hr. cbv zeta in Hr.
  rewrite Hr in Hreg. injection Hreg as _ <-.
  set (u := mkUser _ _ _ _ _ _ _ _ _).
  set (w1 := mkWorld _ _ _ _ _).
  assert (Hfe : InMemoryUserRepository.Map_find
                  (fun x => String.eqb (email x) (reg_email d)) (users w1) = Some u)
    by (apply Map_find_set_new; [exact He | apply String.eqb_refl]).
  assert (Hfn : InMemoryUserRepository.Map_find
                  (fun x => String.eqb (username x) (reg_username d)) (users w1)
                = Some u)
    by (apply Map_find_set_new; [exact Hn | apply String.eqb_refl]).
  split.
  - intros Heq. unfold DefaultAuthService.register. rewrite Hv'. cbn [negb].
    rewrite bind_run, findByEmail_eq, Heq, Hfe. reflexivity.
  - intros Heq Hfree. unfold DefaultAuthService.register. rewrite Hv'. cbn [negb].
    rewrite bind_run, findByEmail_eq, Hfree, bind_run, findByUsername_eq, Heq, Hfn.
    reflexivity.
Qed.

Lemma register_twice_is_refused_witness :
  DefaultAuthService.register Run.E1 Run.data Run.registered
  = (inl (UserAlreadyExistsError_new "email" "test@example.com"), Run.registered).
Proof.
  destruct (register_twice_is_refused Run.E1 Run.data Run.data Run.initial
              Run.registered Scenario.registration_result eq_refl eq_refl)
    as (H & _).
  apply H. reflexivity.
Defined.

(** ** Paging from the end *)

(** X23. A negative offset [-k] counts from the end of the list, as
    [Array.prototype.slice] does. Without a limit, [findAll] then returns the
    last [k] users. With a limit [n] below [k] it returns the first [n] of
    these. With a limit from [k] up to the number of users it returns nothing
    at all, because the end of the slice, [n - k], is then counted from the
    start of the list. *)
Theorem findAll_negative_offset (w : World) (k n : nat) :
  let all := List.map snd (users w) in
  let len := List.length all in
  (1 <= k <= len)%nat ->
  UserRepository.findAll None (Some (- Z.of_nat k)) w
  = (inr (drop (len - k) all), w)
  /\ ((1 <= n < k)%nat ->
      UserRepository.findAll (Some (Z.of_nat n)) (Some (- Z.of_nat k)) w
      = (inr (take n (drop (len - k) all)), w))
  /\ ((k <= n <= len)%nat ->
      UserRepository.findAll (Some (Z.of_nat n)) (Some (- Z.of_nat k)) w
      = (inr [], w)).
Proof.
  intros all len Hk.
  assert (Hstart : (- Z.of_nat k =? 0) = false) by (apply Z.eqb_neq; lia).
  assert (Hneg : (- Z.of_nat k <? 0) = true) by (apply Z.ltb_lt; lia).
  unfold UserRepository.findAll. rewrite !bind_run. cbn [get_world].
  unfold mret, M_ret. fold all. rewrite Hstart. unfold Array_slice. fold len. rewrite Hneg.
  replace (Z.to_nat (Z.max (Z.of_nat len + - Z.of_nat k) 0)) with (len - k)%nat by lia.
  split; [|split].
  - f_equal. f_equal. apply take_ge. rewrite length_drop. fold len. lia.
  - intros Hn.
    assert (Hn0 : (Z.of_nat n =? 0) = false) by (apply Z.eqb_neq; lia).
    assert (Hend : (- Z.of_nat k + Z.of_nat n <? 0) = true) by (apply Z.ltb_lt; lia).
    rewrite Hn0, Hend. do 3 f_equal. lia.
  - intros Hn.
    assert (Hn0 : (Z.of_nat n =? 0) = false) by (apply Z.eqb_neq; lia).
    assert (Hend : (- Z.of_nat k + Z.of_nat n <? 0) = false) by (apply Z.ltb_ge; lia).
    rewrite Hn0, Hend.
    replace (Z.to_nat
               (Z.min (- Z.of_nat k + Z.of_nat n) (Z.of_nat len)
                - Z.max (Z.of_nat len + - Z.of_nat k) 0))
      with 0%nat by lia.
    reflexivity.
Qed.

Lemma findAll_negative_offset_witness :
  UserRepository.findAll (Some 1) (Some (-1)) Run.registered = (inr [], Run.registered).
Proof.
  destruct (findAll_negative_offset Run.registered 1 1) as (_ & _ & H).
  - vm_compute. lia.
  - apply H. vm_compute. lia.
Defined.

(** ** Issuing a token and reporting its expiry *)

(** C10. [register], [login] and [refreshToken] return under the conditions
    their checks state (a password the policy accepts and a free email and
    username; a user found by email whose password verifies, who is active and
    stored under its id; a token the token service accepts for the id of an
    active user). Whenever one of them returns, the token embeds the clock
    read made by [generateToken] plus 24 hours, and the [expiresAt] handed to
    the caller is the next clock read, made by [getTokenExpiration], plus 24
    hours. When the clock does not run backwards between the two reads, the
    reported expiry equals the embedded one exactly if both reads return the
    same millisecond, and is strictly later otherwise. *)
Theorem reported_expiry_from_later_clock_read (E : Env) (w : World) :
  PlatformLaws (platform E) ->
  (forall d,
     isValid (BcryptPasswordService.validatePasswordStrength (reg_password d)) = true ->
     InMemoryUserRepository.Map_find
       (fun u => String.eqb (email u) (reg_email d)) (users w) = None ->
     InMemoryUserRepository.Map_find
       (fun u => String.eqb (username u) (reg_username d)) (users w) = None ->
     exists r w',
       DefaultAuthService.register E d w = (inr r, w')
       /\ issued_then_reported E (S (clock_reads w)) r)
  /\ (forall d u stored,
        InMemoryUserRepository.Map_find
          (fun x => String.eqb (email x) (login_email d)) (users w) = Some u ->
        BcryptPasswordService.verifyPassword E (login_password d) (hashedPassword u)
        = true ->
        isActive u = true ->
        InMemoryUserRepository.Map_get (id u) (users w) = Some stored ->
        exists r w',
          DefaultAuthService.login E d w = (inr r, w')
          /\ issued_then_reported E (S (S (clock_reads w))) r)
  /\ (forall t uid u w1,
        JWTTokenService.validateToken E t w = (inr (subject uid), w1) ->
        InMemoryUserRepository.Map_get uid (users w) = Some u ->
        isActive u = true ->
        exists r w',
          DefaultAuthService.refreshToken E t w = (inr r, w')
          /\ issued_then_reported E (S (clock_reads w)) r)
  /\ (forall d r w',
        DefaultAuthService.register E d w = (inr r, w') ->
        issued_then_reported E (S (clock_reads w)) r)
  /\ (forall d r w',
        DefaultAuthService.login E d w = (inr r, w') ->
        issued_then_reported E (S (S (clock_reads w))) r)
  /\ (forall t r w',
        DefaultAuthService.refreshToken E t w = (inr r, w') ->
        issued_then_reported E (S (clock_reads w)) r)
  /\ (forall k r,
        issued_then_reported E k r ->
        exists payload,
          JWTTokenService.decodeToken E (token r) = inr (payload_json payload)
          /\ payload_expiresAt payload = clock E k + 86400000
          /\ expiresAt r = clock E (S k) + 86400000
          /\ (clock E k <= clock E (S k) ->
              (expiresAt r = payload_expiresAt payload <-> clock E (S k) = clock E k)
              /\ (clock E (S k) <> clock E k ->
                  payload_expiresAt payload < expiresAt r))).
Proof.
  intros laws.
  assert (Hreg : forall d r w',
             DefaultAuthService.register E d w = (inr r, w') ->
             issued_then_reported E (S (clock_reads w)) r)
    by (intros d r w'; apply register_returned).
  assert (Hlog : forall d r w',
             DefaultAuthService.login E d w = (inr r, w') ->
             issued_then_reported E (S (S (clock_reads w))) r)
    by (intros d r w'; apply login_returned).
  assert (Href : forall t r w',
             DefaultAuthService.refreshToken E t w = (inr r, w') ->
             issued_then_reported E (S (clock_reads w)) r).
  { intros t r w' H.
    destruct (refreshToken_returned E t w w' r H) as (_ & _ & _ & _ & _ & _ & Hi & _).
    exact Hi. }
  split; [|split; [|split; [|split; [exact Hreg|split; [exact Hlog|split; [exact Href|]]]]]].
  - intros d Hv He Hn. pose proof (register_eq E d w Hv He Hn) as Hr.
    cbv zeta in Hr. eexists. eexists. split; [exact Hr|].
    apply (Hreg d _ _ Hr).
  - intros d u stored Hfind Hver Hact Hget.
    assert (Hrun : exists r w', DefaultAuthService.login E d w = (inr r, w')).
    { unfold DefaultAuthService.login. rewrite bind_run, findByEmail_eq, Hfind.
      rewrite Hver, Hact. cbn [negb].
      unfold InMemoryUserRepository.updateLastLogin. rewrite !bind_run.
      cbn [get_world]. rewrite Hget. eexists. eexists. reflexivity. }
    destruct Hrun as (r & w' & Hrun). exists r, w'.
    split; [exact Hrun | apply (Hlog d r w' Hrun)].
  - intros t uid u w1 Hv Hget Hact.
    assert (Hrun : exists r w', DefaultAuthService.refreshToken E t w = (inr r, w')).
    { unfold DefaultAuthService.refreshToken.
      rewrite bind_run, Hv, bind_run, findById_any_eq.
      destruct (validateToken_returned E t _ w w1 Hv) as (_ & -> & _).
      cbn [users set_clock_reads]. rewrite Map_get_any_subject, Hget, Hact.
      eexists. eexists. reflexivity. }
    destruct Hrun as (r & w' & Hrun). exists r, w'.
    split; [exact Hrun | apply (Href t r w' Hrun)].
  - intros k r [Htok Hexp].
    exists (mkTokenPayload (resp_id (user r)) (clock E k) (clock E k + 86400000)).
    rewrite Htok at 1. rewrite (decodeToken_createToken E laws).
    cbn [payload_expiresAt]. rewrite Hexp.
    repeat split; intros; lia.
Qed.

Lemma reported_expiry_from_later_clock_read_witness :
  (exists r w',
      DefaultAuthService.register Run.E1 Run.data Run.initial = (inr r, w')
      /\ issued_then_reported Run.E1 1 r)
  /\ (exists r w',
         DefaultAuthService.login Run.E1 Scenario.credentials Run.registered
         = (inr r, w')
         /\ issued_then_reported Run.E1 5 r)
  /\ (exists r w',
         DefaultAuthService.refreshToken Run.E1 Run.tok1 Run.registered = (inr r, w')
         /\ issued_then_reported Run.E1 4 r
         /\ exists payload,
              JWTTokenService.decodeToken Run.E1 (token r) = inr (payload_json payload)
              /\ payload_expiresAt payload = 86400009
              /\ expiresAt r = 86400010).
Proof.
  destruct (reported_expiry_from_later_clock_read Run.E1 Run.initial
              sample_platform_laws) as (Hregister & _).
  destruct (reported_expiry_from_later_clock_read Run.E1 Run.registered
              sample_platform_laws)
    as (_ & Hlogin & Hrefresh & _ & _ & _ & Hgap).
  split; [|split].
  - apply (Hregister Run.data); reflexivity.
  - apply (Hlogin Scenario.credentials Scenario.stored_user Scenario.stored_user);
      vm_compute; reflexivity.
  - destruct (Hrefresh Run.tok1 "1" Scenario.stored_user
                (set_clock_reads 4 Run.registered))
      as (r & w' & Hrun & Hissued); [vm_compute; reflexivity ..|].
    exists r, w'. split; [exact Hrun|]. split; [exact Hissued|].
    destruct (Hgap _ _ Hissued) as (payload & Hdec & Hemb & Hrep & _).
    exists payload. split; [exact Hdec|]. split; [exact Hemb | exact Hrep].
Defined.
